(** * Datasage preprocessing pipeline: a shallow embedding

    The development follows [backend/app/pipeline] (loader and steps) and
    [backend/app/eda/summarizer.py].  Part I embeds the data model and the
    operations of the Python sources; Part II states and proves the
    properties of the pipeline specification against that embedding.

    Conventions of the embedding:
    - a pandas/Dask DataFrame is a [frame]: an engine flag, a row count and
      an ordered list of labelled, typed columns; a missing cell (NaN, None,
      NaT) is [None];
    - a finite Python float is the rational it holds ([Q]); where the
      program rounds a float, prints its digits or adds floats up, the
      operations are those of IEEE 754 binary64 ([Binary64]); the
      thresholds of the pipeline compare ratios of row counts and are taken
      on the exact ratio, on which the rational and the IEEE comparison
      agree for every realistic table size; the IEEE infinities are not
      represented;
    - a Python [dict] is an insertion-ordered association list ([pdict]);
    - an exception is an explicit error result;
    - functions of pandas, Dask and scipy whose algorithm is outside this
      repository (parsing of dates and numbers, normality tests, random
      sampling, float printing) are Section variables of the step that
      calls them. *)

From Stdlib Require Import List String Ascii ZArith QArith Qround Qpower Bool Lia Lqa Arith.
From Stdlib Require Import Decimal DecimalNat DecimalString FinFun.
Import ListNotations.
Close Scope Q_scope.
Open Scope string_scope.
Open Scope list_scope.

(* ================================================================== *)
(** * Part I: the model                                                *)
(* ================================================================== *)

(** ** Rational helpers *)

Definition Qltb (a b : Q) : bool := negb (Qle_bool b a).
Definition Qnat (n : nat) : Q := inject_Z (Z.of_nat n).
Definition Qmin (a b : Q) : Q := if Qle_bool a b then a else b.
Definition Qmax (a b : Q) : Q := if Qle_bool a b then b else a.

(** The integer nearest to [q], a tie going to the even one. *)
Definition round_half_even (q : Q) : Z :=
  let f := Qfloor q in
  let r := (q - inject_Z f)%Q in
  if Qltb r (1 # 2) then f
  else if Qltb (1 # 2) r then (f + 1)%Z
  else if Z.even f then f else (f + 1)%Z.

Definition pow10 (d : nat) : Z := (10 ^ Z.of_nat d)%Z.

(** ** Binary floating point

    A Python [float] and a numpy [float64] are IEEE 754 binary64 numbers.
    A finite one is written here as the rational it holds.  An arithmetic
    operation returns the double nearest to the exact result, a tie going
    to the even significand; a result too small for a normal double is
    rounded on the grid of the subnormal ones.  No quantity of this program
    comes near the overflow threshold, which is left out. *)

Module Binary64.

Definition pow2 (e : Z) : Q := (2 ^ e)%Q.

(** The binary exponent of a positive rational: the [k] with
    [2^k <= q < 2^(k+1)]. *)
Definition ilog2 (q : Q) : Z :=
  let k := (Z.log2 (Qnum q) - Z.log2 (Zpos (Qden q)))%Z in
  if Qle_bool (pow2 k) q then k else (k - 1)%Z.

(** The exponent of the last bit of the 53-bit significand. *)
Definition ulp_exponent (q : Q) : Z := Z.max (ilog2 q - 52) (-1074).

Definition round_pos (q : Q) : Q :=
  let e := ulp_exponent q in
  (inject_Z (round_half_even (q / pow2 e)) * pow2 e)%Q.

(** The double nearest to [q], as a reduced fraction. *)
Definition round (q : Q) : Q :=
  let r := Qred q in
  match Qnum r with
  | Z0 => 0%Q
  | Zpos _ => Qred (round_pos r)
  | Zneg _ => Qred (- round_pos (- r))
  end.

Definition add (a b : Q) : Q := round (a + b).
Definition sub (a b : Q) : Q := round (a - b).
Definition mul (a b : Q) : Q := round (a * b).
Definition div (a b : Q) : Q := round (a / b).

(** The doubles: a significand of at most 53 bits at an exponent of the
    range. *)
Definition is_double (x : Q) : Prop :=
  exists m e, (Z.abs m <= 2 ^ 53)%Z /\ (-1074 <= e)%Z /\ (x == inject_Z m * pow2 e)%Q.

(** [sum] with a float accumulator that starts at [0.0]. *)
Definition sum (xs : list Q) : Q := fold_left add xs 0%Q.

(** The digits of [x] in fixed notation with [d] decimals, as the integer
    [x * 10^d] correctly rounded; a tie of the exact value goes to the even
    digit. *)
Definition to_decimal (x : Q) (d : nat) : Z := round_half_even (x * inject_Z (pow10 d)).

End Binary64.

(** Python's [round(x, ndigits)], [x] being the double nearest to [q]: the
    decimal with [ndigits] digits nearest to the value that [x] holds, read
    back as a double. *)
Definition py_round (q : Q) (ndigits : nat) : Q :=
  Binary64.round (inject_Z (Binary64.to_decimal (Binary64.round q) ndigits)
                  / inject_Z (pow10 ndigits))%Q.

(** ** Characters and strings *)

Definition ascii_in (lo hi : nat) (c : ascii) : bool :=
  Nat.leb lo (nat_of_ascii c) && Nat.leb (nat_of_ascii c) hi.

Definition is_digit (c : ascii) : bool := ascii_in 48 57 c.
Definition is_lower (c : ascii) : bool := ascii_in 97 122 c.
Definition is_upper (c : ascii) : bool := ascii_in 65 90 c.

(** [str.isspace] on the ASCII range. *)
Definition is_space (c : ascii) : bool :=
  ascii_in 9 13 c || ascii_in 28 32 c.

Definition underscore : ascii := "_"%char.
Definition is_underscore (c : ascii) : bool := Ascii.eqb c underscore.

(** Strings are sequences of bytes: [A]-[Z] are the letters with a
    lowercase form, a byte outside ASCII is left as it is. *)
Definition to_lower (c : ascii) : ascii :=
  if is_upper c then ascii_of_nat (nat_of_ascii c + 32) else c.

Definition chars (s : string) : list ascii := list_ascii_of_string s.
Definition of_chars (l : list ascii) : string := string_of_list_ascii l.

(** [str.lower] *)
Definition lower (s : string) : string := of_chars (map to_lower (chars s)).

(** [str.lstrip] / [str.rstrip] / [str.strip] over a class of characters. *)
Fixpoint lstrip (p : ascii -> bool) (l : list ascii) : list ascii :=
  match l with
  | [] => []
  | c :: tl => if p c then lstrip p tl else l
  end.

Fixpoint rstrip (p : ascii -> bool) (l : list ascii) : list ascii :=
  match l with
  | [] => []
  | c :: tl =>
      match rstrip p tl with
      | [] => if p c then [] else [c]
      | r => c :: r
      end
  end.

Definition strip_chars (p : ascii -> bool) (l : list ascii) : list ascii :=
  rstrip p (lstrip p l).

Definition strip (s : string) : string := of_chars (strip_chars is_space (chars s)).

(** [needle in haystack] on strings. *)
Fixpoint prefixb (p l : list ascii) : bool :=
  match p, l with
  | [], _ => true
  | _ :: _, [] => false
  | a :: p', b :: l' => Ascii.eqb a b && prefixb p' l'
  end.

Fixpoint infixb (p l : list ascii) : bool :=
  prefixb p l ||
  match l with
  | [] => false
  | _ :: l' => infixb p l'
  end.

Definition contains (needle haystack : string) : bool :=
  infixb (chars needle) (chars haystack).

(** [str(n)] for a non-negative integer. *)
Definition decimal (n : nat) : string := NilEmpty.string_of_uint (Nat.to_uint n).

Definition mem_str (x : string) (l : list string) : bool :=
  existsb (String.eqb x) l.

(** ** Python dictionaries

    Insertion-ordered: [d[k] = v] overwrites in place when [k] is a key and
    appends otherwise; iteration follows the list. *)

Definition pdict (V : Type) : Type := list (string * V).

Fixpoint dict_get {V} (d : pdict V) (k : string) : option V :=
  match d with
  | [] => None
  | (k', v) :: d' => if String.eqb k k' then Some v else dict_get d' k
  end.

Definition dict_get_default {V} (d : pdict V) (k : string) (dflt : V) : V :=
  match dict_get d k with
  | Some v => v
  | None => dflt
  end.

Fixpoint dict_set {V} (d : pdict V) (k : string) (v : V) : pdict V :=
  match d with
  | [] => [(k, v)]
  | (k', v') :: d' =>
      if String.eqb k k' then (k', v) :: d' else (k', v') :: dict_set d' k v
  end.

(** [dict(pairs)] *)
Definition dict_of_pairs {V} (l : list (string * V)) : pdict V :=
  fold_left (fun d kv => dict_set d (fst kv) (snd kv)) l [].

Definition dict_keys {V} (d : pdict V) : list string := map fst d.

(** ** Tables *)

Inductive dtype : Type :=
| DInt | DFloat | DBool | DObject | DDatetime | DCategory.

Definition is_numeric_dtype (d : dtype) : bool :=
  match d with DInt | DFloat | DBool => true | _ => false end.
Definition is_integer_dtype (d : dtype) : bool :=
  match d with DInt => true | _ => false end.
Definition is_bool_dtype (d : dtype) : bool :=
  match d with DBool => true | _ => false end.
Definition is_object_dtype (d : dtype) : bool :=
  match d with DObject => true | _ => false end.
Definition is_datetime64_any_dtype (d : dtype) : bool :=
  match d with DDatetime => true | _ => false end.
Definition is_categorical_dtype (d : dtype) : bool :=
  match d with DCategory => true | _ => false end.

Definition dtype_name (d : dtype) : string :=
  match d with
  | DInt => "int64" | DFloat => "float64" | DBool => "bool"
  | DObject => "object" | DDatetime => "datetime64[ns]" | DCategory => "category"
  end.

(** A present cell value; timestamps are nanoseconds since the epoch. *)
Inductive value : Type :=
| VNum (q : Q)
| VStr (s : string)
| VBool (b : bool)
| VTime (t : Z).

Definition cell : Type := option value.

Definition value_eqb (a b : value) : bool :=
  match a, b with
  | VNum x, VNum y => Qeq_bool x y
  | VStr x, VStr y => String.eqb x y
  | VBool x, VBool y => Bool.eqb x y
  | VTime x, VTime y => Z.eqb x y
  | _, _ => false
  end.

(** Cell equality as [duplicated] and [nunique] use it: two missing cells
    are equal. *)
Definition cell_eqb (a b : cell) : bool :=
  match a, b with
  | None, None => true
  | Some x, Some y => value_eqb x y
  | _, _ => false
  end.

Record column : Type := mkColumn {
  col_name : string;
  col_dtype : dtype;
  col_cells : list cell
}.

(** [frame_is_dask] is [isinstance(df, dd.DataFrame)]; [n_rows] is
    [len(df)]. *)
Record frame : Type := mkFrame {
  frame_is_dask : bool;
  n_rows : nat;
  columns : list column
}.

Definition column_names (df : frame) : list string := map col_name (columns df).

(** [df[col]]: the column labelled [col].  Where two columns carry the
    label pandas returns a table and not a column; [find_column] then gives
    the first of them, and the steps that read a column this way are
    stated on tables with pairwise distinct labels.  [select] below is the
    selection that fails on a repeated label. *)
Fixpoint find_column (cols : list column) (name : string) : option column :=
  match cols with
  | [] => None
  | c :: tl => if String.eqb name (col_name c) then Some c else find_column tl name
  end.

Definition frame_get (df : frame) (name : string) : option column :=
  find_column (columns df) name.

(** [df[col] = series]: replaces the column in place, or appends it. *)
Fixpoint set_column (cols : list column) (c : column) : list column :=
  match cols with
  | [] => [c]
  | c' :: tl =>
      if String.eqb (col_name c) (col_name c') then c :: tl else c' :: set_column tl c
  end.

Definition frame_set (df : frame) (c : column) : frame :=
  mkFrame (frame_is_dask df) (n_rows df) (set_column (columns df) c).

Definition is_null (c : cell) : bool :=
  match c with None => true | Some _ => false end.

(** [series.isnull().sum()] *)
Definition null_count (cells : list cell) : nat :=
  List.length (filter is_null cells).

(** [series.dropna()] *)
Fixpoint dropna (cells : list cell) : list value :=
  match cells with
  | [] => []
  | None :: tl => dropna tl
  | Some v :: tl => v :: dropna tl
  end.

(** [series.unique()] on present values, in order of first appearance. *)
Fixpoint distinct_values (seen : list value) (l : list value) : list value :=
  match l with
  | [] => []
  | v :: tl =>
      if existsb (value_eqb v) seen then distinct_values seen tl
      else v :: distinct_values (v :: seen) tl
  end.

(** [series.nunique()]: distinct present values. *)
Definition nunique (cells : list cell) : nat :=
  List.length (distinct_values [] (dropna cells)).

(** [df.head(n)] *)
Definition frame_head (n : nat) (df : frame) : frame :=
  mkFrame (frame_is_dask df) (Nat.min n (n_rows df))
          (map (fun c => mkColumn (col_name c) (col_dtype c) (firstn n (col_cells c)))
               (columns df)).

(** ** Pipeline context, log entries and step results ([steps/base.py]) *)

Inductive jvalue : Type :=
| JStr (s : string)
| JInt (n : Z)
| JNum (q : Q)
| JCell (c : cell).

Record log_entry : Type := mkLog {
  log_job_id : string;
  log_step_name : string;
  log_action : string;
  log_column_name : option string;
  log_after_value : list (string * jvalue);
  log_severity : string
}.

Record PipelineContext : Type := mkContext {
  ctx_dataset_id : string;
  ctx_domain : string;
  ctx_job_id : string;
  ctx_schema : pdict string;
  ctx_is_dask : bool;
  ctx_warnings : list string
}.

Definition with_schema (ctx : PipelineContext) (s : pdict string) : PipelineContext :=
  mkContext (ctx_dataset_id ctx) (ctx_domain ctx) (ctx_job_id ctx) s
            (ctx_is_dask ctx) (ctx_warnings ctx).

Definition add_warning (ctx : PipelineContext) (w : string) : PipelineContext :=
  mkContext (ctx_dataset_id ctx) (ctx_domain ctx) (ctx_job_id ctx) (ctx_schema ctx)
            (ctx_is_dask ctx) (ctx_warnings ctx ++ [w]).

Record StepResult : Type := mkResult {
  res_df : frame;
  res_logs : list log_entry;
  res_warnings : list string;
  res_modified_columns : list string
}.

(** The role names of the schema map. *)
Definition pipeline_roles : list string :=
  ["id_col"; "datetime_col"; "text_col"; "feature_col"; "target_col"; "constant_col"].

(** ** Exceptions

    A call either returns or raises; the exception carries its class
    name. *)
Inductive outcome (A : Type) : Type :=
| Ok (a : A)
| Raise (exn : string).
Arguments Ok {A} a.
Arguments Raise {A} exn.

(** ** Selecting a column for its dtype

    [Raise msg] carries [str(exc)] here. *)

Definition count_label (df : frame) (col : string) : nat :=
  List.length (filter (String.eqb col) (column_names df)).

(** [sample_df[col].dtype].  Under a label that several columns carry,
    [sample_df[col]] is a table, and a table has no [dtype]. *)
Definition select (df : frame) (col : string) : outcome column :=
  match frame_get df col with
  | Some c =>
      if Nat.ltb 1 (count_label df col)
      then Raise "'DataFrame' object has no attribute 'dtype'"
      else Ok c
  | None => Raise ("'" ++ col ++ "'")%string
  end.

(** ** Series helpers shared by the steps *)

Definition notna (c : cell) : bool := negb (is_null c).

(** [series.mean()] of a boolean series: [None] (NaN) on an empty one. *)
Definition mean_of_bools (l : list bool) : option Q :=
  match l with
  | [] => None
  | _ => Some (Qnat (List.length (filter (fun b => b) l)) / Qnat (List.length l))%Q
  end.

(** [series.mean()] of a series of lengths. *)
Definition mean_of_nats (l : list nat) : option Q :=
  match l with
  | [] => None
  | _ => Some (Qnat (list_sum l) / Qnat (List.length l))%Q
  end.

(** [x > t] where [x] may be NaN: every comparison with NaN is false. *)
Definition nan_gt (x : option Q) (t : Q) : bool :=
  match x with
  | Some v => Qltb t v
  | None => false
  end.

Definition nan_lt (x : option Q) (t : Q) : bool :=
  match x with
  | Some v => Qltb v t
  | None => false
  end.

(** The role a run of a step left in the schema for [col]. *)
Definition assigned_role (o : outcome (StepResult * PipelineContext)) (col : string)
  : option string :=
  match o with
  | Ok (_, ctx') => dict_get (ctx_schema ctx') col
  | Raise _ => None
  end.

(** [col] has an entry in the schema, and the entry is a role name. *)
Definition has_role (ctx : PipelineContext) (col : string) : Prop :=
  exists role, dict_get (ctx_schema ctx) col = Some role /\ In role pipeline_roles.

(** [l] is a [role_assignment] entry for [col] that records a role name. *)
Definition is_role_assignment (col : string) (l : log_entry) : Prop :=
  log_action l = "role_assignment" /\
  log_column_name l = Some col /\
  exists role, dict_get (log_after_value l) "role" = Some (JStr role) /\
               In role pipeline_roles.

(** A fresh context, as [PipelineContext.__init__] leaves it. *)
Definition sample_context : PipelineContext :=
  mkContext "dataset-1" "general" "job-1" [] false [].

(** ** Column Normalizer ([steps/normalizer.py]) *)

Module ColumnNormalizer.

(** [re.sub(r'[^a-z0-9]', '_', s)] *)
Definition is_alnum_lower (c : ascii) : bool := is_lower c || is_digit c.

Definition sub_special (l : list ascii) : list ascii :=
  map (fun c => if is_alnum_lower c then c else underscore) l.

(** [re.sub(r'_+', '_', s)] *)
Fixpoint collapse_underscores (l : list ascii) : list ascii :=
  match l with
  | [] => []
  | c :: tl =>
      if is_underscore c then
        match tl with
        | c' :: _ => if is_underscore c' then collapse_underscores tl
                     else c :: collapse_underscores tl
        | [] => [c]
        end
      else c :: collapse_underscores tl
  end.

Definition starts_with_digit (l : list ascii) : bool :=
  match l with
  | c :: _ => is_digit c
  | [] => false
  end.

(** The body of the loop up to the de-duplication: lowercase, strip,
    replace, collapse, trim, prefix a leading digit, name the nameless. *)
Definition clean_chars (l : list ascii) : list ascii :=
  let n1 := strip_chars is_space (map to_lower l) in
  let n2 := sub_special n1 in
  let n3 := collapse_underscores n2 in
  let n4 := strip_chars is_underscore n3 in
  let n5 := if starts_with_digit n4 then chars "col_" ++ n4 else n4 in
  match n5 with
  | [] => chars "unnamed"
  | _ => n5
  end.

Definition clean_name (col : string) : string := of_chars (clean_chars (chars col)).

(** [f"{n_col}_{counter}"] *)
Definition suffixed (n_col : string) (counter : nat) : string :=
  (n_col ++ "_" ++ decimal counter)%string.

(** [while f"{n_col}_{counter}" in seen: counter += 1].  The loop leaves
    after at most [length seen + 1] tests; [fuel] bounds the number of
    tests. *)
Fixpoint find_counter (fuel : nat) (n_col : string) (seen : list string)
  (counter : nat) : nat :=
  match fuel with
  | O => counter
  | S fuel' =>
      if mem_str (suffixed n_col counter) seen
      then find_counter fuel' n_col seen (S counter)
      else counter
  end.

Definition deduplicate (n_col : string) (seen : list string) : string :=
  if mem_str n_col seen
  then suffixed n_col (find_counter (S (List.length seen)) n_col seen 1)
  else n_col.

(** The loop state: [seen], [new_cols], [modified], [logs]. *)
Record loop_state : Type := mkLoop {
  st_seen : list string;
  st_new_cols : list string;
  st_modified : list string;
  st_logs : list log_entry
}.

Definition rename_log (job : string) (original n_col : string) : log_entry :=
  mkLog job "ColumnNormalizer" "rename_column" (Some original)
        [("new_name", JStr n_col)] "info".

Definition loop_body (job : string) (st : loop_state) (col : string) : loop_state :=
  let original := col in
  let n_col := deduplicate (clean_name col) (st_seen st) in
  let renamed := negb (String.eqb original n_col) in
  mkLoop (n_col :: st_seen st)
         (st_new_cols st ++ [n_col])
         (if renamed then st_modified st ++ [n_col] else st_modified st)
         (if renamed then st_logs st ++ [rename_log job original n_col]
          else st_logs st).

Definition loop (job : string) (old_cols : list string) : loop_state :=
  fold_left (loop_body job) old_cols (mkLoop [] [] [] []).

(** [dict(zip(old_cols, new_cols))] *)
Definition rename_map (old_cols new_cols : list string) : pdict string :=
  dict_of_pairs (combine old_cols new_cols).

(** [df.rename(columns=rename_map)]: every label is looked up in the map. *)
Definition rename_columns (m : pdict string) (df : frame) : frame :=
  mkFrame (frame_is_dask df) (n_rows df)
          (map (fun c => mkColumn (dict_get_default m (col_name c) (col_name c))
                                  (col_dtype c) (col_cells c))
               (columns df)).

(** The schema follows the renames; an empty schema is left alone. *)
Definition rename_schema (m : pdict string) (schema : pdict string) : pdict string :=
  match schema with
  | [] => schema
  | _ => fold_left (fun new_schema kv =>
                      dict_set new_schema (dict_get_default m (fst kv) (fst kv)) (snd kv))
                   schema []
  end.

Definition run (df : frame) (context : PipelineContext)
  : StepResult * PipelineContext :=
  let old_cols := column_names df in
  let st := loop (ctx_job_id context) old_cols in
  let m := rename_map old_cols (st_new_cols st) in
  (mkResult (rename_columns m df) (st_logs st) [] (st_modified st),
   with_schema context (rename_schema m (ctx_schema context))).

(** *** Vocabulary of the naming properties *)

Definition is_name_char (c : ascii) : bool :=
  is_lower c || is_digit c || is_underscore c.

(** Lowercase, alphanumeric-or-underscore, non-empty, no leading digit. *)
Definition valid_chars (l : list ascii) : Prop :=
  l <> [] /\ forallb is_name_char l = true /\ starts_with_digit l = false.

Definition valid_name (s : string) : Prop := valid_chars (chars s).

Fixpoint no_double_underscore (l : list ascii) : bool :=
  match l with
  | [] => true
  | c :: tl =>
      match tl with
      | c' :: _ => negb (is_underscore c && is_underscore c') && no_double_underscore tl
      | [] => true
      end
  end.

Fixpoint ends_with_underscore (l : list ascii) : bool :=
  match l with
  | [] => false
  | c :: tl =>
      match tl with
      | [] => is_underscore c
      | _ :: _ => ends_with_underscore tl
      end
  end.

Definition starts_with_underscore (l : list ascii) : bool :=
  match l with
  | c :: _ => is_underscore c
  | [] => false
  end.

(** The names the cleaning leaves alone: valid, with no underscore at
    either end and no two underscores in a row. *)
Definition clean_chars_form (l : list ascii) : Prop :=
  valid_chars l /\
  starts_with_underscore l = false /\
  ends_with_underscore l = false /\
  no_double_underscore l = true.

Definition clean_form (s : string) : Prop := clean_chars_form (chars s).

(** The normalized form in the wording of the specification: lowercase,
    alphanumeric-or-underscore, not starting with a digit; a table is in
    that form when, besides, its names are pairwise distinct. *)
Definition spec_normalized_name (s : string) : Prop :=
  forallb is_name_char (chars s) = true /\ starts_with_digit (chars s) = false.

Definition spec_normalized (names : list string) : Prop :=
  NoDup names /\ Forall spec_normalized_name names.

(** *** Sample tables *)

(** Two columns that carry the same label. *)
Definition df_duplicate_labels : frame :=
  mkFrame false 1
    [mkColumn "A" DInt [Some (VNum 1)]; mkColumn "A" DInt [Some (VNum 2)]].

(** One column whose label has two underscores in a row. *)
Definition df_double_underscore : frame :=
  mkFrame false 1 [mkColumn "a__b" DInt [Some (VNum 1)]].

(** Labels that need cleaning and collide once cleaned. *)
Definition df_messy_labels : frame :=
  mkFrame false 1
    [mkColumn " First Name " DObject [Some (VStr "x")];
     mkColumn "first-name" DObject [Some (VStr "y")];
     mkColumn "2nd" DInt [Some (VNum 2)]].

End ColumnNormalizer.

(** ** Domain profiles ([core/domain_profiles.py]) *)

Module DomainProfiles.

Definition PIPELINE_ROLE_ALIASES : pdict string :=
  [("id_col", "id_col"); ("id", "id_col");
   ("text", "text_col"); ("text_col", "text_col");
   ("datetime", "datetime_col"); ("datetime_col", "datetime_col");
   ("feature", "feature_col"); ("feature_col", "feature_col");
   ("categorical", "feature_col");
   ("target", "target_col"); ("target_col", "target_col");
   ("constant", "constant_col"); ("constant_col", "constant_col")].

Definition role_meta (r : string) : pdict string := [("role", r)].

Definition ai_incidents_known_columns : pdict (pdict string) :=
  [("incident_id", role_meta "id_col");
   ("title", role_meta "text");
   ("description", role_meta "text");
   ("date", role_meta "datetime");
   ("year", role_meta "feature");
   ("allegeddeployerofaisystem", role_meta "categorical");
   ("allegeddeveloperofaisystem", role_meta "categorical");
   ("allegedharmedornearlyharmedparties", role_meta "categorical");
   ("allegedharmedornearlyharmeddparties", role_meta "categorical");
   ("harm_type", role_meta "categorical");
   ("sector_of_deployment", role_meta "categorical");
   ("technology_purveyor", role_meta "categorical");
   ("ai_system", role_meta "categorical")].

(** The registry, reduced to the [known_columns] of each domain (the
    display fields play no part in the pipeline). *)
Definition DOMAIN_PROFILES : pdict (pdict (pdict string)) :=
  [("general", []); ("healthcare", []); ("finance", []); ("education", []);
   ("ecommerce", []); ("ai_incidents", ai_incidents_known_columns); ("other", [])].

Definition get_domain_profile (domain : string) : pdict (pdict string) :=
  dict_get_default DOMAIN_PROFILES (lower (strip domain))
                   (dict_get_default DOMAIN_PROFILES "general" []).

Definition to_pipeline_role (role : string) : string :=
  dict_get_default PIPELINE_ROLE_ALIASES (lower (strip role)) "feature_col".

End DomainProfiles.

(** ** Schema Analyzer ([steps/schema_analyzer.py]) *)

Module SchemaAnalyzer.

Section Externals.

(** [pd.to_datetime(values, errors='coerce')]: the parsed series, [None]
    (NaT) where a value does not parse; the call itself may raise. *)
Variable to_datetime : list value -> option (list cell).

(** [str(v)] for a value that is not already a string. *)
Variable repr_other : value -> string.

Definition astype_str (v : value) : string :=
  match v with
  | VStr s => s
  | _ => repr_other v
  end.

Definition has_id_token (col : string) : bool :=
  contains "id" (lower col) || contains "key" (lower col) || contains "uuid" (lower col).

Definition constant_warning (col : string) : string :=
  ("Column '" ++ col ++ "' is constant (1 unique value) and flagged for potential drop.")%string.

(** The [try] block of the object-dtype branch; an exception leaves the
    default role. *)
Definition text_rule (cells : list cell) : string :=
  match to_datetime (dropna cells) with
  | None => "feature_col"
  | Some parsed =>
      let valid_pct := mean_of_bools (map notna parsed) in
      if nan_gt valid_pct (80 # 100) then "datetime_col"
      else
        let avg_len :=
          mean_of_nats (map (fun v => String.length (astype_str v)) (dropna cells)) in
        if nan_gt avg_len (50 # 1) then "text_col" else "feature_col"
  end.

(** The heuristic chain for one column of the sample: the role, and the
    warning raised for a constant column. *)
Definition infer_role (sample_len : nat) (c : column)
  : outcome (string * option string) :=
  let col := col_name c in
  let dtype := col_dtype c in
  let n := nunique (col_cells c) in
  if Nat.eqb n 1 then Ok ("constant_col", Some (constant_warning col))
  else if Nat.eqb sample_len 0 then Raise "ZeroDivisionError"
  else if Qltb (95 # 100) (Qnat n / Qnat sample_len)%Q then
    Ok (if has_id_token col || is_integer_dtype dtype then "id_col" else "feature_col",
        None)
  else if is_object_dtype dtype then Ok (text_rule (col_cells c), None)
  else if is_datetime64_any_dtype dtype then Ok ("datetime_col", None)
  else Ok ("feature_col", None).

Definition profile_role (known_columns : pdict (pdict string)) (col : string)
  : option string :=
  match dict_get known_columns col with
  | Some profile_meta =>
      match dict_get profile_meta "role" with
      | Some r => if String.eqb r "" then None else Some r
      | None => None
      end
  | None => None
  end.

Definition role_log (job col role : string) (from_profile : bool) : log_entry :=
  mkLog job "SchemaAnalyzer" "role_assignment" (Some col)
        (("role", JStr role) ::
         (if from_profile then [("source", JStr "domain_profile")] else []))
        "info".

Definition set_role (ctx : PipelineContext) (col role : string) : PipelineContext :=
  with_schema ctx (dict_set (ctx_schema ctx) col role).

(** One iteration of [for col in df.columns].  A column that the domain
    profile knows gets its role before the sample is read; for the others
    [sample_df[col].dtype] comes first, and raises under a label that
    several columns carry ([Raise] then holds the message of the
    [AttributeError]). *)
Definition step_column (known_columns : pdict (pdict string)) (sample_df : frame)
  (acc : PipelineContext * list log_entry) (col : string)
  : outcome (PipelineContext * list log_entry) :=
  let '(ctx, logs) := acc in
  match profile_role known_columns col with
  | Some r =>
      let role := DomainProfiles.to_pipeline_role r in
      Ok (set_role ctx col role, logs ++ [role_log (ctx_job_id ctx) col role true])
  | None =>
      match select sample_df col with
      | Raise msg => Raise msg
      | Ok c =>
          match infer_role (n_rows sample_df) c with
          | Raise e => Raise e
          | Ok (role, w) =>
              let ctx1 := match w with Some m => add_warning ctx m | None => ctx end in
              Ok (set_role ctx1 col role,
                  logs ++ [role_log (ctx_job_id ctx) col role false])
          end
      end
  end.

Fixpoint for_columns (known_columns : pdict (pdict string)) (sample_df : frame)
  (cols : list string) (acc : PipelineContext * list log_entry)
  : outcome (PipelineContext * list log_entry) :=
  match cols with
  | [] => Ok acc
  | col :: tl =>
      match step_column known_columns sample_df acc col with
      | Raise e => Raise e
      | Ok acc' => for_columns known_columns sample_df tl acc'
      end
  end.

(** The columns are read from the sample: the whole table on the eager
    engine, its first 10000 rows on the partitioned one. *)
Definition run (df : frame) (context : PipelineContext)
  : outcome (StepResult * PipelineContext) :=
  let known_columns := DomainProfiles.get_domain_profile (ctx_domain context) in
  let sample_df :=
    if frame_is_dask df then frame_head (Nat.min (100 * 100) (n_rows df)) df else df in
  match for_columns known_columns sample_df (column_names df) (context, []) with
  | Raise e => Raise e
  | Ok (context', logs) => Ok (mkResult df logs [] [], context')
  end.

End Externals.

(** *** Sample tables *)

Definition long_text_1 : string :=
  "The delivery arrived two days late and the box was visibly damaged on one side.".
Definition long_text_2 : string :=
  "Customer service answered quickly and replaced the broken part free of charge.".
Definition long_text_3 : string :=
  "Packaging was fine but the manual was missing and the setup took several hours.".

(** A free-text column: every value is distinct and longer than 50
    characters; the label has no id-like token. *)
Definition df_reviews : frame :=
  mkFrame false 3
    [mkColumn "comment" DObject
       [Some (VStr long_text_1); Some (VStr long_text_2); Some (VStr long_text_3)]].

(** The [date_joined] column of the repository's own test
    ([tests/test_pipeline.py]): a native datetime column of distinct
    days. *)
Definition df_date_joined : frame :=
  mkFrame false 4
    [mkColumn "date_joined" DDatetime
       [Some (VTime 0); Some (VTime 86400); Some (VTime 172800); Some (VTime 259200)]].

(** A small table that meets every rule of the chain. *)
Definition df_roles : frame :=
  mkFrame false 4
    [mkColumn "user_id" DInt
       [Some (VNum 1); Some (VNum 2); Some (VNum 3); Some (VNum 4)];
     mkColumn "country" DObject
       [Some (VStr "fr"); Some (VStr "fr"); Some (VStr "fr"); Some (VStr "fr")];
     mkColumn "plan" DObject
       [Some (VStr "free"); Some (VStr "pro"); Some (VStr "free"); None];
     mkColumn "seen_at" DDatetime
       [Some (VTime 0); Some (VTime 0); Some (VTime 60); Some (VTime 60)]].

(** Stand-ins for the external functions, for the sample tables: no string
    parses as a date. *)
Definition no_date_parses (vals : list value) : option (list cell) :=
  Some (map (fun _ => None) vals).
Definition repr_blank (v : value) : string := "".

End SchemaAnalyzer.

(** ** Type Fixer ([steps/type_fixer.py]) *)

Module TypeFixer.

Section Externals.

(** The numeric parser of [pd.to_numeric] on one string. *)
Variable parse_number : string -> option Q.

(** [str(v)] for a value that is not already a string. *)
Variable repr_other : value -> string.

(** [pd.to_datetime(series, errors='coerce')] on a whole column; the call
    may raise. *)
Variable to_datetime : list cell -> outcome (list cell).

Definition astype_str (v : value) : string :=
  match v with
  | VStr s => s
  | _ => repr_other v
  end.

(** [series.astype(str)] cell by cell: a missing cell prints as [nan]. *)
Definition cell_str (c : cell) : string :=
  match c with
  | Some v => astype_str v
  | None => "nan"
  end.

(** Step 1: on the eager engine only strings are stripped; on the
    partitioned engine every cell is first turned into a string. *)
Definition strip_value (v : value) : value :=
  match v with
  | VStr s => VStr (strip s)
  | _ => v
  end.

Definition strip_cells (is_dask : bool) (cells : list cell) : list cell :=
  if is_dask then map (fun c => Some (VStr (strip (cell_str c)))) cells
  else map (option_map strip_value) cells.

(** The sample the coercions are tested on. *)
Definition sample_of (is_dask : bool) (len_df : nat) (cells : list cell) : list cell :=
  if is_dask then firstn (Nat.min 1000 len_df) cells
  else map Some (firstn 1000 (dropna cells)).

(** [pd.to_numeric(..., errors='coerce')] *)
Definition to_numeric_value (v : value) : option Q :=
  match v with
  | VNum q => Some q
  | VBool b => Some (if b then 1 else 0)%Q
  | VStr s => parse_number s
  | VTime _ => None
  end.

Definition to_numeric_cell (c : cell) : cell :=
  match c with
  | Some v => option_map VNum (to_numeric_value v)
  | None => None
  end.

Definition valid_num_pct (sample : list cell) : option Q :=
  mean_of_bools (map (fun c => notna (to_numeric_cell c)) sample).

(** The number of sampled values that coerce to a number. *)
Definition valid_count (sample : list cell) : nat :=
  List.length (filter (fun c => notna (to_numeric_cell c)) sample).

(** [valid_num_pct > 0.95 and valid_num_pct < 1.0] *)
Definition numeric_test (sample : list cell) : bool :=
  nan_gt (valid_num_pct sample) (95 # 100) && nan_lt (valid_num_pct sample) 1.

Definition bool_map : pdict bool :=
  [("yes", true); ("no", false); ("true", true); ("false", false);
   ("1", true); ("0", false); ("1.0", true); ("0.0", false)].

Definition null_tokens : list string := ["nan"; "null"; "none"; ""].

(** [set(sample.astype(str).str.lower().unique()).issubset(...)] *)
Definition boolean_test (sample : list cell) : bool :=
  forallb (fun c => mem_str (lower (cell_str c)) (dict_keys bool_map ++ null_tokens))
          sample.

(** [series.astype(str).str.lower().map(bool_map)] *)
Definition to_boolean_cell (c : cell) : cell :=
  option_map VBool (dict_get bool_map (lower (cell_str c))).

(** The dtype that [map(bool_map)] leaves: on the eager engine [bool] when
    every cell is mapped, [object] as soon as a cell is not (it becomes
    NaN); on the partitioned engine the dtype is the one of the metadata,
    [object]. *)
Definition boolean_dtype (is_dask : bool) (mapped : list cell) : dtype :=
  if is_dask then DObject
  else if forallb notna mapped then DBool else DObject.

Inductive coercion : Type :=
| NoCoercion
| CoerceNumeric
| CoerceBoolean
| CoerceDatetime
| DatetimeFailed (e : string).

(** The body of the loop for one object-typed column: the column it
    leaves in the table and the coercion it applied. *)
Definition fix_column (is_dask : bool) (len_df : nat) (role : option string)
  (c : column) : column * coercion :=
  let stripped := strip_cells is_dask (col_cells c) in
  let sample := sample_of is_dask len_df stripped in
  match sample with
  | [] => (mkColumn (col_name c) DObject stripped, NoCoercion)
  | _ =>
      if numeric_test sample then
        (mkColumn (col_name c) DFloat (map to_numeric_cell stripped), CoerceNumeric)
      else if boolean_test sample then
        (mkColumn (col_name c) (boolean_dtype is_dask (map to_boolean_cell stripped))
                  (map to_boolean_cell stripped),
         CoerceBoolean)
      else
        match role with
        | Some r =>
            if String.eqb r "datetime_col" then
              match to_datetime stripped with
              | Ok parsed => (mkColumn (col_name c) DDatetime parsed, CoerceDatetime)
              | Raise e => (mkColumn (col_name c) DObject stripped, DatetimeFailed e)
              end
            else (mkColumn (col_name c) DObject stripped, NoCoercion)
        | None => (mkColumn (col_name c) DObject stripped, NoCoercion)
        end
  end.

Record loop_state : Type := mkLoop {
  st_df : frame;
  st_logs : list log_entry;
  st_warnings : list string;
  st_modified : list string
}.

Definition coercion_log (job : string) (action : string) (col : string) : log_entry :=
  mkLog job "TypeFixer" action (Some col) [] "info".

Definition datetime_warning (col e : string) : string :=
  ("Could not convert " ++ col ++ " to datetime despite role: " ++ e)%string.

(** What a coercion appends to [logs], [warnings] and [modified]: the
    numeric and the boolean coercion log an entry, the datetime coercion
    only reports the column as modified, its failure only warns. *)
Definition step_logs (job col : string) (done : coercion) : list log_entry :=
  match done with
  | CoerceNumeric => [coercion_log job "coerce_numeric" col]
  | CoerceBoolean => [coercion_log job "coerce_boolean" col]
  | _ => []
  end.

Definition step_warnings (col : string) (done : coercion) : list string :=
  match done with
  | DatetimeFailed e => [datetime_warning col e]
  | _ => []
  end.

Definition step_modified (col : string) (done : coercion) : list string :=
  match done with
  | CoerceNumeric | CoerceBoolean | CoerceDatetime => [col]
  | _ => []
  end.

(** One iteration of [for col in df.columns].  The column is read from
    the table as the earlier iterations left it, by its label: the
    iteration is that of the program on a table with pairwise distinct
    labels. *)
Definition loop_body (context : PipelineContext) (st : loop_state) (col : string)
  : loop_state :=
  let df := st_df st in
  match frame_get df col with
  | None => st
  | Some c =>
      if is_object_dtype (col_dtype c) then
        let '(c', done) :=
          fix_column (frame_is_dask df) (n_rows df)
                     (dict_get (ctx_schema context) col) c in
        mkLoop (frame_set df c')
               (st_logs st ++ step_logs (ctx_job_id context) col done)
               (st_warnings st ++ step_warnings col done)
               (st_modified st ++ step_modified col done)
      else st
  end.

Definition run (df : frame) (context : PipelineContext) : StepResult :=
  let st := fold_left (loop_body context) (column_names df) (mkLoop df [] [] []) in
  mkResult (st_df st) (st_logs st) (st_warnings st) (st_modified st).

(** What one iteration does to the column labelled [col] of [df], if it
    does anything. *)
Definition column_effect (context : PipelineContext) (df : frame) (col : string)
  : option (column * coercion) :=
  match frame_get df col with
  | Some c =>
      if is_object_dtype (col_dtype c)
      then Some (fix_column (frame_is_dask df) (n_rows df)
                            (dict_get (ctx_schema context) col) c)
      else None
  | None => None
  end.

End Externals.

(** The entries of a log that name the column [col]. *)
Definition logs_about (col : string) (logs : list log_entry) : list log_entry :=
  filter (fun l => match log_column_name l with
                   | Some n => String.eqb n col
                   | None => false
                   end) logs.

(** *** Sample data *)

(** A stand-in for the numeric parser: unsigned decimal integers. *)
Definition parse_digits (s : string) : option Q :=
  match s with
  | EmptyString => None
  | _ => option_map (fun d => Qnat (Nat.of_uint d)) (NilEmpty.uint_of_string s)
  end.

Definition never_raises (cells : list cell) : outcome (list cell) := Ok cells.
Definition repr_blank (v : value) : string := "".

(** Twenty values, nineteen of them numbers: exactly 95%. *)
Definition amount_cells : list cell :=
  repeat (Some (VStr "7")) 19 ++ [Some (VStr "n/a")].

Definition df_nineteen_of_twenty : frame :=
  mkFrame false 20 [mkColumn "amount" DObject amount_cells].

(** Forty values, thirty-nine of them numbers: 97.5%; every number is one
    of the boolean tokens as well. *)
Definition flag_cells : list cell :=
  repeat (Some (VStr "1")) 39 ++ [Some (VStr "yes")].

Definition df_mostly_numeric : frame :=
  mkFrame false 40 [mkColumn "flag" DObject flag_cells;
                    mkColumn "n" DInt (repeat (Some (VNum 1)) 40)].

(** Answers to a yes/no question, in mixed case; in the second table one
    answer is missing. *)
Definition df_answers : frame :=
  mkFrame false 4
    [mkColumn "ok" DObject
       [Some (VStr "yes"); Some (VStr "no"); Some (VStr "Yes"); Some (VStr "NO")]].

Definition df_answers_with_gap : frame :=
  mkFrame false 4
    [mkColumn "ok" DObject
       [Some (VStr "yes"); None; Some (VStr "Yes"); Some (VStr "NO")]].

End TypeFixer.

(** ** Missing Value Handler ([steps/missing_handler.py]) *)

Module MissingValueHandler.

(** *** Fill values *)

Definition cell_num (v : value) : option Q :=
  match v with
  | VNum q => Some q
  | VBool b => Some (if b then 1 else 0)%Q
  | _ => None
  end.

Fixpoint numeric_values (cells : list cell) : list Q :=
  match cells with
  | [] => []
  | Some v :: tl =>
      match cell_num v with
      | Some q => q :: numeric_values tl
      | None => numeric_values tl
      end
  | None :: tl => numeric_values tl
  end.

Fixpoint insert_sorted (x : Q) (l : list Q) : list Q :=
  match l with
  | [] => [x]
  | y :: tl => if Qle_bool x y then x :: l else y :: insert_sorted x tl
  end.

Definition sort_values (l : list Q) : list Q := fold_right insert_sorted [] l.

(** [series.median()]: the middle of the sorted present values, the mean
    of the two middle ones when they are even in number, NaN when there is
    none. *)
Definition median (cells : list cell) : cell :=
  let s := sort_values (numeric_values cells) in
  let n := List.length s in
  match s with
  | [] => None
  | _ =>
      if Nat.odd n then Some (VNum (nth (n / 2) s 0%Q))
      else Some (VNum ((nth (n / 2 - 1) s 0 + nth (n / 2) s 0) / 2)%Q)
  end.

Definition count_value (v : value) (l : list value) : nat :=
  List.length (filter (value_eqb v) l).

(** The most frequent present values, in order of first appearance. *)
Definition most_frequent (cells : list cell) : list value :=
  let present := dropna cells in
  let distinct := distinct_values [] present in
  let top := fold_right Nat.max 0 (map (fun v => count_value v present) distinct) in
  filter (fun v => Nat.eqb (count_value v present) top) distinct.

Definition value_rank (v : value) : nat :=
  match v with VBool _ => 0 | VNum _ => 1 | VTime _ => 2 | VStr _ => 3 end.

(** The order in which [mode] sorts its result (values of one type; across
    types the order is by type). *)
Definition value_leb (a b : value) : bool :=
  match a, b with
  | VNum x, VNum y => Qle_bool x y
  | VStr x, VStr y => String.leb x y
  | VBool x, VBool y => implb x y
  | VTime x, VTime y => Z.leb x y
  | _, _ => Nat.leb (value_rank a) (value_rank b)
  end.

Fixpoint smallest (l : list value) : option value :=
  match l with
  | [] => None
  | v :: tl =>
      match smallest tl with
      | Some w => if value_leb v w then Some v else Some w
      | None => Some v
      end
  end.

(** [modes.iloc[0] if not modes.empty else "Missing"] *)
Definition mode_fill (cells : list cell) : value :=
  match smallest (most_frequent cells) with
  | Some v => v
  | None => VStr "Missing"
  end.

(** [v_counts.index[0] if len(v_counts) > 0 else "Missing"] *)
Definition mode_fill_dask (cells : list cell) : value :=
  match most_frequent cells with
  | v :: _ => v
  | [] => VStr "Missing"
  end.

(** [series.fillna(fill_val)]; filling with NaN changes nothing. *)
Definition fillna (fill_val : cell) (cells : list cell) : list cell :=
  map (fun c => match c with Some _ => c | None => fill_val end) cells.

(** [series.ffill()] *)
Fixpoint ffill_from (last : cell) (cells : list cell) : list cell :=
  match cells with
  | [] => []
  | Some v :: tl => Some v :: ffill_from (Some v) tl
  | None :: tl => last :: ffill_from last tl
  end.

Definition ffill (cells : list cell) : list cell := ffill_from None cells.

(** The nulls that come before the first present value. *)
Fixpoint leading_nulls (cells : list cell) : nat :=
  match cells with
  | None :: tl => S (leading_nulls tl)
  | _ => 0
  end.

(** *** Messages *)

(** [count / total_rows], a [numpy.int64] by an [int]: numpy turns both
    into doubles and divides them. *)
Definition null_fraction (count total_rows : nat) : Q :=
  Binary64.div (Binary64.round (Qnat count)) (Binary64.round (Qnat total_rows)).

(** The double next above the double of 0.30, and the one next below the
    double of 0.05: no ratio of two counts of a table of fewer than 2^49
    rows lies between a threshold and its double. *)
Definition above_030 : Q := (5404319552844596 # 18014398509481984)%Q.
Definition below_005 : Q := (7205759403792793 # 144115188075855872)%Q.

(** [f"{x:.1%}"] of a double: the format multiplies by 100 in double
    arithmetic and prints the product with one decimal, correctly
    rounded. *)
Definition format_percent1 (x : Q) : string :=
  let t := Binary64.to_decimal (Binary64.mul x 100) 1 in
  (decimal (Z.to_nat (t / 10)) ++ "." ++ decimal (Z.to_nat (t mod 10)) ++ "%")%string.

Definition missing_warning (col : string) (null_pct : Q) : string :=
  ("Column '" ++ col ++ "' has >30% missing values (" ++ format_percent1 null_pct
   ++ "). User decision required.")%string.

Definition indicator_name (col : string) : string := (col ++ "_was_missing")%string.

Definition indicator_log (job col : string) : log_entry :=
  mkLog job "MissingHandler" "add_indicator" (Some col) [] "info".

Definition impute_log (job col method : string) (fill_val : cell) : log_entry :=
  mkLog job "MissingHandler" "impute" (Some col)
        [("method", JStr method); ("fill_val", JCell fill_val)] "info".

Section Externals.

(** Dask's approximate [quantile(0.5)] of a non-empty series. *)
Variable approx_median : list Q -> Q.

Definition median_dask (cells : list cell) : cell :=
  match numeric_values cells with
  | [] => None
  | vals => Some (VNum (approx_median vals))
  end.

(** The method chosen for a column, and its fill value. *)
Definition impute_method (role : string) (dtype : dtype) : string :=
  if is_numeric_dtype dtype && negb (String.eqb role "id_col") then "median"
  else if String.eqb role "datetime_col" || is_datetime64_any_dtype dtype then "ffill"
  else "mode".

Definition fill_value (is_dask : bool) (method : string) (cells : list cell) : cell :=
  if String.eqb method "median" then
    (if is_dask then median_dask cells else median cells)
  else if String.eqb method "ffill" then None
  else Some (if is_dask then mode_fill_dask cells else mode_fill cells).

Definition impute (method : string) (fill_val : cell) (cells : list cell) : list cell :=
  if String.eqb method "ffill" then ffill cells else fillna fill_val cells.

(** [df[col].isnull().astype(int)] on the eager engine, [df[col].isnull()]
    on the partitioned one. *)
Definition indicator_column (is_dask : bool) (c : column) : column :=
  if is_dask
  then mkColumn (indicator_name (col_name c)) DBool
                (map (fun x => Some (VBool (is_null x))) (col_cells c))
  else mkColumn (indicator_name (col_name c)) DInt
                (map (fun x => Some (VNum (if is_null x then 1 else 0)%Q)) (col_cells c)).

Record loop_state : Type := mkLoop {
  st_df : frame;
  st_warnings : list string;
  st_logs : list log_entry;
  st_modified : list string
}.

(** One iteration of [for col, count in null_counts.items()].  The column
    is read from the table as the earlier iterations left it; the schema
    is the one of the context, which this step does not change.  The
    column is read by its label, as the program reads it on a table with
    pairwise distinct labels ([well_formed] below).  The two
    thresholds are tested on the exact ratio of the counts; the message
    prints the double that the program holds.  The filled column is
    recorded with the dtype it had: a change of dtype that [fillna] may
    bring to an object column is not followed. *)
Definition loop_body (context : PipelineContext) (total_rows : nat)
  (st : loop_state) (item : string * nat) : loop_state :=
  let '(col, count) := item in
  if Nat.eqb count 0 then st
  else
    let null_pct := (Qnat count / Qnat total_rows)%Q in
    if Qltb (30 # 100) null_pct then
      mkLoop (st_df st)
             (st_warnings st ++ [missing_warning col (null_fraction count total_rows)])
             (st_logs st) (st_modified st)
    else
      let df := st_df st in
      match frame_get df col with
      | None => st
      | Some c =>
          let dtype_role := dict_get_default (ctx_schema context) col "feature_col" in
          let method := impute_method dtype_role (col_dtype c) in
          let fill_val := fill_value (frame_is_dask df) method (col_cells c) in
          let job := ctx_job_id context in
          let with_indicator := Qle_bool (5 # 100) null_pct in
          let df1 :=
            if with_indicator then frame_set df (indicator_column (frame_is_dask df) c)
            else df in
          let df2 :=
            frame_set df1 (mkColumn col (col_dtype c)
                                    (impute method fill_val (col_cells c))) in
          mkLoop df2 (st_warnings st)
                 ((if with_indicator then st_logs st ++ [indicator_log job col]
                   else st_logs st) ++ [impute_log job col method fill_val])
                 ((if with_indicator then st_modified st ++ [indicator_name col]
                   else st_modified st) ++ [col])
      end.

(** [df.isnull().sum()], computed once before the loop. *)
Definition null_counts (df : frame) : list (string * nat) :=
  map (fun c => (col_name c, null_count (col_cells c))) (columns df).

Definition run (df : frame) (context : PipelineContext)
  : StepResult * PipelineContext :=
  let total_rows := n_rows df in
  if Nat.eqb total_rows 0 then (mkResult df [] [] [], context)
  else
    let st := fold_left (loop_body context total_rows) (null_counts df)
                        (mkLoop df (ctx_warnings context) [] []) in
    (mkResult (st_df st) (st_logs st) [] (st_modified st),
     mkContext (ctx_dataset_id context) (ctx_domain context) (ctx_job_id context)
               (ctx_schema context) (ctx_is_dask context) (st_warnings st)).

End Externals.

(** *** Well-formed tables *)

Definition numeric_cell (c : cell) : Prop :=
  match c with
  | Some v => cell_num v <> None
  | None => True
  end.

(** Every column has one cell per row, a numeric column holds numbers,
    the labels are pairwise distinct, and no label is the indicator name
    of a column of the table. *)
Definition well_formed (df : frame) : Prop :=
  NoDup (column_names df) /\
  (forall c, In c (columns df) -> List.length (col_cells c) = n_rows df) /\
  (forall c, In c (columns df) -> is_numeric_dtype (col_dtype c) = true ->
             Forall numeric_cell (col_cells c)) /\
  (forall a b, In a (column_names df) -> In b (column_names df) ->
               b <> indicator_name a).

(** *** Sample tables *)

Definition exact_median (vals : list Q) : Q :=
  match median (map (fun q => Some (VNum q)) vals) with
  | Some (VNum m) => m
  | _ => 0%Q
  end.

(** Half of the values are missing. *)
Definition df_half_missing : frame :=
  mkFrame false 2 [mkColumn "x" DFloat [None; Some (VNum 1)]].

(** 49 of the 80 values are missing: 61.25%. *)
Definition df_mostly_missing : frame :=
  mkFrame false 80
    [mkColumn "x" DObject (repeat None 49 ++ repeat (Some (VStr "a")) 31)].

(** A datetime column that starts with a missing value: 1 of 10. *)
Definition df_leading_gap : frame :=
  mkFrame false 10
    [mkColumn "seen_at" DDatetime
       (None :: map (fun t => Some (VTime t)) [1; 2; 3; 4; 5; 6; 7; 8; 9]%Z)].

(** One gap in ten values of a numeric column, one gap in two of a text
    column. *)
Definition df_gaps : frame :=
  mkFrame false 10
    [mkColumn "age" DFloat
       (map (fun q => Some (VNum q)) [25; 30; 22; 41; 35]%Q ++ [None] ++
        map (fun q => Some (VNum q)) [28; 30; 52; 47]%Q);
     mkColumn "city" DObject
       [Some (VStr "Lyon"); None; None; Some (VStr "Paris"); None;
        None; Some (VStr "Lyon"); None; Some (VStr "Nice"); None]].

End MissingValueHandler.

(** ** Duplicate Detector ([steps/duplicate_detector.py]) *)

Module DuplicateDetector.

(** The rows of a table, read across its columns. *)
Definition row_at (df : frame) (i : nat) : list cell :=
  map (fun c => nth i (col_cells c) None) (columns df).

Definition rows (df : frame) : list (list cell) :=
  map (row_at df) (seq 0 (n_rows df)).

Fixpoint row_eqb (a b : list cell) : bool :=
  match a, b with
  | [], [] => true
  | x :: a', y :: b' => cell_eqb x y && row_eqb a' b'
  | _, _ => false
  end.

(** [df.duplicated()]: a row is marked when it equals a row before it. *)
Fixpoint duplicated_from (seen rs : list (list cell)) : list bool :=
  match rs with
  | [] => []
  | r :: tl => existsb (row_eqb r) seen :: duplicated_from (r :: seen) tl
  end.

Definition duplicated (df : frame) : list bool := duplicated_from [] (rows df).

(** [df.duplicated().sum()] *)
Definition dup_count (df : frame) : nat :=
  List.length (filter (fun b => b) (duplicated df)).

(** Left-pads a number with zeros to [width] digits. *)
Definition zero_padded (width n : nat) : string :=
  let s := decimal n in
  (string_of_list_ascii (repeat "0"%char (width - String.length s)) ++ s)%string.

(** [dup_count / len(df)], a [numpy.int64] by an [int]: numpy turns both
    into doubles and divides them. *)
Definition duplicate_fraction (count total_rows : nat) : Q :=
  Binary64.div (Binary64.round (Qnat count)) (Binary64.round (Qnat total_rows)).

(** [f"{x:.2%}"] of a double: the format multiplies by 100 in double
    arithmetic and prints the product with two decimals, correctly
    rounded. *)
Definition format_percent2 (x : Q) : string :=
  let t := Binary64.to_decimal (Binary64.mul x 100) 2 in
  (decimal (Z.to_nat (t / 100)) ++ "." ++ zero_padded 2 (Z.to_nat (t mod 100)) ++ "%")%string.

Definition duplicate_warning (count : nat) (dup_pct : Q) : string :=
  ("Found " ++ decimal count ++ " exact duplicate rows (" ++ format_percent2 dup_pct
   ++ ").")%string.

Definition duplicate_log (job : string) (count : nat) : log_entry :=
  mkLog job "DuplicateDetector" "flag_duplicates" None
        [("dup_count", JInt (Z.of_nat count))] "warning".

Section Externals.

(** Whether [df.duplicated()] raises on the table.  It hashes the cells of
    every row; a cell that holds a list or a dict, which the cell model
    has no value for, cannot be hashed and makes it raise [TypeError]. *)
Variable unhashable : frame -> bool.

(** [df.duplicated().sum()] inside the [try]. *)
Definition count_duplicates (df : frame) : outcome nat :=
  if unhashable df then Raise "TypeError" else Ok (dup_count df).

(** The whole body is inside [try: ... except Exception: pass]: when the
    count raises, nothing has been recorded yet and nothing is.  On the
    partitioned engine the branch is [pass]: nothing is counted and
    nothing is recorded. *)
Definition run (df : frame) (context : PipelineContext) : StepResult :=
  if frame_is_dask df then mkResult df [] [] []
  else
    match count_duplicates df with
    | Raise _ => mkResult df [] [] []
    | Ok count =>
        if Nat.ltb 0 count then
          let dup_pct := duplicate_fraction count (n_rows df) in
          mkResult df [duplicate_log (ctx_job_id context) count]
                   [duplicate_warning count dup_pct] []
        else mkResult df [] [] []
    end.

End Externals.

(** Some row of the table equals a row before it. *)
Definition has_duplicate_rows (df : frame) : Prop :=
  exists i j a b,
    i < j /\ nth_error (rows df) i = Some a /\ nth_error (rows df) j = Some b /\
    row_eqb b a = true.

(** *** Sample tables *)

(** The tables of the cell model hold numbers, strings, booleans and
    timestamps, which can all be hashed. *)
Definition cells_hashable (df : frame) : bool := false.

Definition two_columns (is_dask : bool) : frame :=
  mkFrame is_dask 3
    [mkColumn "a" DInt [Some (VNum 1); Some (VNum 2); Some (VNum 1)];
     mkColumn "b" DObject [Some (VStr "x"); None; Some (VStr "x")]].

(** The same table on the two engines: its third row repeats the first. *)
Definition df_repeated_row : frame := two_columns false.
Definition df_repeated_row_dask : frame := two_columns true.

End DuplicateDetector.

(** ** Numeric series *)

Definition any_above (t : Q) (xs : list Q) : bool := existsb (fun x => Qltb t x) xs.
Definition any_below (t : Q) (xs : list Q) : bool := existsb (fun x => Qltb x t) xs.

Definition Qsum (xs : list Q) : Q := fold_right Qplus 0%Q xs.

Definition mean (xs : list Q) : Q := (Qsum xs / Qnat (List.length xs))%Q.

(** [series.quantile(q)], pandas' default linear interpolation between the
    two order statistics around position [(n - 1) * q]. *)
Definition quantile (q : Q) (xs : list Q) : Q :=
  let s := MissingValueHandler.sort_values xs in
  let h := (Qnat (List.length s - 1) * q)%Q in
  let lo := Z.to_nat (Qfloor h) in
  let below := nth lo s 0%Q in
  let above := nth (S lo) s below in
  (below + (h - inject_Z (Qfloor h)) * (above - below))%Q.

(** The values outside [q1 - 3 * iqr, q3 + 3 * iqr]. *)
Definition iqr_outliers (xs : list Q) : list Q :=
  let q1 := quantile (1 # 4) xs in
  let q3 := quantile (3 # 4) xs in
  let iqr := (q3 - q1)%Q in
  filter (fun x => Qltb x (q1 - 3 * iqr)%Q || Qltb (q3 + 3 * iqr)%Q x) xs.

(** ** Outlier Detector ([steps/outlier_detector.py])

    [Raise msg] carries [str(exc)] in this module, since the message is
    what the step records. *)

Module OutlierDetector.

(** [context.schema.get(col) in ["id_col", "datetime_col"]] *)
Definition skipped_role (context : PipelineContext) (col : string) : bool :=
  match dict_get (ctx_schema context) col with
  | Some role => mem_str role ["id_col"; "datetime_col"]
  | None => false
  end.

(** *** Domain rules *)

Definition names_any (keys : list string) (col : string) : bool :=
  existsb (fun k => contains k (lower col)) keys.

Definition domain_warnings (domain col : string) (series : list Q) : list string :=
  if String.eqb domain "healthcare" then
    (if contains "age" (lower col) && any_above 120 series
     then [("Healthcare anomaly: " ++ col ++ " contains Age > 120.")%string] else []) ++
    (if any_below 0 series && names_any ["pressure"; "weight"; "height"] col
     then [("Healthcare anomaly: " ++ col ++ " contains impossible negative values.")%string]
     else [])
  else if String.eqb domain "finance" then
    if any_below 0 series && names_any ["price"; "volume"; "amount"] col
    then [("Finance warning: " ++ col ++ " contains negative prices/amounts.")%string]
    else []
  else if String.eqb domain "education" then
    if contains "grade" (lower col) || contains "score" (lower col) then
      if any_above 100 series || any_below 0 series
      then [("Education warning: " ++ col
             ++ " scores fall outside standard 0-100 range.")%string]
      else []
    else []
  else [].

(** *** Outlier rules *)

(** [series[abs(stats.zscore(series)) > 3.5]], with the population
    standard deviation; [|x - m| / sd > 3.5] is written
    [(x - m)^2 > 3.5^2 * var], which also covers the constant series,
    whose z-scores are NaN and select nothing. *)
Definition zscore_outliers (xs : list Q) : list Q :=
  let m := mean xs in
  let var := mean (map (fun x => ((x - m) * (x - m))%Q) xs) in
  filter (fun x => Qltb ((35 # 10) * (35 # 10) * var)%Q ((x - m) * (x - m))%Q) xs.

(** [outlier_pct] is the quotient of two [int]s; it is rounded by
    [round] as the double it is, and compared with 0.05 as the exact
    ratio. *)
Definition flag_log (job col : string) (count n : nat) (method : string) : log_entry :=
  let outlier_pct := (Qnat count / Qnat n)%Q in
  mkLog job "OutlierDetector" "flag_outliers" (Some col)
        [("count", JInt (Z.of_nat count)); ("pct", JNum (py_round outlier_pct 4));
         ("method", JStr method)]
        (if Qltb (5 # 100) outlier_pct then "warning" else "info").

Definition skip_warning (col msg : string) : string :=
  ("OutlierDetector skipped column '" ++ col ++ "' due to error: " ++ msg)%string.

Definition skip_log (job col msg : string) : log_entry :=
  mkLog job "OutlierDetector" "skip_column" (Some col) [("reason", JStr msg)] "warning".

Section Externals.

(** The normality tests of scipy give a p-value (possibly NaN) or raise;
    the sampling of a partitioned table is whatever the engine draws. *)
Variable shapiro : list Q -> outcome (option Q).
Variable normaltest : list Q -> outcome (option Q).
Variable sample : Q -> frame -> frame.

Definition p_value (series : list Q) : option Q :=
  match (if Nat.ltb (List.length series) (50 * 100)
         then shapiro series else normaltest series) with
  | Ok p => p
  | Raise _ => Some 0%Q
  end.

Definition outlier_logs (job col : string) (series : list Q) : list log_entry :=
  let n := List.length series in
  let normal := nan_gt (p_value series) (5 # 100) in
  let method_used := if normal then "Z-Score" else "IQR" in
  let outliers := if normal then zscore_outliers series else iqr_outliers series in
  let outlier_count := List.length outliers in
  if Nat.ltb 0 outlier_count then [flag_log job col outlier_count n method_used] else [].

(** The body of the [try] for one label: the warnings and log entries it
    appends, or the exception that leaves it. *)
Definition inspect_column (sample_df : frame) (context : PipelineContext) (col : string)
  : outcome (list string * list log_entry) :=
  match select sample_df col with
  | Raise msg => Raise msg
  | Ok c =>
      if negb (is_numeric_dtype (col_dtype c)) || is_bool_dtype (col_dtype c)
      then Ok ([], [])
      else if skipped_role context col then Ok ([], [])
      else
        let series := MissingValueHandler.numeric_values (col_cells c) in
        if Nat.ltb (List.length series) 10 then Ok ([], [])
        else Ok (domain_warnings (ctx_domain context) col series,
                 outlier_logs (ctx_job_id context) col series)
  end.

(** What one iteration appends to the warnings and to the logs. *)
Definition column_warnings (sample_df : frame) (context : PipelineContext) (col : string)
  : list string :=
  match inspect_column sample_df context col with
  | Ok (ws, _) => ws
  | Raise msg => [skip_warning col msg]
  end.

Definition column_logs (sample_df : frame) (context : PipelineContext) (col : string)
  : list log_entry :=
  match inspect_column sample_df context col with
  | Ok (_, ls) => ls
  | Raise msg => [skip_log (ctx_job_id context) col msg]
  end.

Definition loop_body (sample_df : frame) (context : PipelineContext)
  (st : list log_entry * list string) (col : string) : list log_entry * list string :=
  (fst st ++ column_logs sample_df context col,
   snd st ++ column_warnings sample_df context col).

Definition sample_frame (df : frame) : frame :=
  if frame_is_dask df then
    if Nat.ltb 0 (n_rows df)
    then sample (Qmin 1 (50000 / Qnat (n_rows df))) df
    else mkFrame false 0 []
  else df.

Definition run (df : frame) (context : PipelineContext) : StepResult :=
  let sample_df := sample_frame df in
  let st := fold_left (loop_body sample_df context) (column_names sample_df) ([], []) in
  mkResult df (fst st) (snd st) [].

End Externals.

(** *** Sample tables *)

Definition never_normal (xs : list Q) : outcome (option Q) := Ok (Some 0%Q).
Definition test_fails (xs : list Q) : outcome (option Q) := Raise "not enough data".
Definition whole_table (frac : Q) (df : frame) : frame := df.

Definition reading_cells : list cell :=
  map (fun q => Some (VNum q)) [1; 2; 3; 4; 5; 6; 7; 8; 9; 10; 1000]%Q.

(** Two columns share the label [x]; [amount] has one extreme value. *)
Definition df_shared_label : frame :=
  mkFrame false 11
    [mkColumn "x" DFloat reading_cells;
     mkColumn "amount" DFloat reading_cells;
     mkColumn "x" DFloat reading_cells].

End OutlierDetector.

(** ** Summarizer ([eda/summarizer.py])

    The part of [generate_json_summary] that the quality score depends
    on: the loop over the columns with its penalty, and the final score.
    The descriptive statistics, the value counts and the correlation
    matrix do not feed the score and are left out. *)

Module Summarizer.

Record col_summary : Type := mkColSummary {
  cs_name : string;
  cs_dtype : string;
  cs_role : string;
  cs_null_pct : Q;
  cs_unique_count : nat;
  cs_outlier_count : nat;
  cs_outlier_pct : Q
}.

Record summary : Type := mkSummary {
  sum_rows : nat;
  sum_cols : nat;
  sum_domain : string;
  sum_columns : list col_summary;
  sum_datetime_columns : list string;
  sum_text_columns : list string;
  sum_time_series_detected : bool;
  sum_quality_score : Q
}.

(** The rows of a table at the given positions, as an eager table. *)
Definition take_rows (idx : list nat) (df : frame) : frame :=
  mkFrame false (List.length idx)
    (map (fun c => mkColumn (col_name c) (col_dtype c)
                     (map (fun i => nth i (col_cells c) None) idx))
         (columns df)).

(** [null_counts[col]] *)
Definition null_count_of (df : frame) (col : string) : nat :=
  match frame_get df col with
  | Some c => null_count (col_cells c)
  | None => 0
  end.

(** [float(null_count / total_rows) if total_rows > 0 else 0]: the
    quotient of two [int]s is the double nearest to the exact ratio. *)
Definition null_pct (total_rows count : nat) : Q :=
  if Nat.ltb 0 total_rows then Binary64.div (Qnat count) (Qnat total_rows) else 0%Q.

(** The outlier count and fraction of the IQR rule, in the one branch
    that computes them: a numeric, non-boolean column with more than 10
    present values.  The other branches set both to zero and add no
    penalty. *)
Definition iqr_branch (c : column) : option (nat * Q) :=
  let dt := col_dtype c in
  if is_bool_dtype dt then None
  else if is_object_dtype dt || is_categorical_dtype dt then None
  else if is_numeric_dtype dt && negb (is_bool_dtype dt) then
    let series := MissingValueHandler.numeric_values (col_cells c) in
    if Nat.ltb 10 (List.length series) then
      let outlier_count := List.length (iqr_outliers series) in
      Some (outlier_count, Binary64.div (Qnat outlier_count) (Qnat (List.length series)))
    else None
  else None.

Definition outlier_count (c : column) : nat :=
  match iqr_branch c with Some (n, _) => n | None => 0 end.

Definition outlier_pct (c : column) : Q :=
  match iqr_branch c with Some (_, p) => p | None => 0%Q end.

Record loop_state : Type := mkLoop {
  st_penalty : Q;
  st_columns : list col_summary;
  st_datetime_columns : list string;
  st_text_columns : list string
}.

Definition loop_body (df sample_df : frame) (total_rows : nat) (schema : pdict string)
  (st : loop_state) (col : string) : outcome loop_state :=
  match select sample_df col with
  | Raise msg => Raise msg
  | Ok c =>
      let role := dict_get_default schema col "feature_col" in
      let null_pct := null_pct total_rows (null_count_of df col) in
      let uniq_count := nunique (col_cells c) in
      let penalty :=
        match iqr_branch c with
        | Some (_, pct) => Binary64.add (st_penalty st) (Qmin 10 (Binary64.mul pct 100))
        | None => st_penalty st
        end in
      Ok (mkLoop (Binary64.add penalty (Binary64.mul null_pct 50))
                 (st_columns st ++
                  [mkColSummary col (dtype_name (col_dtype c)) role (py_round null_pct 4)
                     uniq_count (outlier_count c) (py_round (outlier_pct c) 4)])
                 (if String.eqb role "datetime_col"
                  then st_datetime_columns st ++ [col] else st_datetime_columns st)
                 (if String.eqb role "datetime_col" then st_text_columns st
                  else if String.eqb role "text_col"
                       then st_text_columns st ++ [col] else st_text_columns st))
  end.

(** [for col in df.columns]: an exception leaves the loop. *)
Fixpoint loop (df sample_df : frame) (total_rows : nat) (schema : pdict string)
  (cols : list string) (st : loop_state) : outcome loop_state :=
  match cols with
  | [] => Ok st
  | col :: tl =>
      match loop_body df sample_df total_rows schema st col with
      | Ok st' => loop df sample_df total_rows schema tl st'
      | Raise msg => Raise msg
      end
  end.

Section Externals.

(** [df.sample(frac=0.1, random_state=42)]: the rows the engine draws. *)
Variable sample_rows : frame -> list nat.

Definition sample_frame (df : frame) : frame :=
  if frame_is_dask df then take_rows (sample_rows df) df else df.

Definition generate_json_summary (df : frame) (domain : string) (schema : pdict string)
  : outcome summary :=
  let sample_df := sample_frame df in
  let total_rows := n_rows df in
  match loop df sample_df total_rows schema (column_names df) (mkLoop 0 [] [] []) with
  | Raise msg => Raise msg
  | Ok st =>
      let score := Qmax 0 (Binary64.sub 100 (st_penalty st)) in
      Ok (mkSummary total_rows (List.length (columns df)) domain (st_columns st)
            (st_datetime_columns st) (st_text_columns st)
            (match st_datetime_columns st with [] => false | _ => true end)
            (py_round score 1))
  end.

(** *** The score as the specification words it

    100, minus [min(10, outlier_pct * 100)] summed over the numeric
    columns, minus [null_pct * 50] summed over all columns, floored at
    0: the value of the formula on the exact fractions. *)

Definition is_numeric_column (c : column) : bool :=
  is_numeric_dtype (col_dtype c) && negb (is_bool_dtype (col_dtype c)).

(** The exact fractions of a column. *)
Definition exact_null_pct (df : frame) (c : column) : Q :=
  if Nat.ltb 0 (n_rows df) then (Qnat (null_count (col_cells c)) / Qnat (n_rows df))%Q
  else 0%Q.

Definition exact_outlier_pct (c : column) : Q :=
  match iqr_branch c with
  | Some (n, _) =>
      (Qnat n / Qnat (List.length (MissingValueHandler.numeric_values (col_cells c))))%Q
  | None => 0%Q
  end.

Definition spec_outlier_penalty (df : frame) : Q :=
  Qsum (map (fun c => Qmin 10 (exact_outlier_pct c * 100))
            (filter is_numeric_column (columns (sample_frame df)))).

Definition spec_null_penalty (df : frame) : Q :=
  Qsum (map (fun c => (exact_null_pct df c * 50)%Q) (columns df)).

Definition spec_quality_score (df : frame) : Q :=
  Qmax 0 (100 - spec_outlier_penalty df - spec_null_penalty df).

(** *** The score in double arithmetic *)

(** The two quantities of a column that the score depends on, by label,
    as the doubles that the program holds. *)
Definition null_pct_of (df : frame) (col : string) : Q :=
  null_pct (n_rows df) (null_count_of df col).

Definition outlier_pct_of (df : frame) (col : string) : Q :=
  match frame_get (sample_frame df) col with
  | Some c => outlier_pct c
  | None => 0%Q
  end.

(** The penalties in the order of the columns: for each label
    [min(10, outlier_pct * 100)], then [null_pct * 50]. *)
Definition penalty_terms (df : frame) : list Q :=
  flat_map (fun col => [Qmin 10 (Binary64.mul (outlier_pct_of df col) 100);
                        Binary64.mul (null_pct_of df col) 50])
           (column_names df).

(** The formula in double arithmetic: the penalties are added up one
    after the other, their sum is taken from 100.0, and the result is
    floored at 0. *)
Definition float_quality_score (df : frame) : Q :=
  Qmax 0 (Binary64.sub 100 (Binary64.sum (penalty_terms df))).

End Externals.

(** *** Sample tables *)

Definition every_row (df : frame) : list nat := seq 0 (n_rows df).



(** A column of [rows] values, the first [nulls] of them missing. *)
Definition df_with_nulls (nulls rows : nat) : frame :=
  mkFrame false rows
    [mkColumn "x" DObject (repeat None nulls ++ repeat (Some (VStr "a")) (rows - nulls))].

End Summarizer.

(** ** Loader ([pipeline/loader.py]) *)

Module Loader.

(** *** Exceptions

    An exception has a class and a message ([str(e)]). *)

Record exn : Type := mkExn {
  exn_class : string;
  exn_message : string
}.

Inductive result (A : Type) : Type :=
| Returns (a : A)
| Raises (e : exn).
Arguments Returns {A} a.
Arguments Raises {A} e.

Definition DatasetLoadError (msg : string) : exn := mkExn "DatasetLoadError" msg.
Definition ValidationError (msg : string) : exn := mkExn "ValidationError" msg.

(** [except Exception] lets through the classes that derive from
    [BaseException] only. *)
Definition is_Exception (e : exn) : bool :=
  negb (mem_str (exn_class e)
          ["BaseException"; "KeyboardInterrupt"; "SystemExit"; "GeneratorExit"]).

(** [except ValueError] also catches the subclasses of [ValueError]. *)
Definition is_ValueError (e : exn) : bool :=
  mem_str (exn_class e)
    ["ValueError"; "UnicodeError"; "UnicodeDecodeError"; "UnicodeEncodeError";
     "UnicodeTranslateError"; "JSONDecodeError"; "ParserError"; "EmptyDataError"].

Definition is_UnicodeDecodeError (e : exn) : bool :=
  String.eqb (exn_class e) "UnicodeDecodeError".

Definition is_MemoryError (e : exn) : bool := String.eqb (exn_class e) "MemoryError".

(** *** The file system and the readers *)

Record csv_kwargs : Type := mkCsv {
  csv_sep : string;
  csv_dtype : option (pdict string);
  csv_encoding : option string;
  csv_nrows : option nat;
  csv_low_memory : option bool
}.

Record environment : Type := mkEnvironment {
  getsize : string -> result nat;
  mkdtemp : result string;
  (** [ZipFile(path).extractall(dir)] followed by [namelist()] *)
  unzip : string -> string -> result (list string);
  path_join : string -> string -> string;
  pd_read_csv : string -> csv_kwargs -> result frame;
  pd_read_excel : string -> result frame;
  pd_read_parquet : string -> result frame;
  pd_read_json : string -> bool -> result frame;
  dd_read_csv : string -> csv_kwargs -> result frame;
  dd_read_parquet : string -> result frame;
  (** [len(df)] on a partitioned table computes, and may fail *)
  dask_len : frame -> result nat;
  memory_usage : frame -> Q
}.

Record DataFrameResult : Type := mkDataFrameResult {
  dfr_df : frame;
  dfr_row_count : nat;
  dfr_col_count : nat;
  dfr_memory_usage_mb : Q;
  dfr_detected_dtypes : pdict string;
  dfr_is_dask : bool;
  dfr_warnings : list string
}.

(** *** [sniff_dtypes] *)

Definition min_of (xs : list Q) : option Q :=
  match xs with
  | [] => None
  | x :: tl => Some (fold_right Qmin x tl)
  end.

Definition max_of (xs : list Q) : option Q :=
  match xs with
  | [] => None
  | x :: tl => Some (fold_right Qmax x tl)
  end.

(** [d_min >= lo and d_max <= hi]; false on NaN. *)
Definition within (lo hi : Q) (d_min d_max : option Q) : bool :=
  match d_min, d_max with
  | Some a, Some b => Qle_bool lo a && Qle_bool b hi
  | _, _ => false
  end.

Definition sniff_column (sample : frame) (c : column) (optimized : pdict string)
  : pdict string :=
  let dt := col_dtype c in
  if is_numeric_dtype dt then
    let series := MissingValueHandler.numeric_values (col_cells c) in
    let d_min := min_of series in
    let d_max := max_of series in
    if is_integer_dtype dt then
      if within (-32768) 32767 d_min d_max then dict_set optimized (col_name c) "Int16"
      else if within (-2147483648) 2147483647 d_min d_max
           then dict_set optimized (col_name c) "Int32"
           else dict_set optimized (col_name c) "Int64"
    else optimized
  else if is_object_dtype dt then
    let n := nunique (col_cells c) in
    if Nat.ltb n 50 && Qltb (Qnat n) (Qnat (n_rows sample) / 2)
    then dict_set optimized (col_name c) "category"
    else optimized
  else optimized.

Fixpoint sniff_columns (sample : frame) (cols : list string) (optimized : pdict string)
  : result (pdict string) :=
  match cols with
  | [] => Returns optimized
  | col :: tl =>
      match select sample col with
      | Raise msg => Raises (mkExn "AttributeError" msg)
      | Ok c => sniff_columns sample tl (sniff_column sample c optimized)
      end
  end.

(** [file_type.get('format')] and friends *)
Definition format_of (file_type : pdict string) : option string :=
  dict_get file_type "format".

Definition delimiter_of (file_type : pdict string) : string :=
  dict_get_default file_type "delimiter" ",".

Definition encoding_of (file_type : pdict string) : string :=
  dict_get_default file_type "encoding" "utf-8".

Definition format_is (file_type : pdict string) (f : string) : bool :=
  match format_of file_type with
  | Some g => String.eqb g f
  | None => false
  end.

Definition sniff_dtypes (env : environment) (file_path : string) (file_type : pdict string)
  : result (pdict string) :=
  if negb (format_is file_type "csv" || format_is file_type "tsv") then Returns []
  else
    match pd_read_csv env file_path
            (mkCsv (delimiter_of file_type) None (Some (encoding_of file_type))
                   (Some (100 * 100)) None) with
    | Raises e => Raises e
    | Returns sample => sniff_columns sample (column_names sample) []
    end.

(** *** [load], stage by stage *)

(** 1. ZIP handling, outside of any [try]. *)
Definition open_zip (env : environment) (file_path : string) (file_type : pdict string)
  : result (string * pdict string) :=
  if format_is file_type "zip" then
    match mkdtemp env with
    | Raises e => Raises e
    | Returns temp_dir =>
        match unzip env file_path temp_dir with
        | Raises e => Raises e
        | Returns [] => Raises (ValidationError "ZIP file is empty")
        | Returns (first :: _) =>
            Returns (path_join env temp_dir first,
                     dict_set (dict_set file_type "format" "csv") "delimiter" ",")
        end
    end
  else Returns (file_path, file_type).

(** 3. The body of the [try]: the table read, or [None] when no branch
    matches the format. *)
Definition read_table (env : environment) (file_size_mb : Q) (file_path : string)
  (file_type : pdict string) (dtype_map : option (pdict string)) : result (option frame) :=
  let kwargs low_memory :=
    mkCsv (delimiter_of file_type) dtype_map (Some (encoding_of file_type)) None
          low_memory in
  let some (r : result frame) : result (option frame) :=
    match r with Returns t => Returns (Some t) | Raises e => Raises e end in
  match format_of file_type with
  | None => Raises (mkExn "KeyError" "'format'")
  | Some f =>
      if Qltb 2000 file_size_mb then
        if String.eqb f "csv" then some (dd_read_csv env file_path (kwargs None))
        else if String.eqb f "parquet" then some (dd_read_parquet env file_path)
        else Returns None
      else
        let extra := if Qltb 500 file_size_mb then Some false else None in
        if String.eqb f "csv" then some (pd_read_csv env file_path (kwargs extra))
        else if String.eqb f "excel" then some (pd_read_excel env file_path)
        else if String.eqb f "parquet" then some (pd_read_parquet env file_path)
        else if String.eqb f "json" then
          match pd_read_json env file_path true with
          | Returns t => Returns (Some t)
          | Raises e =>
              if is_ValueError e then some (pd_read_json env file_path false)
              else Raises e
          end
        else Returns None
  end.

(** The [try] with its three handlers: the table, the engine flag and
    the warnings, or the exception that leaves the statement.  The reads
    of the first two handlers are not guarded. *)
Definition guarded_read (env : environment) (warnings : list string) (file_size_mb : Q)
  (file_path : string) (file_type : pdict string) (dtype_map : option (pdict string))
  : result (option frame * bool) * list string :=
  let is_dask := Qltb 2000 file_size_mb in
  match read_table env file_size_mb file_path file_type dtype_map with
  | Returns t => (Returns (t, is_dask), warnings)
  | Raises e =>
      if is_UnicodeDecodeError e then
        let warnings' :=
          warnings ++ [("Encoding '" ++ encoding_of file_type
                        ++ "' failed. Retrying with 'latin-1'")%string] in
        match pd_read_csv env file_path
                (mkCsv (delimiter_of file_type) None (Some "latin-1") None None) with
        | Returns t => (Returns (Some t, is_dask), warnings')
        | Raises e' => (Raises e', warnings')
        end
      else if is_MemoryError e then
        let warnings' :=
          warnings ++ ["Memory error encountered during Pandas load. Falling back to Dask."] in
        match dd_read_csv env file_path
                (mkCsv (delimiter_of file_type) None None None None) with
        | Returns t => (Returns (Some t, true), warnings')
        | Raises e' => (Raises e', warnings')
        end
      else if is_Exception e then
        (Raises (DatasetLoadError ("Corrupted file or load failure: " ++ exn_message e)%string),
         warnings)
      else (Raises e, warnings)
  end.

(** [len(df)] *)
Definition frame_len (env : environment) (t : frame) : result nat :=
  if frame_is_dask t then dask_len env t else Returns (n_rows t).

(** The checks after the read. *)
Definition validate (env : environment) (warnings : list string)
  (dtype_map : option (pdict string)) (t : option frame) (is_dask : bool)
  : result DataFrameResult :=
  match t with
  | None => Raises (ValidationError "Dataset is empty or format unrecognized.")
  | Some t =>
      if Nat.eqb (List.length (columns t)) 0
      then Raises (ValidationError "Dataset is empty or format unrecognized.")
      else
        let col_count := List.length (columns t) in
        match frame_len env t with
        | Raises e => Raises e
        | Returns row_count =>
            let memory_usage_mb :=
              if is_dask then 0%Q else (memory_usage env t / (1024 * 1024))%Q in
            if Nat.eqb row_count 0 then Raises (ValidationError "File contains no rows.")
            else Returns (mkDataFrameResult t row_count col_count memory_usage_mb
                            (match dtype_map with Some m => m | None => [] end)
                            is_dask warnings)
        end
  end.

(** [load]: its outcome and [self.warnings] afterwards.  [warnings] is
    [self.warnings] at the call. *)
Definition load (env : environment) (warnings : list string) (file_path : string)
  (file_type options : pdict string) : result DataFrameResult * list string :=
  match getsize env file_path with
  | Raises e => (Raises e, warnings)
  | Returns size =>
      let file_size_mb := (Qnat size / (1024 * 1024))%Q in
      match open_zip env file_path file_type with
      | Raises e => (Raises e, warnings)
      | Returns (file_path, file_type) =>
          let sniffed :=
            match sniff_dtypes env file_path file_type with
            | Returns m => Returns (Some m, warnings)
            | Raises e =>
                if is_Exception e
                then Returns (None, warnings ++
                                [("Failed to sniff dtypes: " ++ exn_message e)%string])
                else Raises e
            end in
          match sniffed with
          | Raises e => (Raises e, warnings)
          | Returns (dtype_map, warnings) =>
              match guarded_read env warnings file_size_mb file_path file_type dtype_map with
              | (Raises e, warnings) => (Raises e, warnings)
              | (Returns (t, is_dask), warnings) =>
                  (validate env warnings dtype_map t is_dask, warnings)
              end
          end
      end
  end.

(** The two failure kinds of the loader. *)
Definition is_load_failure (e : exn) : bool := String.eqb (exn_class e) "DatasetLoadError".
Definition is_validation_failure (e : exn) : bool :=
  String.eqb (exn_class e) "ValidationError".

(** *** Sample environments *)

Definition no_file {A} (path : string) : result A :=
  Raises (mkExn "FileNotFoundError" ("No such file: " ++ path)%string).

Definition people : frame :=
  mkFrame false 2
    [mkColumn "id" DInt [Some (VNum 1); Some (VNum 2)];
     mkColumn "name" DObject [Some (VStr "Ada"); Some (VStr "Grace")]].

(** A disk with [people.csv], which reads as the table above, and
    [upload.zip], whose bytes are not a ZIP archive. *)
Definition disk : environment :=
  mkEnvironment
    (fun path =>
       if String.eqb path "people.csv" then Returns 40
       else if String.eqb path "upload.zip" then Returns 1024
       else no_file path)
    (Returns "/tmp/tmpdir")
    (fun path _ =>
       if String.eqb path "upload.zip"
       then Raises (mkExn "BadZipFile" "File is not a zip file")
       else no_file path)
    (fun dir name => (dir ++ "/" ++ name)%string)
    (fun path _ => if String.eqb path "people.csv" then Returns people else no_file path)
    no_file no_file (fun path _ => no_file path)
    (fun path _ => no_file path) no_file
    (fun t => Returns (n_rows t))
    (fun _ => 256%Q).

End Loader.

(** ** Encoder Suggester ([steps/encoder_suggester.py])

    [Raise msg] carries [str(exc)] in this module. *)

Module EncoderSuggester.

Definition suggest_log (job col suggestion : string) : log_entry :=
  mkLog job "EncoderSuggester" "suggest_encoder" (Some col)
        [("suggestion", JStr suggestion)] "info".

(** [role in ["id_col", "constant_col", "target_col"]] *)
Definition skipped_role (role : option string) : bool :=
  match role with
  | Some r => mem_str r ["id_col"; "constant_col"; "target_col"]
  | None => false
  end.

Definition role_is (role : option string) (r : string) : bool :=
  match role with
  | Some r' => String.eqb r' r
  | None => false
  end.

(** The suggestion for a column that is not skipped, if any. *)
Definition suggestion (role : option string) (c : column) : option string :=
  if role_is role "datetime_col"
  then Some "feature_extraction (year, month, day, weekday, is_weekend)"
  else if role_is role "text_col" then Some "TF-IDF or Embeddings"
  else if is_object_dtype (col_dtype c) || is_categorical_dtype (col_dtype c) then
    let n := nunique (col_cells c) in
    if Nat.leb n 10 then Some "One-Hot Encoding"
    else if Nat.ltb 10 n && Nat.leb n 50 then Some "Label/Ordinal Encoding"
    else Some "Target/Frequency Encoding"
  else None.

(** One iteration of [for col in sample_df.columns]; the selection of
    the dtype is not guarded. *)
Definition loop_body (sample_df : frame) (context : PipelineContext)
  (logs : list log_entry) (col : string) : outcome (list log_entry) :=
  match select sample_df col with
  | Raise msg => Raise msg
  | Ok c =>
      let role := dict_get (ctx_schema context) col in
      if skipped_role role then Ok logs
      else
        match suggestion role c with
        | Some s => Ok (logs ++ [suggest_log (ctx_job_id context) col s])
        | None => Ok logs
        end
  end.

Fixpoint loop (sample_df : frame) (context : PipelineContext) (cols : list string)
  (logs : list log_entry) : outcome (list log_entry) :=
  match cols with
  | [] => Ok logs
  | col :: tl =>
      match loop_body sample_df context logs col with
      | Ok logs' => loop sample_df context tl logs'
      | Raise msg => Raise msg
      end
  end.

Definition sample_frame (df : frame) : frame :=
  if frame_is_dask df then frame_head (Nat.min (100 * 100) (n_rows df)) df else df.

Definition run (df : frame) (context : PipelineContext) : outcome StepResult :=
  let sample_df := sample_frame df in
  match loop sample_df context (column_names sample_df) [] with
  | Raise msg => Raise msg
  | Ok logs => Ok (mkResult df logs [] [])
  end.

Definition suggestions : list string :=
  ["feature_extraction (year, month, day, weekday, is_weekend)"; "TF-IDF or Embeddings";
   "One-Hot Encoding"; "Label/Ordinal Encoding"; "Target/Frequency Encoding"].

(** *** Sample *)

Definition roles_context : PipelineContext :=
  mkContext "dataset-1" "general" "job-1"
    [("user_id", "id_col"); ("country", "constant_col"); ("plan", "feature_col");
     ("seen_at", "datetime_col")] false [].

End EncoderSuggester.

(** ** Preprocessing Orchestrator ([pipeline/preprocessor.py]) *)

Module PreprocessingOrchestrator.

(** The external functions of the steps. *)
Record externals : Type := mkExternals {
  schema_to_datetime : list value -> option (list cell);
  repr_other : value -> string;
  parse_number : string -> option Q;
  fixer_to_datetime : list cell -> outcome (list cell);
  approx_median : list Q -> Q;
  unhashable : frame -> bool;
  shapiro : list Q -> outcome (option Q);
  normaltest : list Q -> outcome (option Q);
  sample : Q -> frame -> frame
}.

(** [str(e)]: the Schema Analyzer model raises its division by zero by
    class name, everything else by message. *)
Definition str_of_exn (e : string) : string :=
  if String.eqb e "ZeroDivisionError" then "division by zero" else e.

(** [RuntimeError(f"Pipeline step {step_name} failed: {str(e)}")] *)
Definition step_failed (step_name e : string) : string :=
  ("Pipeline step " ++ step_name ++ " failed: " ++ str_of_exn e)%string.

(** The state of the loop: [current_df], [all_logs] and the context. *)
Record pipeline_state : Type := mkState {
  current_df : frame;
  all_logs : list log_entry;
  context : PipelineContext
}.

(** What the loop does with the result of a step: the table and the logs
    of the result, and [context.warnings.extend(result.warnings)]. *)
Definition absorb (st : pipeline_state) (result : StepResult) (ctx : PipelineContext)
  : pipeline_state :=
  mkState (res_df result) (all_logs st ++ res_logs result)
          (mkContext (ctx_dataset_id ctx) (ctx_domain ctx) (ctx_job_id ctx) (ctx_schema ctx)
                     (ctx_is_dask ctx) (ctx_warnings ctx ++ res_warnings result)).

(** A step: its class name, and its run on the table and the context,
    which it may update. *)
Definition step : Type :=
  string * (frame -> PipelineContext -> outcome (StepResult * PipelineContext)).

Definition steps (ext : externals) : list step :=
  [("ColumnNormalizer", fun df ctx => Ok (ColumnNormalizer.run df ctx));
   ("SchemaAnalyzer",
    fun df ctx => SchemaAnalyzer.run (schema_to_datetime ext) (repr_other ext) df ctx);
   ("TypeFixer",
    fun df ctx =>
      Ok (TypeFixer.run (parse_number ext) (repr_other ext) (fixer_to_datetime ext) df ctx,
          ctx));
   ("MissingValueHandler",
    fun df ctx => Ok (MissingValueHandler.run (approx_median ext) df ctx));
   ("DuplicateDetector",
    fun df ctx => Ok (DuplicateDetector.run (unhashable ext) df ctx, ctx));
   ("OutlierDetector",
    fun df ctx =>
      Ok (OutlierDetector.run (shapiro ext) (normaltest ext) (sample ext) df ctx, ctx));
   ("EncoderSuggester",
    fun df ctx =>
      match EncoderSuggester.run df ctx with
      | Ok r => Ok (r, ctx)
      | Raise e => Raise e
      end)].

(** [for step in self.steps]: a failing step ends the run with a
    [RuntimeError] that names it. *)
Fixpoint run_steps (l : list step) (st : pipeline_state) : outcome pipeline_state :=
  match l with
  | [] => Ok st
  | (step_name, run) :: tl =>
      match run (current_df st) (context st) with
      | Ok (result, ctx) => run_steps tl (absorb st result ctx)
      | Raise e => Raise (step_failed step_name e)
      end
  end.

(** [run_pipeline]: the cleaned table, the logs, and the context as the
    steps left it. *)
Definition run_pipeline (ext : externals) (df : frame) (ctx : PipelineContext)
  : outcome (frame * list log_entry * PipelineContext) :=
  match run_steps (steps ext) (mkState df [] ctx) with
  | Ok st => Ok (current_df st, all_logs st, context st)
  | Raise e => Raise e
  end.

(** *** Sample *)

Definition plain_externals : externals :=
  mkExternals SchemaAnalyzer.no_date_parses SchemaAnalyzer.repr_blank TypeFixer.parse_digits
    TypeFixer.never_raises MissingValueHandler.exact_median
    DuplicateDetector.cells_hashable OutlierDetector.never_normal
    OutlierDetector.never_normal OutlierDetector.whole_table.

End PreprocessingOrchestrator.

(** ** The worker task ([workers/tasks.py]): what it hands to the loader *)

Module Tasks.

Definition tab : string := String "009"%char EmptyString.

(** [FileFormatEnum]: the formats a dataset record can carry. *)
Definition file_formats : list string := ["csv"; "excel"; "json"; "parquet"; "tsv"; "zip"].

(** [_file_type_from_dataset], from the format of the dataset record. *)
Definition file_type_from_dataset (fmt : string) : pdict string :=
  [("format", fmt); ("delimiter", if String.eqb fmt "tsv" then tab else ",");
   ("encoding", "utf-8")].

(** [_as_severity]: the value when it is a member of [SeverityEnum],
    [info] otherwise. *)
Definition as_severity (value : string) : string :=
  if mem_str value ["info"; "warning"; "error"] then value else "info".

End Tasks.

(** *** More sample files for the loader *)

Module LoaderSamples.

Definition parser_error : Loader.exn :=
  Loader.mkExn "ParserError" "Error tokenizing data. C error: Expected 2 fields in line 3, saw 5".

(** A disk on which [table.tsv] reads as a table and [garbled.csv] does
    not parse, with whatever arguments it is read. *)
Definition disk : Loader.environment :=
  Loader.mkEnvironment
    (fun path =>
       if String.eqb path "table.tsv" then Loader.Returns 40
       else if String.eqb path "garbled.csv" then Loader.Returns 64
       else Loader.no_file path)
    (Loader.Returns "/tmp/tmpdir")
    (fun path _ => Loader.no_file path)
    (fun dir name => (dir ++ "/" ++ name)%string)
    (fun path _ =>
       if String.eqb path "table.tsv" then Loader.Returns Loader.people
       else if String.eqb path "garbled.csv" then Loader.Raises parser_error
       else Loader.no_file path)
    Loader.no_file Loader.no_file (fun path _ => Loader.no_file path)
    (fun path _ => Loader.no_file path) Loader.no_file
    (fun t => Loader.Returns (n_rows t))
    (fun _ => 256%Q).

End LoaderSamples.

(** ** File detector ([utils/file_detector.py]) *)

Module FileDetector.

Record FileTypeResult : Type := mkFileTypeResult {
  ft_format : string;
  ft_encoding : string;
  ft_delimiter : option string;
  ft_sheet_names : option (list string);
  ft_is_compressed : bool;
  ft_mime_type : string;
  ft_contained_files : option (list (string * nat))
}.

(** The file system and the libraries the detection calls.  The bytes of
    a file are a string of 8-bit characters. *)
Record environment : Type := mkEnvironment {
  (** [open(file_path, "rb").read(sample_size)] *)
  read_sample : string -> nat -> Loader.result string;
  (** [magic.Magic(mime=True).from_buffer] *)
  from_buffer : string -> string;
  (** [chardet.detect(...)["encoding"]] *)
  detect_encoding : string -> option string;
  (** [ZipFile(file_path).infolist()], each entry with its size *)
  infolist : string -> Loader.result (list (string * nat));
  (** [openpyxl.load_workbook(...).sheetnames] *)
  sheetnames : string -> Loader.result (list string);
  (** [sample_bytes.decode(encoding)] *)
  decode : string -> string -> Loader.result string
}.

Definition is_BadZipFile (e : Loader.exn) : bool :=
  String.eqb (Loader.exn_class e) "BadZipFile".

(** [s[:n]] *)
Fixpoint take (n : nat) (s : string) : string :=
  match n, s with
  | S n', String c tl => String c (take n' tl)
  | _, _ => EmptyString
  end.

(** [b"PK\x03\x04"] *)
Definition pk_magic : string :=
  String "P" (String "K" (String "003" (String "004" EmptyString))).

(** [text.count(c)] *)
Definition count_char (c : ascii) (s : string) : nat :=
  List.length (filter (Ascii.eqb c) (chars s)).

Definition tab_char : ascii := "009"%char.
Definition comma_char : ascii := ","%char.

(** [encoding or "utf-8"]: an empty name counts as none. *)
Definition encoding_or_default (detected : option string) : string :=
  match detected with
  | Some e => if String.eqb e "" then "utf-8" else e
  | None => "utf-8"
  end.

Definition detect_file_type (env : environment) (file_path : string)
  : Loader.result FileTypeResult :=
  let sample_size := 100 * 1024 in
  match read_sample env file_path sample_size with
  | Loader.Raises e => Loader.Raises e
  | Loader.Returns sample_bytes =>
      let mime_type := from_buffer env sample_bytes in
      let encoding := encoding_or_default (detect_encoding env sample_bytes) in
      let result format delimiter sheet_names is_compressed contained_files :=
        Loader.Returns (mkFileTypeResult format encoding delimiter sheet_names
                          is_compressed mime_type contained_files) in
      if contains "zip" mime_type then
        match infolist env file_path with
        | Loader.Returns infos => result "zip" None None true (Some infos)
        | Loader.Raises e =>
            if is_BadZipFile e then result "zip" None None true (Some [])
            else Loader.Raises e
        end
      else if contains "spreadsheet" mime_type || contains "excel" mime_type
              || (Nat.ltb 4 (String.length sample_bytes)
                  && String.eqb (take 4 sample_bytes) pk_magic) then
        match sheetnames env file_path with
        | Loader.Returns names => result "excel" None (Some names) false None
        | Loader.Raises e =>
            if Loader.is_Exception e then result "excel" None None false None
            else Loader.Raises e
        end
      else if contains "parquet" mime_type || contains "octet-stream" mime_type then
        if String.eqb (take 4 sample_bytes) "PAR1"
        then result "parquet" None None false None
        else result "unknown" None None false None
      else if contains "json" mime_type then result "json" None None false None
      else if contains "text" mime_type || contains "csv" mime_type then
        match decode env sample_bytes encoding with
        | Loader.Returns sample_text =>
            if Nat.ltb 0 (count_char tab_char sample_text)
               && Nat.ltb (count_char comma_char sample_text)
                          (count_char tab_char sample_text)
            then result "tsv" (Some Tasks.tab) None false None
            else result "csv" (Some ",") None false None
        | Loader.Raises e =>
            if Loader.is_UnicodeDecodeError e
            then result "csv" (Some ",") None false None
            else Loader.Raises e
        end
      else result "unknown" None None false None
  end.

(** *** Sample *)

(** A file that [magic] calls a ZIP archive and that is not one. *)
Definition broken_upload : environment :=
  mkEnvironment
    (fun _ _ => Loader.Returns "PK not really an archive")
    (fun _ => "application/zip")
    (fun _ => Some "ascii")
    (fun _ => Loader.Raises (Loader.mkExn "BadZipFile" "File is not a zip file"))
    (fun _ => Loader.no_file "workbook")
    (fun bytes _ => Loader.Returns bytes).

End FileDetector.

(* ================================================================== *)
(** * Part II: properties                                              *)
(* ================================================================== *)

(** ** Characters, strings and dictionaries *)

Ltac by_cases_on_ascii c :=
  destruct c as [[] [] [] [] [] [] [] []]; vm_compute; congruence.

Lemma chars_of_chars (l : list ascii) : chars (of_chars l) = l.
Proof. apply list_ascii_of_string_of_list_ascii. Qed.

Lemma of_chars_chars (s : string) : of_chars (chars s) = s.
Proof. apply string_of_list_ascii_of_string. Qed.

Lemma chars_inj (s t : string) : chars s = chars t -> s = t.
Proof.
  intros H. rewrite <- (of_chars_chars s), <- (of_chars_chars t). now rewrite H.
Qed.

Lemma chars_append (s t : string) : chars (s ++ t)%string = chars s ++ chars t.
Proof.
  induction s as [|c s IH]; simpl; [reflexivity|]. unfold chars in *. simpl.
  now rewrite IH.
Qed.

Lemma append_inj_l (p s t : string) : (p ++ s)%string = (p ++ t)%string -> s = t.
Proof.
  induction p as [|c p IH]; simpl; intros H; [exact H|].
  injection H as H. auto.
Qed.

Lemma decimal_inj (n m : nat) : decimal n = decimal m -> n = m.
Proof.
  unfold decimal. intros H.
  assert (E : Some (Nat.to_uint n) = Some (Nat.to_uint m)).
  { rewrite <- !NilEmpty.usu. now rewrite H. }
  injection E as E.
  rewrite <- (Unsigned.of_to n), <- (Unsigned.of_to m). now rewrite E.
Qed.

Lemma string_of_uint_digits (d : uint) :
  forallb is_digit (chars (NilEmpty.string_of_uint d)) = true.
Proof. induction d; simpl; auto. Qed.

Lemma to_uint_not_nil (n : nat) : Nat.to_uint n <> Nil.
Proof.
  intros H. pose proof (Unsigned.of_to n) as E. rewrite H in E. simpl in E.
  subst n. discriminate H.
Qed.

Lemma decimal_digits (n : nat) : forallb is_digit (chars (decimal n)) = true.
Proof. apply string_of_uint_digits. Qed.

Lemma decimal_not_empty (n : nat) : chars (decimal n) <> [].
Proof.
  unfold decimal. pose proof (to_uint_not_nil n) as H.
  destruct (Nat.to_uint n); simpl; congruence.
Qed.

Lemma mem_str_true (x : string) (l : list string) : mem_str x l = true <-> In x l.
Proof.
  unfold mem_str. rewrite existsb_exists. split.
  - intros [y [Hy E]]. apply String.eqb_eq in E. now subst.
  - intros H. exists x. split; [exact H | apply String.eqb_refl].
Qed.

Lemma mem_str_false (x : string) (l : list string) : mem_str x l = false <-> ~ In x l.
Proof.
  rewrite <- mem_str_true. destruct (mem_str x l); split; congruence.
Qed.

(** *** Dictionaries *)

Lemma dict_get_set_eq {V} (d : pdict V) (k : string) (v : V) :
  dict_get (dict_set d k v) k = Some v.
Proof.
  induction d as [|[k' v'] d IH]; simpl.
  - now rewrite String.eqb_refl.
  - destruct (String.eqb k k') eqn:E; simpl; rewrite E; [reflexivity | exact IH].
Qed.

Lemma dict_get_set_neq {V} (d : pdict V) (k k' : string) (v : V) :
  k <> k' -> dict_get (dict_set d k v) k' = dict_get d k'.
Proof.
  intros Hne. induction d as [|[k0 v0] d IH]; simpl.
  - destruct (String.eqb k' k) eqn:E; [apply String.eqb_eq in E; congruence | reflexivity].
  - destruct (String.eqb k k0) eqn:E; simpl.
    + apply String.eqb_eq in E. subst k0.
      destruct (String.eqb k' k) eqn:E'; [apply String.eqb_eq in E'; congruence | reflexivity].
    + destruct (String.eqb k' k0); [reflexivity | exact IH].
Qed.

Lemma dict_get_in_keys {V} (d : pdict V) (k : string) (v : V) :
  dict_get d k = Some v -> In k (dict_keys d).
Proof.
  induction d as [|[k' v'] d IH]; simpl; [discriminate|].
  destruct (String.eqb k k') eqn:E.
  - apply String.eqb_eq in E. auto.
  - auto.
Qed.

Lemma dict_set_fresh {V} (d : pdict V) (k : string) (v : V) :
  ~ In k (dict_keys d) -> dict_set d k v = d ++ [(k, v)].
Proof.
  induction d as [|[k' v'] d IH]; simpl; intros H; [reflexivity|].
  destruct (String.eqb k k') eqn:E.
  - apply String.eqb_eq in E. subst. tauto.
  - f_equal. apply IH. tauto.
Qed.

Lemma dict_of_pairs_nodup_from {V} (l d : list (string * V)) :
  NoDup (map fst (d ++ l)) ->
  fold_left (fun d kv => dict_set d (fst kv) (snd kv)) l d = d ++ l.
Proof.
  revert d. induction l as [|[k v] l IH]; intros d H; simpl.
  - now rewrite app_nil_r.
  - rewrite dict_set_fresh.
    + rewrite IH; rewrite <- app_assoc; [reflexivity | exact H].
    + rewrite map_app in H. simpl in H. apply NoDup_remove_2 in H.
      unfold dict_keys. intros Hin. apply H. apply in_or_app. now left.
Qed.

Lemma dict_of_pairs_nodup {V} (l : list (string * V)) :
  NoDup (map fst l) -> dict_of_pairs l = l.
Proof. intros H. unfold dict_of_pairs. now rewrite dict_of_pairs_nodup_from. Qed.

Lemma dict_get_combine (ks vs : list string) :
  NoDup ks -> List.length ks = List.length vs ->
  map (fun k => dict_get_default (combine ks vs) k k) ks = vs.
Proof.
  revert vs. induction ks as [|k ks IH]; intros [|v vs] Hnd Hlen; simpl in *;
    try discriminate; [reflexivity|].
  inversion Hnd as [|? ? Hnot Hnd']; subst.
  unfold dict_get_default at 1. simpl. rewrite String.eqb_refl. f_equal.
  transitivity (map (fun k => dict_get_default (combine ks vs) k k) ks);
    [|apply IH; [exact Hnd' | lia]].
  apply map_ext_in. intros a Ha. unfold dict_get_default. simpl.
  destruct (String.eqb a k) eqn:E; [|reflexivity].
  apply String.eqb_eq in E. subst. contradiction.
Qed.

Lemma dict_fold_get_in {V} (l d : list (string * V)) (k : string) (v : V) :
  dict_get (fold_left (fun d kv => dict_set d (fst kv) (snd kv)) l d) k = Some v ->
  In (k, v) l \/ dict_get d k = Some v.
Proof.
  revert d. induction l as [|[k1 v1] l IH]; intros d H; simpl in *; [now right|].
  destruct (IH _ H) as [Hin | Hget]; [now left; right|].
  destruct (string_dec k1 k) as [->|Hne].
  - rewrite dict_get_set_eq in Hget. injection Hget as ->. now left; left.
  - rewrite dict_get_set_neq in Hget by exact Hne. now right.
Qed.

Lemma dict_fold_keeps_key {V} (l d : list (string * V)) (k : string) :
  dict_get d k <> None ->
  dict_get (fold_left (fun d kv => dict_set d (fst kv) (snd kv)) l d) k <> None.
Proof.
  revert d. induction l as [|[k1 v1] l IH]; intros d H; simpl; [exact H|].
  apply IH. destruct (string_dec k1 k) as [->|Hne].
  - now rewrite dict_get_set_eq.
  - now rewrite dict_get_set_neq.
Qed.

Lemma dict_fold_has_key {V} (l d : list (string * V)) (k : string) :
  In k (map fst l) ->
  dict_get (fold_left (fun d kv => dict_set d (fst kv) (snd kv)) l d) k <> None.
Proof.
  revert d. induction l as [|[k1 v1] l IH]; intros d H; simpl in *; [contradiction|].
  destruct H as [->|H]; [|now apply IH].
  apply dict_fold_keeps_key. now rewrite dict_get_set_eq.
Qed.

(** ** Column Normalizer *)

Section StripLemmas.
Variable p : ascii -> bool.

Lemma lstrip_suffix (l : list ascii) : exists r, l = r ++ lstrip p l.
Proof.
  induction l as [|c tl [r IH]]; simpl; [now exists []|].
  destruct (p c); [|now exists []].
  exists (c :: r). simpl. now f_equal.
Qed.

Lemma rstrip_prefix (l : list ascii) : exists r, l = rstrip p l ++ r.
Proof.
  induction l as [|c tl [r IH]]; simpl; [now exists []|].
  destruct (rstrip p tl) as [|c' r'] eqn:E.
  - destruct (p c); [now exists (c :: tl)|]. exists r. simpl in *. now f_equal.
  - exists r. simpl in *. now f_equal.
Qed.

Lemma lstrip_head (l : list ascii) :
  match lstrip p l with [] => True | c :: _ => p c = false end.
Proof.
  induction l as [|c tl IH]; simpl; [exact I|].
  destruct (p c) eqn:E; [exact IH | exact E].
Qed.

Lemma lstrip_id (l : list ascii) :
  match l with [] => True | c :: _ => p c = false end -> lstrip p l = l.
Proof. destruct l as [|c tl]; simpl; [reflexivity|]. now intros ->. Qed.

Lemma rstrip_none (l : list ascii) :
  forallb (fun c => negb (p c)) l = true -> rstrip p l = l.
Proof.
  induction l as [|c tl IH]; simpl; [reflexivity|].
  intros H. apply andb_prop in H as [Hc Ht]. rewrite (IH Ht).
  destruct tl; [|reflexivity]. apply negb_true_iff in Hc. now rewrite Hc.
Qed.

Lemma rstrip_keeps_head (l : list ascii) :
  match rstrip p l, l with
  | c :: _, c' :: _ => c = c'
  | _, _ => True
  end.
Proof.
  destruct l as [|c tl]; simpl; [exact I|].
  destruct (rstrip p tl); [destruct (p c)|]; auto.
Qed.

End StripLemmas.

Lemma forallb_app_l (q : ascii -> bool) (l r : list ascii) :
  forallb q (l ++ r) = true -> forallb q l = true.
Proof. rewrite forallb_app. intros H. now apply andb_prop in H. Qed.

Lemma forallb_app_r (q : ascii -> bool) (l r : list ascii) :
  forallb q (l ++ r) = true -> forallb q r = true.
Proof. rewrite forallb_app. intros H. now apply andb_prop in H. Qed.

Lemma forallb_strip (p q : ascii -> bool) (l : list ascii) :
  forallb q l = true -> forallb q (strip_chars p l) = true.
Proof.
  intros H. unfold strip_chars.
  destruct (lstrip_suffix p l) as [r1 E1].
  destruct (rstrip_prefix p (lstrip p l)) as [r2 E2].
  rewrite E1 in H. apply forallb_app_r in H. rewrite E2 in H.
  now apply forallb_app_l in H.
Qed.

Import ColumnNormalizer.

Lemma is_underscore_eq (c : ascii) : is_underscore c = true -> c = underscore.
Proof. apply Ascii.eqb_eq. Qed.

Lemma name_char_lower (c : ascii) : is_name_char c = true -> to_lower c = c.
Proof. by_cases_on_ascii c. Qed.

Lemma name_char_not_space (c : ascii) : is_name_char c = true -> negb (is_space c) = true.
Proof. by_cases_on_ascii c. Qed.

Lemma name_char_sub (c : ascii) :
  is_name_char c = true -> (if is_alnum_lower c then c else underscore) = c.
Proof. by_cases_on_ascii c. Qed.

Lemma sub_is_name_char (c : ascii) :
  is_name_char (if is_alnum_lower c then c else underscore) = true.
Proof. by_cases_on_ascii c. Qed.

Lemma digit_is_name_char (c : ascii) : is_digit c = true -> is_name_char c = true.
Proof. by_cases_on_ascii c. Qed.

Lemma digit_not_underscore (c : ascii) : is_digit c = true -> is_underscore c = false.
Proof. by_cases_on_ascii c. Qed.

Lemma sub_special_name_chars (l : list ascii) :
  forallb is_name_char (sub_special l) = true.
Proof.
  induction l as [|c tl IH]; simpl; [reflexivity|].
  now rewrite sub_is_name_char, IH.
Qed.

Lemma collapse_head (c : ascii) (tl : list ascii) :
  exists r, collapse_underscores (c :: tl) = c :: r.
Proof.
  revert c. induction tl as [|c' tl IH]; intros c; simpl.
  - destruct (is_underscore c); now eexists.
  - destruct (is_underscore c) eqn:Ec; [|now eexists].
    destruct (is_underscore c') eqn:Ec'; [|now eexists].
    destruct (IH c') as [r Hr]. exists r.
    apply is_underscore_eq in Ec, Ec'. subst. exact Hr.
Qed.

Lemma forallb_collapse (q : ascii -> bool) (l : list ascii) :
  forallb q l = true -> forallb q (collapse_underscores l) = true.
Proof.
  induction l as [|c tl IH]; [reflexivity|].
  intros H. simpl in H. apply andb_prop in H as [Hc Ht].
  change (collapse_underscores (c :: tl)) with
    (if is_underscore c then
       match tl with
       | c' :: _ => if is_underscore c' then collapse_underscores tl
                    else c :: collapse_underscores tl
       | [] => [c]
       end
     else c :: collapse_underscores tl).
  destruct (is_underscore c).
  - destruct tl as [|c' tl'].
    + simpl. now rewrite Hc.
    + destruct (is_underscore c'); [now apply IH|].
      simpl forallb at 1. rewrite Hc. now apply IH.
  - simpl forallb at 1. rewrite Hc. now apply IH.
Qed.

Lemma no_double_cons2 (c c' : ascii) (r : list ascii) :
  no_double_underscore (c :: c' :: r) =
  negb (is_underscore c && is_underscore c') && no_double_underscore (c' :: r).
Proof. reflexivity. Qed.

Lemma collapse_no_double (l : list ascii) :
  no_double_underscore (collapse_underscores l) = true.
Proof.
  induction l as [|c tl IH]; [reflexivity|].
  change (collapse_underscores (c :: tl)) with
    (if is_underscore c then
       match tl with
       | c' :: _ => if is_underscore c' then collapse_underscores tl
                    else c :: collapse_underscores tl
       | [] => [c]
       end
     else c :: collapse_underscores tl).
  destruct tl as [|c' tl'].
  - destruct (is_underscore c); reflexivity.
  - destruct (collapse_head c' tl') as [r Hr]. rewrite Hr in *.
    destruct (is_underscore c) eqn:Ec.
    + destruct (is_underscore c') eqn:Ec'; [exact IH|].
      rewrite no_double_cons2, Ec, Ec'. exact IH.
    + rewrite no_double_cons2, Ec. exact IH.
Qed.

Lemma collapse_id (l : list ascii) :
  no_double_underscore l = true -> collapse_underscores l = l.
Proof.
  induction l as [|c tl IH]; [reflexivity|].
  intros H.
  change (collapse_underscores (c :: tl)) with
    (if is_underscore c then
       match tl with
       | c' :: _ => if is_underscore c' then collapse_underscores tl
                    else c :: collapse_underscores tl
       | [] => [c]
       end
     else c :: collapse_underscores tl).
  destruct tl as [|c' tl'].
  - destruct (is_underscore c); reflexivity.
  - rewrite no_double_cons2 in H. apply andb_prop in H as [Hj Ht].
    rewrite (IH Ht).
    destruct (is_underscore c); [|reflexivity].
    destruct (is_underscore c'); [discriminate Hj | reflexivity].
Qed.

Lemma no_double_app_l (l r : list ascii) :
  no_double_underscore (l ++ r) = true -> no_double_underscore l = true.
Proof.
  induction l as [|c tl IH]; [reflexivity|].
  destruct tl as [|c' tl']; [reflexivity|].
  change ((c :: c' :: tl') ++ r) with (c :: c' :: (tl' ++ r)).
  rewrite !no_double_cons2. intros H. apply andb_prop in H as [Hj Ht].
  rewrite Hj. simpl. apply IH. exact Ht.
Qed.

Lemma no_double_app_r (l r : list ascii) :
  no_double_underscore (l ++ r) = true -> no_double_underscore r = true.
Proof.
  induction l as [|c tl IH]; [auto|].
  intros H. apply IH.
  destruct tl as [|c' tl'].
  - destruct r as [|c' r']; [reflexivity|].
    change (([c] ++ c' :: r')) with (c :: c' :: r') in H.
    rewrite no_double_cons2 in H. now apply andb_prop in H.
  - change ((c :: c' :: tl') ++ r) with (c :: c' :: (tl' ++ r)) in H.
    rewrite no_double_cons2 in H. now apply andb_prop in H.
Qed.

Lemma no_double_strip (p : ascii -> bool) (l : list ascii) :
  no_double_underscore l = true -> no_double_underscore (strip_chars p l) = true.
Proof.
  intros H. unfold strip_chars.
  destruct (lstrip_suffix p l) as [r1 E1].
  destruct (rstrip_prefix p (lstrip p l)) as [r2 E2].
  rewrite E1 in H. apply no_double_app_r in H. rewrite E2 in H.
  now apply no_double_app_l in H.
Qed.

Lemma rstrip_not_trailing (l : list ascii) :
  ends_with_underscore (rstrip is_underscore l) = false.
Proof.
  induction l as [|c tl IH]; simpl; [reflexivity|].
  destruct (rstrip is_underscore tl) as [|c' r] eqn:E.
  - destruct (is_underscore c) eqn:Ec; simpl; [reflexivity | exact Ec].
  - exact IH.
Qed.

Lemma rstrip_trailing_id (l : list ascii) :
  ends_with_underscore l = false -> rstrip is_underscore l = l.
Proof.
  induction l as [|c tl IH]; simpl; [reflexivity|].
  destruct tl as [|c' tl'].
  - simpl. now intros ->.
  - intros H. rewrite (IH H). reflexivity.
Qed.

Lemma strip_underscore_ends (l : list ascii) :
  starts_with_underscore (strip_chars is_underscore l) = false /\
  ends_with_underscore (strip_chars is_underscore l) = false.
Proof.
  unfold strip_chars. split; [|apply rstrip_not_trailing].
  pose proof (lstrip_head is_underscore l) as Hh.
  pose proof (rstrip_keeps_head is_underscore (lstrip is_underscore l)) as Hk.
  destruct (lstrip is_underscore l) as [|c' r']; [reflexivity|].
  destruct (rstrip is_underscore (c' :: r')) as [|c r]; [reflexivity|].
  simpl. now subst.
Qed.

Lemma clean_form_chars (s : string) : clean_form s <-> clean_chars_form (chars s).
Proof. reflexivity. Qed.

Lemma ends_with_underscore_app (l r : list ascii) :
  r <> [] -> ends_with_underscore (l ++ r) = ends_with_underscore r.
Proof.
  intros Hr. induction l as [|c tl IH]; [reflexivity|].
  simpl. destruct (tl ++ r) eqn:E; [|exact IH].
  apply app_eq_nil in E. tauto.
Qed.

Lemma no_double_join (l r : list ascii) :
  no_double_underscore l = true -> no_double_underscore r = true ->
  ends_with_underscore l = false ->
  no_double_underscore (l ++ r) = true.
Proof.
  intros Hl Hr He. induction l as [|c tl IH]; [exact Hr|].
  destruct tl as [|c' tl'].
  - simpl in He. destruct r as [|c' r']; [reflexivity|].
    change ([c] ++ c' :: r') with (c :: c' :: r').
    rewrite no_double_cons2, He. exact Hr.
  - change ((c :: c' :: tl') ++ r) with (c :: c' :: (tl' ++ r)).
    rewrite no_double_cons2 in *. apply andb_prop in Hl as [Hj Ht].
    rewrite Hj. apply IH; assumption.
Qed.

Lemma digits_no_underscore (l : list ascii) :
  forallb is_digit l = true ->
  ends_with_underscore l = false /\ no_double_underscore l = true.
Proof.
  induction l as [|c tl IH]; [now split|].
  simpl. intros H. apply andb_prop in H as [Hc Ht]. destruct (IH Ht) as [He Hn].
  pose proof (digit_not_underscore c Hc) as Hu.
  destruct tl as [|c' tl']; [now split|]. rewrite Hu. now split.
Qed.

Lemma digits_name_chars (l : list ascii) :
  forallb is_digit l = true -> forallb is_name_char l = true.
Proof.
  induction l as [|c tl IH]; [reflexivity|].
  simpl. intros H. apply andb_prop in H as [Hc Ht].
  now rewrite (digit_is_name_char c Hc), IH.
Qed.

(** Cleaning always yields a name in clean form. *)
Lemma clean_chars_clean (l : list ascii) : clean_chars_form (clean_chars l).
Proof.
  unfold clean_chars.
  set (n4 := strip_chars is_underscore
               (collapse_underscores (sub_special (strip_chars is_space (map to_lower l))))).
  assert (Hf : forallb is_name_char n4 = true).
  { apply forallb_strip, forallb_collapse, sub_special_name_chars. }
  assert (Hn : no_double_underscore n4 = true).
  { apply no_double_strip, collapse_no_double. }
  destruct (strip_underscore_ends
              (collapse_underscores (sub_special (strip_chars is_space (map to_lower l)))))
    as [Hs He].
  fold n4 in Hs, He.
  destruct (starts_with_digit n4) eqn:Hd.
  - destruct n4 as [|d rest]; [discriminate Hd|]. simpl in Hd.
    change (chars "col_" ++ d :: rest)
      with ("c"%char :: "o"%char :: "l"%char :: "_"%char :: d :: rest).
    repeat split; try reflexivity; try discriminate.
    + change (forallb is_name_char (d :: rest) = true). exact Hf.
    + change (ends_with_underscore (d :: rest) = false). exact He.
    + rewrite !no_double_cons2. rewrite (digit_not_underscore d Hd).
      simpl. exact Hn.
  - destruct n4 as [|c rest] eqn:E.
    + vm_compute. repeat split; congruence.
    + repeat split; try assumption; discriminate.
Qed.

Lemma clean_name_clean (col : string) : clean_form (clean_name col).
Proof.
  apply clean_form_chars. unfold clean_name. rewrite chars_of_chars.
  apply clean_chars_clean.
Qed.

(** A name in clean form is a fixed point of the cleaning. *)
Lemma clean_chars_fixed (l : list ascii) : clean_chars_form l -> clean_chars l = l.
Proof.
  intros [[Hne [Hf Hd]] [Hs [He Hn]]]. unfold clean_chars.
  assert (E1 : map to_lower l = l).
  { clear -Hf. induction l as [|c tl IH]; [reflexivity|].
    simpl in *. apply andb_prop in Hf as [Hc Ht].
    now rewrite (name_char_lower c Hc), IH. }
  assert (Hsp : forallb (fun c => negb (is_space c)) l = true).
  { clear -Hf. induction l as [|c tl IH]; [reflexivity|].
    simpl in *. apply andb_prop in Hf as [Hc Ht].
    now rewrite (name_char_not_space c Hc), IH. }
  assert (E2 : strip_chars is_space l = l).
  { unfold strip_chars. rewrite lstrip_id.
    - now apply rstrip_none.
    - destruct l as [|c tl]; [exact I|]. simpl in Hsp.
      apply andb_prop in Hsp as [Hc _]. now apply negb_true_iff in Hc. }
  assert (E3 : sub_special l = l).
  { clear -Hf. induction l as [|c tl IH]; [reflexivity|].
    simpl in *. apply andb_prop in Hf as [Hc Ht].
    now rewrite (name_char_sub c Hc), IH. }
  assert (E4 : strip_chars is_underscore l = l).
  { unfold strip_chars. rewrite lstrip_id.
    - now apply rstrip_trailing_id.
    - destruct l; [exact I | exact Hs]. }
  rewrite E1, E2, E3, (collapse_id l Hn), E4, Hd.
  destruct l; [congruence | reflexivity].
Qed.

Lemma clean_name_fixed (s : string) : clean_form s -> clean_name s = s.
Proof.
  intros H. unfold clean_name. apply clean_form_chars in H.
  rewrite (clean_chars_fixed _ H). apply of_chars_chars.
Qed.

(** *** De-duplication *)

Lemma suffixed_inj (n : string) (a b : nat) : suffixed n a = suffixed n b -> a = b.
Proof.
  unfold suffixed. intros H. apply append_inj_l in H. apply append_inj_l in H.
  now apply decimal_inj.
Qed.

Lemma suffixed_clean (n : string) (k : nat) : clean_form n -> clean_form (suffixed n k).
Proof.
  rewrite !clean_form_chars. intros [[Hne [Hf Hd]] [Hs [He Hn]]].
  unfold suffixed. rewrite !chars_append.
  change (chars "_") with [underscore].
  pose proof (decimal_digits k) as Hk. pose proof (decimal_not_empty k) as Hk0.
  destruct (digits_no_underscore _ Hk) as [Hke Hkn].
  set (D := chars (decimal k)) in *.
  destruct (chars n) as [|c tl] eqn:E; [congruence|].
  repeat split.
  - discriminate.
  - rewrite <- E. rewrite !forallb_app. rewrite E, Hf. simpl.
    now rewrite (digits_name_chars _ Hk).
  - exact Hd.
  - exact Hs.
  - rewrite ends_with_underscore_app by discriminate.
    change ([underscore] ++ D) with ([underscore] ++ D).
    rewrite ends_with_underscore_app by exact Hk0. exact Hke.
  - apply no_double_join; try assumption.
    destruct D as [|d D'] eqn:ED; [congruence|].
    change ([underscore] ++ d :: D') with (underscore :: d :: D').
    rewrite no_double_cons2. simpl in Hk. apply andb_prop in Hk as [Hd0 _].
    rewrite (digit_not_underscore d Hd0). rewrite andb_false_r. exact Hkn.
Qed.

Lemma find_counter_fresh (n : string) (seen : list string) (fuel c : nat) :
  (exists k, k < fuel /\ mem_str (suffixed n (c + k)) seen = false) ->
  mem_str (suffixed n (find_counter fuel n seen c)) seen = false.
Proof.
  revert c. induction fuel as [|fuel IH]; intros c [k [Hk Hm]]; [lia|].
  simpl. destruct (mem_str (suffixed n c) seen) eqn:E; [|exact E].
  apply IH. destruct k as [|k].
  - rewrite Nat.add_0_r in Hm. congruence.
  - exists k. split; [lia|]. now replace (S c + k) with (c + S k) by lia.
Qed.

(** Among [length seen + 1] distinct candidates one is not in [seen]. *)
Lemma fresh_candidate (n : string) (seen : list string) (c : nat) :
  exists k, k < S (List.length seen) /\ mem_str (suffixed n (c + k)) seen = false.
Proof.
  set (cands := seq 0 (S (List.length seen))).
  destruct (existsb (fun k => negb (mem_str (suffixed n (c + k)) seen)) cands) eqn:E.
  - apply existsb_exists in E as [k [Hin Hk]]. exists k.
    apply in_seq in Hin. split; [lia|]. now apply negb_true_iff.
  - exfalso.
    assert (Hall : forall k, In k cands -> In (suffixed n (c + k)) seen).
    { intros k Hin. apply mem_str_true.
      destruct (mem_str (suffixed n (c + k)) seen) eqn:Hm; [reflexivity|].
      assert (Hex : existsb (fun k => negb (mem_str (suffixed n (c + k)) seen)) cands = true).
      { apply existsb_exists. exists k. split; [exact Hin|]. now rewrite Hm. }
      congruence. }
    assert (Hnd : NoDup (map (fun k => suffixed n (c + k)) cands)).
    { apply Injective_map_NoDup; [|apply seq_NoDup].
      intros a b Hab. apply suffixed_inj in Hab. lia. }
    assert (Hincl : incl (map (fun k => suffixed n (c + k)) cands) seen).
    { intros x Hx. apply in_map_iff in Hx as [k [<- Hk]]. now apply Hall. }
    pose proof (NoDup_incl_length Hnd Hincl) as Hlen.
    rewrite length_map in Hlen. unfold cands in Hlen. rewrite length_seq in Hlen. lia.
Qed.

Lemma deduplicate_fresh (n : string) (seen : list string) :
  ~ In (deduplicate n seen) seen.
Proof.
  unfold deduplicate. destruct (mem_str n seen) eqn:E.
  - apply mem_str_false. apply find_counter_fresh. apply fresh_candidate.
  - now apply mem_str_false.
Qed.

Lemma deduplicate_clean (n : string) (seen : list string) :
  clean_form n -> clean_form (deduplicate n seen).
Proof.
  intros H. unfold deduplicate. destruct (mem_str n seen); [|exact H].
  now apply suffixed_clean.
Qed.

Lemma deduplicate_absent (n : string) (seen : list string) :
  ~ In n seen -> deduplicate n seen = n.
Proof. intros H. unfold deduplicate. apply mem_str_false in H. now rewrite H. Qed.

(** *** The loop and the step *)

Lemma loop_body_invariant (job : string) (st : loop_state) (col : string) :
  st_seen st = List.rev (st_new_cols st) /\
  NoDup (st_new_cols st) /\ Forall clean_form (st_new_cols st) ->
  let st' := loop_body job st col in
  st_seen st' = List.rev (st_new_cols st') /\
  NoDup (st_new_cols st') /\ Forall clean_form (st_new_cols st') /\
  List.length (st_new_cols st') = S (List.length (st_new_cols st)).
Proof.
  intros [Hseen [Hnd Hcl]]. simpl.
  set (n := deduplicate (clean_name col) (st_seen st)).
  assert (Hfresh : ~ In n (st_new_cols st)).
  { intros Hin. apply (deduplicate_fresh (clean_name col) (st_seen st)).
    fold n. rewrite Hseen. now apply in_rev in Hin. }
  repeat split.
  - rewrite rev_unit. now f_equal.
  - replace (st_new_cols st ++ [n]) with (List.rev (n :: List.rev (st_new_cols st))).
    + apply NoDup_rev. constructor.
      * intros Hin. apply Hfresh. now apply in_rev.
      * now apply NoDup_rev.
    + simpl. now rewrite rev_involutive.
  - apply Forall_app. split; [exact Hcl|]. constructor; [|constructor].
    apply deduplicate_clean, clean_name_clean.
  - rewrite length_app. simpl. lia.
Qed.

Lemma loop_fold_invariant (job : string) (cols : list string) (st : loop_state) :
  st_seen st = List.rev (st_new_cols st) /\
  NoDup (st_new_cols st) /\ Forall clean_form (st_new_cols st) ->
  let st' := fold_left (loop_body job) cols st in
  st_seen st' = List.rev (st_new_cols st') /\
  NoDup (st_new_cols st') /\ Forall clean_form (st_new_cols st') /\
  List.length (st_new_cols st') = List.length (st_new_cols st) + List.length cols.
Proof.
  revert st. induction cols as [|c cols IH]; intros st H; simpl.
  - destruct H as [H1 [H2 H3]]. repeat split; auto.
  - destruct (loop_body_invariant job st c H) as [H1 [H2 [H3 H4]]].
    destruct (IH (loop_body job st c) (conj H1 (conj H2 H3))) as [K1 [K2 [K3 K4]]].
    repeat split; auto. rewrite K4, H4. lia.
Qed.

(** The new names the loop computes are pairwise distinct, in clean form,
    and as many as the old ones. *)
Lemma loop_new_cols (job : string) (old_cols : list string) :
  NoDup (st_new_cols (loop job old_cols)) /\
  Forall clean_form (st_new_cols (loop job old_cols)) /\
  List.length (st_new_cols (loop job old_cols)) = List.length old_cols.
Proof.
  unfold loop.
  destruct (loop_fold_invariant job old_cols (mkLoop [] [] [] [])) as [_ [H2 [H3 H4]]].
  - simpl. repeat split; constructor.
  - repeat split; assumption.
Qed.

Lemma map_fst_combine {A B} (l : list A) (l' : list B) :
  List.length l = List.length l' -> map fst (combine l l') = l.
Proof.
  revert l'. induction l as [|a l IH]; intros [|b l'] H; simpl in *;
    try discriminate; [reflexivity|]. f_equal. apply IH. lia.
Qed.

Lemma renamed_column_names (m : pdict string) (df : frame) :
  column_names (rename_columns m df) =
  map (fun k => dict_get_default m k k) (column_names df).
Proof. unfold column_names, rename_columns. simpl. now rewrite !map_map. Qed.

Lemma clean_form_valid (s : string) : clean_form s -> valid_name s.
Proof. now intros [H _]. Qed.

(** Whatever the labels of the input, every output label is one of the new
    names: non-empty, over [a-z0-9_], not starting with a digit. *)
Lemma normalizer_names_valid (df : frame) (context : PipelineContext) :
  Forall valid_name (column_names (res_df (fst (run df context)))).
Proof.
  unfold run. simpl. rewrite renamed_column_names.
  set (old := column_names df).
  destruct (loop_new_cols (ctx_job_id context) old) as [_ [Hcl Hlen]].
  set (new := st_new_cols (loop (ctx_job_id context) old)) in *.
  apply Forall_forall. intros x Hx. apply in_map_iff in Hx as [k [<- Hk]].
  unfold dict_get_default, rename_map, dict_of_pairs.
  destruct (dict_get _ k) as [v|] eqn:E.
  - apply dict_fold_get_in in E as [Hin | Hget]; [|discriminate Hget].
    apply in_combine_r in Hin. apply clean_form_valid.
    now apply (proj1 (Forall_forall _ _) Hcl).
  - exfalso. revert E. apply dict_fold_has_key.
    rewrite map_fst_combine by (symmetry; exact Hlen). exact Hk.
Qed.

(** On pairwise distinct input labels the output labels are the new names
    of the loop: pairwise distinct and in clean form. *)
Lemma normalizer_distinct_labels (df : frame) (context : PipelineContext) :
  NoDup (column_names df) ->
  column_names (res_df (fst (run df context))) =
    st_new_cols (loop (ctx_job_id context) (column_names df)) /\
  NoDup (column_names (res_df (fst (run df context)))) /\
  Forall clean_form (column_names (res_df (fst (run df context)))).
Proof.
  intros Hnd. unfold run. simpl. rewrite renamed_column_names.
  set (old := column_names df) in *.
  destruct (loop_new_cols (ctx_job_id context) old) as [Hnd' [Hcl Hlen]].
  set (new := st_new_cols (loop (ctx_job_id context) old)) in *.
  assert (E : map (fun k => dict_get_default (rename_map old new) k k) old = new).
  { unfold rename_map. rewrite dict_of_pairs_nodup.
    - apply dict_get_combine; [exact Hnd | now symmetry].
    - rewrite map_fst_combine by (symmetry; exact Hlen). exact Hnd. }
  rewrite E. repeat split; assumption.
Qed.

(** A table whose labels are pairwise distinct and in clean form goes
    through the loop untouched. *)
Lemma loop_on_clean_names (job : string) (names seen new mods : list string)
  (logs : list log_entry) :
  NoDup names -> Forall clean_form names ->
  (forall n, In n names -> ~ In n seen) ->
  fold_left (loop_body job) names (mkLoop seen new mods logs) =
  mkLoop (List.rev names ++ seen) (new ++ names) mods logs.
Proof.
  revert seen new. induction names as [|n names IH]; intros seen new Hnd Hcl Hdis; simpl.
  - now rewrite app_nil_r.
  - inversion Hnd as [|? ? Hn Hnd']; subst. inversion Hcl as [|? ? Hc Hcl']; subst.
    unfold loop_body at 2. simpl.
    rewrite (clean_name_fixed n Hc).
    rewrite (deduplicate_absent n seen) by (apply Hdis; now left).
    rewrite String.eqb_refl. simpl.
    rewrite IH; try assumption.
    + rewrite <- !app_assoc. reflexivity.
    + intros x Hx [<-|Hin]; [contradiction|].
      apply (Hdis x); [now right | exact Hin].
Qed.

Lemma identity_rename (names : list string) (k : string) :
  dict_get_default (rename_map names names) k k = k.
Proof.
  unfold dict_get_default, rename_map, dict_of_pairs.
  destruct (dict_get _ k) as [v|] eqn:E; [|reflexivity].
  apply dict_fold_get_in in E as [Hin | Hget]; [|discriminate Hget].
  clear -Hin. induction names as [|n names IH]; simpl in Hin; [contradiction|].
  destruct Hin as [Heq | Hin]; [now injection Heq as -> -> | auto].
Qed.

Lemma identity_rename_frame (names : list string) (df : frame) :
  rename_columns (rename_map names names) df = df.
Proof.
  destruct df as [d n cols]. unfold rename_columns. simpl. f_equal.
  induction cols as [|[cn cd cc] cols IH]; simpl; [reflexivity|].
  now rewrite identity_rename, IH.
Qed.

(** C4 (the code at the failing input).  The loop computes pairwise
    distinct new names, but they are applied through a dictionary keyed by
    the old label: two columns with the same label both receive the last
    new name, and the output labels are no longer pairwise distinct. *)
Theorem normalizer_duplicate_labels_collapse :
  st_new_cols (loop "job-1" (column_names df_duplicate_labels)) = ["a"; "a_1"] /\
  column_names (res_df (fst (run df_duplicate_labels sample_context))) = ["a_1"; "a_1"] /\
  ~ NoDup (column_names (res_df (fst (run df_duplicate_labels sample_context)))).
Proof.
  split; [reflexivity|]. split; [reflexivity|].
  intros H. change (NoDup ["a_1"; "a_1"]) in H.
  inversion H as [|? ? Hn _]; subst. apply Hn. now left.
Qed.

(** C9 (counterexample).  The label [a__b] is lowercase, made of letters
    and underscores, does not start with a digit and is alone in its table;
    the normalizer renames it to [a_b] and logs the rename. *)
Lemma normalizer_renames_double_underscore :
  spec_normalized (column_names df_double_underscore) /\
  column_names (res_df (fst (run df_double_underscore sample_context))) = ["a_b"] /\
  res_logs (fst (run df_double_underscore sample_context)) =
    [rename_log "job-1" "a__b" "a_b"].
Proof.
  split; [|split; reflexivity].
  split.
  - constructor; [intros []|constructor].
  - constructor; [|constructor]. split; reflexivity.
Qed.

(** C9 (amended).  On a table whose labels are pairwise distinct and in
    clean form (non-empty, over [a-z0-9_], no leading digit, no underscore
    at either end and no two underscores in a row) the normalizer returns
    the table unchanged, logs nothing and reports no modified column; and
    on every table whose labels are pairwise distinct, running the
    normalizer on its own output gives the same labels as running it
    once. *)
Theorem normalizer_idempotent (df : frame) (context context' : PipelineContext) :
  NoDup (column_names df) ->
  (Forall clean_form (column_names df) ->
     res_df (fst (run df context)) = df /\
     res_logs (fst (run df context)) = [] /\
     res_modified_columns (fst (run df context)) = []) /\
  column_names (res_df (fst (run (res_df (fst (run df context))) context'))) =
    column_names (res_df (fst (run df context))).
Proof.
  intros Hnd.
  assert (Hclean : forall d c, NoDup (column_names d) ->
            Forall clean_form (column_names d) ->
            res_df (fst (run d c)) = d /\
            res_logs (fst (run d c)) = [] /\
            res_modified_columns (fst (run d c)) = []).
  { intros d c Hn Hc. unfold run, loop. simpl.
    rewrite (loop_on_clean_names (ctx_job_id c) (column_names d) [] [] [] [] Hn Hc)
      by (intros n _ []).
    simpl. now rewrite identity_rename_frame. }
  split; [now apply Hclean|].
  destruct (normalizer_distinct_labels df context Hnd) as [_ [Hnd1 Hcl1]].
  destruct (Hclean (res_df (fst (run df context))) context' Hnd1 Hcl1) as [E _].
  now rewrite E.
Qed.

Lemma normalizer_idempotent_witness :
  (Forall clean_form (column_names df_messy_labels) ->
     res_df (fst (run df_messy_labels sample_context)) = df_messy_labels /\
     res_logs (fst (run df_messy_labels sample_context)) = [] /\
     res_modified_columns (fst (run df_messy_labels sample_context)) = []) /\
  column_names
    (res_df (fst (run (res_df (fst (run df_messy_labels sample_context))) sample_context))) =
    column_names (res_df (fst (run df_messy_labels sample_context))).
Proof.
  apply (normalizer_idempotent df_messy_labels sample_context sample_context).
  repeat constructor; simpl; intuition discriminate.
Defined.

Example normalizer_messy_labels :
  column_names (res_df (fst (run df_messy_labels sample_context))) =
    ["first_name"; "first_name_1"; "col_2nd"].
Proof. reflexivity. Qed.

(** ** Ratios of counts against a threshold *)

Lemma Zpos_of_nat (n : nat) : n <> 0 -> Z.pos (Pos.of_nat n) = Z.of_nat n.
Proof.
  intros Hn. destruct n as [|n]; [congruence|].
  rewrite <- Pos.of_nat_succ. reflexivity.
Qed.

Lemma Qnat_ratio (k n : nat) :
  n <> 0 -> (Qnat k / Qnat n == Z.of_nat k # Pos.of_nat n)%Q.
Proof.
  intros Hn. rewrite (Qmake_Qdiv (Z.of_nat k) (Pos.of_nat n)).
  unfold Qnat. now rewrite (Zpos_of_nat n Hn).
Qed.

Lemma Qltb_lt (a b : Q) : Qltb a b = true <-> (a < b)%Q.
Proof.
  unfold Qltb. rewrite negb_true_iff. split.
  - intros H. apply Qnot_le_lt. intros Hle. apply Qle_bool_iff in Hle. congruence.
  - intros H. destruct (Qle_bool b a) eqn:E; [|reflexivity].
    apply Qle_bool_iff in E. exfalso. now apply (Qlt_not_le a b).
Qed.

Lemma Qle_bool_le (a b : Q) : Qle_bool a b = true <-> (a <= b)%Q.
Proof. apply Qle_bool_iff. Qed.

(** [a/b < k/n] on counts, cross-multiplied. *)
Lemma ratio_above (a : Z) (b : positive) (k n : nat) :
  n <> 0 ->
  Qltb (a # b) (Qnat k / Qnat n) = true <-> (a * Z.of_nat n < Z.pos b * Z.of_nat k)%Z.
Proof.
  intros Hn. rewrite Qltb_lt, (Qnat_ratio k n Hn). unfold Qlt. cbn [Qnum Qden].
  rewrite (Zpos_of_nat n Hn). split; intros H; nia.
Qed.

Lemma ratio_below (a : Z) (b : positive) (k n : nat) :
  n <> 0 ->
  Qltb (Qnat k / Qnat n) (a # b) = true <-> (Z.pos b * Z.of_nat k < a * Z.of_nat n)%Z.
Proof.
  intros Hn. rewrite Qltb_lt, (Qnat_ratio k n Hn). unfold Qlt. cbn [Qnum Qden].
  rewrite (Zpos_of_nat n Hn). split; intros H; nia.
Qed.

Lemma ratio_at_least (a : Z) (b : positive) (k n : nat) :
  n <> 0 ->
  Qle_bool (a # b) (Qnat k / Qnat n) = true <-> (a * Z.of_nat n <= Z.pos b * Z.of_nat k)%Z.
Proof.
  intros Hn. rewrite Qle_bool_le, (Qnat_ratio k n Hn). unfold Qle. cbn [Qnum Qden].
  rewrite (Zpos_of_nat n Hn). split; intros H; nia.
Qed.

(** ** Columns of a table *)

Lemma find_set_same (cols : list column) (c : column) :
  find_column (set_column cols c) (col_name c) = Some c.
Proof.
  induction cols as [|c' cols IH]; simpl.
  - now rewrite String.eqb_refl.
  - destruct (String.eqb (col_name c) (col_name c')) eqn:E; simpl.
    + now rewrite String.eqb_refl.
    + now rewrite E.
Qed.

Lemma find_set_other (cols : list column) (c : column) (n : string) :
  n <> col_name c -> find_column (set_column cols c) n = find_column cols n.
Proof.
  intros Hne. induction cols as [|c' cols IH]; simpl.
  - destruct (String.eqb n (col_name c)) eqn:E; [|reflexivity].
    apply String.eqb_eq in E. congruence.
  - destruct (String.eqb (col_name c) (col_name c')) eqn:E; simpl.
    + apply String.eqb_eq in E.
      destruct (String.eqb n (col_name c)) eqn:E1;
        [apply String.eqb_eq in E1; congruence|].
      destruct (String.eqb n (col_name c')) eqn:E2;
        [apply String.eqb_eq in E2; congruence | reflexivity].
    + destruct (String.eqb n (col_name c')); [reflexivity | exact IH].
Qed.

Lemma find_column_name (cols : list column) (n : string) (c : column) :
  find_column cols n = Some c -> col_name c = n /\ In c cols.
Proof.
  induction cols as [|c' cols IH]; simpl; [discriminate|].
  destruct (String.eqb n (col_name c')) eqn:E.
  - intros H. injection H as <-. apply String.eqb_eq in E. auto.
  - intros H. destruct (IH H). auto.
Qed.

Lemma find_column_in (cols : list column) (c : column) :
  NoDup (map col_name cols) -> In c cols -> find_column cols (col_name c) = Some c.
Proof.
  induction cols as [|c' cols IH]; simpl; [contradiction|].
  intros Hnd [->|Hin].
  - now rewrite String.eqb_refl.
  - inversion Hnd as [|? ? Hn Hnd']; subst.
    destruct (String.eqb (col_name c) (col_name c')) eqn:E; [|now apply IH].
    apply String.eqb_eq in E. exfalso. apply Hn. rewrite <- E. now apply in_map.
Qed.

Lemma find_column_none (cols : list column) (n : string) :
  find_column cols n = None <-> ~ In n (map col_name cols).
Proof.
  induction cols as [|c' cols IH]; simpl; [tauto|].
  destruct (String.eqb n (col_name c')) eqn:E.
  - apply String.eqb_eq in E. split; [discriminate | intros H; exfalso; auto].
  - apply String.eqb_neq in E. rewrite IH. split; [intros H [K|K]; auto | tauto].
Qed.

Lemma set_column_names_present (cols : list column) (c : column) :
  In (col_name c) (map col_name cols) ->
  map col_name (set_column cols c) = map col_name cols.
Proof.
  induction cols as [|c' cols IH]; simpl; [contradiction|].
  destruct (String.eqb (col_name c) (col_name c')) eqn:E; simpl.
  - apply String.eqb_eq in E. now rewrite E.
  - apply String.eqb_neq in E. intros [H|H]; [congruence|]. now rewrite IH.
Qed.

Lemma set_column_names_absent (cols : list column) (c : column) :
  ~ In (col_name c) (map col_name cols) ->
  map col_name (set_column cols c) = map col_name cols ++ [col_name c].
Proof.
  induction cols as [|c' cols IH]; simpl; [reflexivity|].
  intros H. destruct (String.eqb (col_name c) (col_name c')) eqn:E.
  - apply String.eqb_eq in E. exfalso. auto.
  - simpl. rewrite IH; [reflexivity | tauto].
Qed.

(** *** Selecting a column *)

Lemma filter_eqb_absent (names : list string) (col : string) :
  ~ In col names -> filter (String.eqb col) names = [].
Proof.
  induction names as [|a names IH]; simpl; intros H; [reflexivity|].
  destruct (String.eqb col a) eqn:E.
  - apply String.eqb_eq in E. exfalso. apply H. now left.
  - apply IH. tauto.
Qed.

Lemma filter_eqb_nodup (names : list string) (col : string) :
  NoDup names -> List.length (filter (String.eqb col) names) <= 1.
Proof.
  induction 1 as [|a names Hn Hnd IH]; simpl; [lia|].
  destruct (String.eqb col a) eqn:E; [|exact IH].
  apply String.eqb_eq in E. subst a. rewrite (filter_eqb_absent names col Hn). simpl. lia.
Qed.

Lemma select_get (df : frame) (col : string) (c : column) :
  select df col = Ok c -> frame_get df col = Some c.
Proof.
  unfold select. destruct (frame_get df col); [|discriminate].
  destruct (Nat.ltb 1 (count_label df col)); [discriminate|].
  intros H. now injection H as ->.
Qed.

(** Under pairwise distinct labels every label selects its column. *)
Lemma select_unique (df : frame) (col : string) :
  NoDup (column_names df) -> In col (column_names df) ->
  exists c, select df col = Ok c.
Proof.
  intros Hnd Hin. unfold select. destruct (frame_get df col) as [c|] eqn:E.
  - exists c.
    assert (H : Nat.ltb 1 (count_label df col) = false).
    { apply Nat.ltb_ge. now apply filter_eqb_nodup. }
    now rewrite H.
  - exfalso. apply find_column_none in E. contradiction.
Qed.

(** A label of the table whose selection raises is carried by several
    columns. *)
Lemma select_raises_repeated (df : frame) (col msg : string) :
  In col (column_names df) -> select df col = Raise msg -> ~ NoDup (column_names df).
Proof.
  intros Hin Hs Hnd. destruct (select_unique df col Hnd Hin) as [c Hc]. congruence.
Qed.

(** *** Entries keyed by a label *)

(** When every label contributes at most one entry, keyed by the label,
    pairwise distinct labels give pairwise distinct keys. *)
Lemma flat_map_keys_nodup {A} (key : A -> option string) (f : string -> list A)
  (names : list string) :
  (forall col, List.length (f col) <= 1 /\ Forall (fun l => key l = Some col) (f col)) ->
  NoDup names -> NoDup (map key (flat_map f names)).
Proof.
  intros Hf Hnd.
  assert (Hin : forall l k, In k (map key (flat_map f l)) ->
                  exists col, In col l /\ k = Some col).
  { intros l k Hk. apply in_map_iff in Hk as [x [<- Hx]].
    apply in_flat_map in Hx as [col [Hcol Hx]]. exists col. split; [exact Hcol|].
    destruct (Hf col) as [_ Hall]. now apply (proj1 (Forall_forall _ _) Hall). }
  induction Hnd as [|col names Hnot Hnd IH]; cbn [flat_map map]; [constructor|].
  rewrite map_app. destruct (Hf col) as [Hlen Hall].
  destruct (f col) as [|x [|y tl]]; cbn [map app]; [exact IH| |simpl in Hlen; lia].
  constructor; [|exact IH]. intros Hk.
  apply Hin in Hk as [col' [Hcol' Hk]].
  inversion Hall as [|? ? Hx _]; subst. rewrite Hx in Hk. injection Hk as ->. contradiction.
Qed.


(** ** Schema Analyzer *)

Section SchemaAnalyzerProperties.
Import SchemaAnalyzer.

Variable to_datetime : list value -> option (list cell).
Variable repr_other : value -> string.

Lemma dict_get_default_in {V} (d : pdict V) (k : string) (dflt : V) (S : list V) :
  Forall (fun kv => In (snd kv) S) d -> In dflt S -> In (dict_get_default d k dflt) S.
Proof.
  intros Hd Hdf. unfold dict_get_default.
  induction Hd as [|[k' v'] d Hv Hd IH]; simpl; [exact Hdf|].
  destruct (String.eqb k k'); [exact Hv | exact IH].
Qed.

Lemma to_pipeline_role_valid (r : string) :
  In (DomainProfiles.to_pipeline_role r) pipeline_roles.
Proof.
  unfold DomainProfiles.to_pipeline_role. apply dict_get_default_in.
  - apply Forall_forall. intros kv Hin.
    unfold DomainProfiles.PIPELINE_ROLE_ALIASES in Hin. simpl in Hin.
    repeat (destruct Hin as [<-|Hin]; [simpl; tauto|]). contradiction.
  - simpl; tauto.
Qed.

Lemma text_rule_valid (cells : list cell) :
  In (text_rule to_datetime repr_other cells) pipeline_roles.
Proof.
  unfold text_rule. destruct (to_datetime (dropna cells)); [|simpl; tauto].
  destruct (nan_gt _ _); [simpl; tauto|].
  destruct (nan_gt _ _); simpl; tauto.
Qed.

Lemma infer_role_valid (len : nat) (c : column) :
  match infer_role to_datetime repr_other len c with
  | Ok (role, _) => In role pipeline_roles
  | Raise _ => len = 0
  end.
Proof.
  unfold infer_role.
  destruct (Nat.eqb (nunique (col_cells c)) 1); [simpl; tauto|].
  destruct (Nat.eqb len 0) eqn:E; [now apply Nat.eqb_eq in E|].
  destruct (Qltb _ _).
  - destruct (has_id_token (col_name c) || is_integer_dtype (col_dtype c)); simpl; tauto.
  - destruct (is_object_dtype (col_dtype c)); [apply text_rule_valid|].
    destruct (is_datetime64_any_dtype (col_dtype c)); simpl; tauto.
Qed.

Lemma has_role_set (ctx : PipelineContext) (col role k : string) :
  In role pipeline_roles ->
  (k = col \/ has_role ctx k) -> has_role (set_role ctx col role) k.
Proof.
  intros Hr Hk. unfold has_role, set_role. simpl.
  destruct (string_dec col k) as [->|Hne].
  - exists role. now rewrite dict_get_set_eq.
  - destruct Hk as [->|[r [Hg Hin]]]; [congruence|].
    exists r. now rewrite dict_get_set_neq.
Qed.

Lemma role_log_is_assignment (job col role : string) (b : bool) :
  In role pipeline_roles -> is_role_assignment col (role_log job col role b).
Proof.
  intros H. repeat split. exists role. split; [reflexivity | exact H].
Qed.

Lemma step_column_spec (kc : pdict (pdict string)) (sample : frame)
  (ctx : PipelineContext) (logs : list log_entry) (col : string) :
  In col (column_names sample) ->
  match step_column to_datetime repr_other kc sample (ctx, logs) col with
  | Ok (ctx', logs') =>
      has_role ctx' col /\
      (forall k, has_role ctx k -> has_role ctx' k) /\
      exists l, logs' = logs ++ [l] /\ is_role_assignment col l
  | Raise _ => n_rows sample = 0 \/ ~ NoDup (column_names sample)
  end.
Proof.
  intros Hin. unfold step_column. destruct (profile_role kc col) as [r|].
  - pose proof (to_pipeline_role_valid r) as Hr. repeat split.
    + apply has_role_set; auto.
    + intros k Hk. apply has_role_set; auto.
    + eexists. split; [reflexivity|]. now apply role_log_is_assignment.
  - destruct (select sample col) as [c|msg] eqn:Es.
    2:{ right. now apply (select_raises_repeated sample col msg). }
    pose proof (infer_role_valid (n_rows sample) c) as Hi.
    destruct (infer_role to_datetime repr_other (n_rows sample) c) as [[role w]|e];
      [|now left].
    assert (Hw : forall k, has_role ctx k ->
                   has_role (match w with Some m => add_warning ctx m | None => ctx end) k).
    { intros k Hk. destruct w; exact Hk. }
    repeat split.
    + apply has_role_set; auto.
    + intros k Hk. apply has_role_set; auto.
    + eexists. split; [reflexivity|]. now apply role_log_is_assignment.
Qed.

Lemma for_columns_spec (kc : pdict (pdict string)) (sample : frame) (cols : list string)
  (ctx : PipelineContext) (logs : list log_entry) :
  (forall col, In col cols -> In col (column_names sample)) ->
  match for_columns to_datetime repr_other kc sample cols (ctx, logs) with
  | Ok (ctx', logs') =>
      (forall k, In k cols \/ has_role ctx k -> has_role ctx' k) /\
      exists new_logs, logs' = logs ++ new_logs /\
                       Forall2 is_role_assignment cols new_logs
  | Raise _ => n_rows sample = 0 \/ ~ NoDup (column_names sample)
  end.
Proof.
  revert ctx logs. induction cols as [|col cols IH]; intros ctx logs Hsub;
    cbn [for_columns].
  - split; [intros k [[]|H]; exact H|]. exists []. split; [now rewrite app_nil_r | constructor].
  - pose proof (step_column_spec kc sample ctx logs col (Hsub col (or_introl eq_refl))) as Hs.
    destruct (step_column to_datetime repr_other kc sample (ctx, logs) col)
      as [[ctx1 logs1]|e]; [|exact Hs].
    destruct Hs as [Hc [Hkeep [l [-> Hl]]]].
    specialize (IH ctx1 (logs ++ [l]) (fun c Hc0 => Hsub c (or_intror Hc0))).
    destruct (for_columns to_datetime repr_other kc sample cols (ctx1, logs ++ [l]))
      as [[ctx2 logs2]|e]; [|exact IH].
    destruct IH as [Hall [new_logs [-> Hnew]]]. split.
    + intros k [[<-|Hin]|Hk]; apply Hall; auto.
    + exists (l :: new_logs). split; [now rewrite <- app_assoc | now constructor].
Qed.

Lemma frame_head_names (n : nat) (df : frame) :
  map col_name (columns (frame_head n df)) = column_names df.
Proof. unfold frame_head, column_names. simpl. now rewrite map_map. Qed.

(** C10.  Whenever the step returns, the table is handed back as it came,
    the schema holds a role name for every column of the table, and the
    log holds, column by column and in order, one [role_assignment] entry
    that records a role name.  The step fails to return only on a table
    without rows (a division by zero in the uniqueness ratio) or on a table
    in which two columns carry the same label (the selection of the column
    for its dtype raises). *)
Theorem schema_analyzer_assigns_every_column (df : frame) (context : PipelineContext) :
  match run to_datetime repr_other df context with
  | Ok (res, context') =>
      res_df res = df /\
      (forall col, In col (column_names df) -> has_role context' col) /\
      Forall2 is_role_assignment (column_names df) (res_logs res)
  | Raise _ => n_rows df = 0 \/ ~ NoDup (column_names df)
  end.
Proof.
  unfold run.
  set (kc := DomainProfiles.get_domain_profile (ctx_domain context)).
  set (sample := if frame_is_dask df
                 then frame_head (Nat.min (100 * 100) (n_rows df)) df else df).
  assert (Hnames : column_names sample = column_names df).
  { unfold sample. destruct (frame_is_dask df); [apply frame_head_names | reflexivity]. }
  assert (Hrows : n_rows sample = 0 -> n_rows df = 0).
  { unfold sample. destruct (frame_is_dask df); [|auto].
    unfold frame_head. cbn [n_rows]. intros H.
    destruct (n_rows df); [reflexivity|]. change (100 * 100) with (S (100 * 100 - 1)) in H.
    simpl Nat.min in H. discriminate H. }
  pose proof (for_columns_spec kc sample (column_names df) context []) as H.
  rewrite Hnames in H. specialize (H (fun col Hc => Hc)).
  destruct (for_columns to_datetime repr_other kc sample (column_names df)
              (context, [])) as [[ctx' logs]|e].
  - destruct H as [Hall [new_logs [-> Hlogs]]]. repeat split; auto.
  - destruct H as [H|H]; [left; auto | right; exact H].
Qed.

End SchemaAnalyzerProperties.

(** C3 (the code at the failing input).  In [df_reviews] every value of
    the string column [comment] is distinct, the label has no id-like token
    and the dtype is not integer; the values are longer than 50 characters
    on average, so rule 4 on its own gives [text_col].  The run assigns
    [feature_col]: the uniqueness branch is taken and nothing below it is
    tried.  The same happens to the [date_joined] column of the
    repository's test, which expects [datetime_col]. *)
Theorem schema_unique_text_column_is_feature
  (to_datetime : list value -> option (list cell)) (repr_other : value -> string) :
  let cells := [Some (VStr SchemaAnalyzer.long_text_1);
                Some (VStr SchemaAnalyzer.long_text_2);
                Some (VStr SchemaAnalyzer.long_text_3)] in
  SchemaAnalyzer.has_id_token "comment" = false /\
  SchemaAnalyzer.text_rule SchemaAnalyzer.no_date_parses repr_other cells = "text_col" /\
  assigned_role (SchemaAnalyzer.run to_datetime repr_other SchemaAnalyzer.df_reviews
                   sample_context) "comment" = Some "feature_col" /\
  assigned_role (SchemaAnalyzer.run to_datetime repr_other SchemaAnalyzer.df_date_joined
                   sample_context) "date_joined" = Some "feature_col".
Proof. repeat split; reflexivity. Qed.

Example schema_roles_sample :
  ctx_schema
    (match SchemaAnalyzer.run SchemaAnalyzer.no_date_parses SchemaAnalyzer.repr_blank
             SchemaAnalyzer.df_roles sample_context with
     | Ok (_, c) => c
     | Raise _ => sample_context
     end) =
  [("user_id", "id_col"); ("country", "constant_col"); ("plan", "feature_col");
   ("seen_at", "datetime_col")].
Proof. reflexivity. Qed.

(** ** Type Fixer *)

(** Entries gathered label by label, each tagged with its label, are found
    again by filtering on the label. *)
Lemma filter_flat_map_tagged {A} (sel : A -> string -> bool) (f : string -> list A)
  (names : list string) (col : string) :
  (forall n x, In x (f n) -> forall m, sel x m = String.eqb n m) ->
  NoDup names -> In col names ->
  filter (fun x => sel x col) (flat_map f names) = f col.
Proof.
  intros Htag Hnd Hin.
  assert (Hself : forall n, filter (fun x => sel x n) (f n) = f n).
  { intros n. apply forallb_filter_id. apply forallb_forall. intros x Hx.
    rewrite (Htag n x Hx). apply String.eqb_refl. }
  assert (Hother : forall n, n <> col -> filter (fun x => sel x col) (f n) = []).
  { intros n Hne.
    assert (Hl : forall y, In y (f n) -> sel y col = false).
    { intros y Hy. rewrite (Htag n y Hy col). now apply String.eqb_neq. }
    induction (f n) as [|y l IH]; [reflexivity|].
    simpl. rewrite (Hl y (or_introl eq_refl)). apply IH. intros z Hz. apply Hl. now right. }
  induction names as [|n names IH]; [contradiction|]. simpl.
  rewrite filter_app. inversion Hnd as [|? ? Hn Hnd']; subst.
  destruct Hin as [->|Hin].
  - rewrite Hself.
    assert (E : filter (fun x => sel x col) (flat_map f names) = []).
    { clear IH Hnd Hnd'. induction names as [|m names IH]; [reflexivity|]. simpl.
      rewrite filter_app, Hother, IH; [reflexivity | |].
      - intros H. apply Hn. now right.
      - intros ->. apply Hn. now left. }
    rewrite E. apply app_nil_r.
  - rewrite Hother by (intros ->; contradiction). simpl. now apply IH.
Qed.

Lemma flat_map_ext_in {A B} (f g : A -> list B) (l : list A) :
  (forall a, In a l -> f a = g a) -> flat_map f l = flat_map g l.
Proof.
  induction l as [|a l IH]; intros H; [reflexivity|]. simpl.
  rewrite (H a (or_introl eq_refl)), IH; [reflexivity|].
  intros b Hb. apply H. now right.
Qed.

Lemma filter_map_length {A} (f : A -> bool) (l : list A) :
  List.length (filter (fun b => b) (map f l)) = List.length (filter f l).
Proof.
  induction l as [|x l IH]; [reflexivity|]. simpl. destruct (f x); simpl; now rewrite IH.
Qed.

Section TypeFixerProperties.
Import TypeFixer.

Variable parse_number : string -> option Q.
Variable repr_other : value -> string.
Variable to_datetime : list cell -> outcome (list cell).

Local Abbreviation fix_col := (fix_column parse_number repr_other to_datetime).
Local Abbreviation body := (loop_body parse_number repr_other to_datetime).
Local Abbreviation effect := (column_effect parse_number repr_other to_datetime).

Lemma fix_column_name (is_dask : bool) (len : nat) (role : option string) (c : column) :
  col_name (fst (fix_col is_dask len role c)) = col_name c.
Proof.
  unfold fix_column.
  destruct (sample_of is_dask len _); [reflexivity|].
  destruct (numeric_test _ _); [reflexivity|].
  destruct (boolean_test _ _); [reflexivity|].
  destruct role as [r|]; [|reflexivity].
  destruct (String.eqb r "datetime_col"); [|reflexivity].
  destruct (to_datetime _); reflexivity.
Qed.

(** More than 95% and fewer than 100% of the sample, on counts. *)
Lemma numeric_test_counts (sample : list cell) :
  numeric_test parse_number sample = true <->
  95 * List.length sample < 100 * valid_count parse_number sample /\
  valid_count parse_number sample < List.length sample.
Proof.
  unfold numeric_test, valid_num_pct, valid_count, mean_of_bools.
  destruct sample as [|c0 sample']; [simpl; split; [discriminate | lia]|].
  set (sample := c0 :: sample').
  assert (Hn : List.length sample <> 0) by (unfold sample; simpl; lia).
  change (map (fun c => notna (to_numeric_cell parse_number c)) (c0 :: sample'))
    with (map (fun c => notna (to_numeric_cell parse_number c)) sample).
  destruct (map (fun c => notna (to_numeric_cell parse_number c)) sample) eqn:E;
    [discriminate E|].
  rewrite <- E. clear E. rewrite filter_map_length, length_map.
  unfold nan_gt, nan_lt. rewrite andb_true_iff.
  change 1%Q with (1 # 1)%Q.
  rewrite (ratio_above 95 100 _ _ Hn), (ratio_below 1 1 _ _ Hn). lia.
Qed.

Lemma body_effect (context : PipelineContext) (st : loop_state) (col : string) :
  let st' := body context st col in
  frame_is_dask (st_df st') = frame_is_dask (st_df st) /\
  n_rows (st_df st') = n_rows (st_df st) /\
  (forall n, frame_get (st_df st') n =
             if String.eqb n col then
               match effect context (st_df st) col with
               | Some (c', _) => Some c'
               | None => frame_get (st_df st) col
               end
             else frame_get (st_df st) n) /\
  st_logs st' = st_logs st ++
                match effect context (st_df st) col with
                | Some (_, d) => step_logs (ctx_job_id context) col d
                | None => []
                end /\
  st_modified st' = st_modified st ++
                    match effect context (st_df st) col with
                    | Some (_, d) => step_modified col d
                    | None => []
                    end.
Proof.
  unfold loop_body, column_effect.
  assert (Hsame : forall n, (if String.eqb n col then frame_get (st_df st) col
                             else frame_get (st_df st) n) = frame_get (st_df st) n).
  { intros n. destruct (String.eqb n col) eqn:E; [|reflexivity].
    apply String.eqb_eq in E. now subst. }
  destruct (frame_get (st_df st) col) as [c|] eqn:Hget.
  - destruct (is_object_dtype (col_dtype c)).
    + pose proof (fix_column_name (frame_is_dask (st_df st)) (n_rows (st_df st))
                    (dict_get (ctx_schema context) col) c) as Hname.
      destruct (fix_col _ _ _ c) as [c' d]. simpl in Hname. simpl.
      apply find_column_name in Hget as [Hc _].
      repeat split; try reflexivity. intros n. unfold frame_get. simpl.
      destruct (String.eqb n col) eqn:E.
      * apply String.eqb_eq in E. subst n. rewrite <- Hc, <- Hname. apply find_set_same.
      * apply String.eqb_neq in E. apply find_set_other. congruence.
    + simpl. rewrite !app_nil_r. repeat split; try reflexivity.
      intros n. symmetry. apply Hsame.
  - simpl. rewrite !app_nil_r. repeat split; try reflexivity.
    intros n. symmetry. apply Hsame.
Qed.

Lemma effect_ext (context : PipelineContext) (df df' : frame) (n : string) :
  frame_is_dask df' = frame_is_dask df -> n_rows df' = n_rows df ->
  frame_get df' n = frame_get df n ->
  effect context df' n = effect context df n.
Proof. intros H1 H2 H3. unfold column_effect. now rewrite H1, H2, H3. Qed.

Lemma fold_effect (context : PipelineContext) (names : list string) (st : loop_state) :
  NoDup names ->
  let st' := fold_left (body context) names st in
  frame_is_dask (st_df st') = frame_is_dask (st_df st) /\
  n_rows (st_df st') = n_rows (st_df st) /\
  (forall n, frame_get (st_df st') n =
             match effect context (st_df st) n with
             | Some (c', _) => if mem_str n names then Some c' else frame_get (st_df st) n
             | None => frame_get (st_df st) n
             end) /\
  st_logs st' = st_logs st ++
                flat_map (fun n => match effect context (st_df st) n with
                                   | Some (_, d) => step_logs (ctx_job_id context) n d
                                   | None => []
                                   end) names /\
  st_modified st' = st_modified st ++
                    flat_map (fun n => match effect context (st_df st) n with
                                       | Some (_, d) => step_modified n d
                                       | None => []
                                       end) names.
Proof.
  revert st. induction names as [|n1 rest IH]; intros st Hnd.
  - simpl. rewrite !app_nil_r. repeat split; try reflexivity.
    intros n. destruct (effect context (st_df st) n) as [[c' d]|]; reflexivity.
  - inversion Hnd as [|? ? Hn1 Hnd']; subst.
    destruct (body_effect context st n1) as [B1 [B2 [B3 [B4 B5]]]].
    cbn [fold_left]. set (st1 := body context st n1) in *.
    destruct (IH st1 Hnd') as [I1 [I2 [I3 [I4 I5]]]].
    assert (Hext : forall n, n <> n1 ->
              effect context (st_df st1) n = effect context (st_df st) n).
    { intros n Hne. apply effect_ext; auto. rewrite B3.
      destruct (String.eqb n n1) eqn:E; [apply String.eqb_eq in E; congruence | reflexivity]. }
    split; [congruence|]. split; [congruence|]. split; [|split].
    + intros n. rewrite I3.
      change (mem_str n (n1 :: rest)) with (String.eqb n n1 || mem_str n rest).
      destruct (String.eqb n n1) eqn:E; cbn [orb].
      * apply String.eqb_eq in E. subst n.
        assert (Hm : mem_str n1 rest = false) by now apply mem_str_false.
        rewrite Hm.
        assert (Hg : frame_get (st_df st1) n1 =
                     match effect context (st_df st) n1 with
                     | Some (c', _) => Some c'
                     | None => frame_get (st_df st) n1
                     end).
        { rewrite B3. now rewrite String.eqb_refl. }
        destruct (effect context (st_df st1) n1) as [[c1 d1]|];
          rewrite Hg; destruct (effect context (st_df st) n1) as [[c' d]|]; reflexivity.
      * apply String.eqb_neq in E. rewrite (Hext n E).
        assert (Hg : frame_get (st_df st1) n = frame_get (st_df st) n).
        { rewrite B3. destruct (String.eqb n n1) eqn:E'; [|reflexivity].
          apply String.eqb_eq in E'. congruence. }
        rewrite Hg. reflexivity.
    + rewrite I4, B4. rewrite <- app_assoc. f_equal. cbn [flat_map]. f_equal.
      apply flat_map_ext_in. intros n Hin. rewrite Hext; [reflexivity|].
      intros ->. contradiction.
    + rewrite I5, B5. rewrite <- app_assoc. f_equal. cbn [flat_map]. f_equal.
      apply flat_map_ext_in. intros n Hin. rewrite Hext; [reflexivity|].
      intros ->. contradiction.
Qed.

(** The run, column by column: the column an object-typed column ends as,
    and what the step logged and reported as modified for it. *)
Lemma run_on_column (df : frame) (context : PipelineContext) (c : column) :
  NoDup (column_names df) -> In c (columns df) ->
  is_object_dtype (col_dtype c) = true ->
  let r := run parse_number repr_other to_datetime df context in
  let out := fix_col (frame_is_dask df) (n_rows df)
                     (dict_get (ctx_schema context) (col_name c)) c in
  frame_get (res_df r) (col_name c) = Some (fst out) /\
  logs_about (col_name c) (res_logs r) =
    step_logs (ctx_job_id context) (col_name c) (snd out) /\
  filter (fun m => String.eqb m (col_name c)) (res_modified_columns r) =
    step_modified (col_name c) (snd out).
Proof.
  intros Hnd Hin Hobj. unfold run. cbn [res_df res_logs res_modified_columns].
  destruct (fold_effect context (column_names df) (mkLoop df [] [] []) Hnd)
    as [_ [_ [F3 [F4 F5]]]].
  cbn [st_df st_logs st_modified] in F3, F4, F5.
  assert (Hget : frame_get df (col_name c) = Some c) by now apply find_column_in.
  assert (Heff : effect context df (col_name c) =
                 Some (fix_col (frame_is_dask df) (n_rows df)
                               (dict_get (ctx_schema context) (col_name c)) c)).
  { unfold column_effect. now rewrite Hget, Hobj. }
  assert (Hmem : In (col_name c) (column_names df)) by now apply in_map.
  split; [|split].
  - rewrite F3, Heff. destruct (fix_col _ _ _ c) as [c' d].
    apply mem_str_true in Hmem. now rewrite Hmem.
  - rewrite F4, app_nil_l. unfold logs_about.
    etransitivity.
    + apply (filter_flat_map_tagged
               (fun l m => match log_column_name l with
                           | Some n => String.eqb n m
                           | None => false
                           end) _ (column_names df) (col_name c));
        [|exact Hnd | exact Hmem].
      intros n x Hx m. destruct (effect context df n) as [[c' d]|]; [|contradiction].
      destruct d; simpl in Hx; try contradiction; destruct Hx as [<-|[]]; reflexivity.
    + cbv beta. rewrite Heff. now destruct (fix_col _ _ _ c).
  - rewrite F5, app_nil_l.
    etransitivity.
    + apply (filter_flat_map_tagged (fun x m => String.eqb x m) _
               (column_names df) (col_name c)); [|exact Hnd | exact Hmem].
      intros n x Hx m. destruct (effect context df n) as [[c' d]|]; [|contradiction].
      destruct d; simpl in Hx; try contradiction; destruct Hx as [<-|[]]; reflexivity.
    + cbv beta. rewrite Heff. now destruct (fix_col _ _ _ c).
Qed.

End TypeFixerProperties.

(** C5 (counterexample).  Nineteen of the twenty sampled values of
    [amount] coerce to a number: that is 95% of the sample and not all of
    it, yet the column is left as it was and nothing is logged. *)
Lemma type_fixer_exactly_95_percent_not_coerced :
  let r := TypeFixer.run TypeFixer.parse_digits TypeFixer.repr_blank
             TypeFixer.never_raises TypeFixer.df_nineteen_of_twenty sample_context in
  TypeFixer.valid_count TypeFixer.parse_digits TypeFixer.amount_cells = 19 /\
  List.length TypeFixer.amount_cells = 20 /\
  res_df r = TypeFixer.df_nineteen_of_twenty /\
  res_logs r = [] /\
  res_modified_columns r = [].
Proof. vm_compute. repeat split; reflexivity. Qed.

(** C5 (amended).  For every object-typed column of a table with pairwise
    distinct labels, with [n] the size of the sample and [k] the number of
    sampled values that coerce to a number:
    - if more than 95% and fewer than 100% of the sample coerce
      ([95 n < 100 k] and [k < n]), the whole column is coerced to numeric,
      the values that fail becoming nulls, whatever the other two tests
      would say;
    - otherwise, if the sampled tokens are all boolean or null-like, the
      column is mapped to booleans (its dtype is [bool] on the eager engine
      when every cell is mapped, [object] otherwise);
    - otherwise, if the role of the column is [datetime_col] and the
      conversion returns, the column is converted to datetimes;
    - in every case at most one coercion is applied: at most one log entry
      names the column and the column is reported as modified at most
      once. *)
Theorem type_fixer_coercion_order
  (parse_number : string -> option Q) (repr_other : value -> string)
  (to_datetime : list cell -> outcome (list cell))
  (df : frame) (context : PipelineContext) (c : column) :
  NoDup (column_names df) -> In c (columns df) ->
  is_object_dtype (col_dtype c) = true ->
  let r := TypeFixer.run parse_number repr_other to_datetime df context in
  let col := col_name c in
  let job := ctx_job_id context in
  let stripped := TypeFixer.strip_cells repr_other (frame_is_dask df) (col_cells c) in
  let sample := TypeFixer.sample_of (frame_is_dask df) (n_rows df) stripped in
  let n := List.length sample in
  let k := TypeFixer.valid_count parse_number sample in
  let numeric := 95 * n < 100 * k /\ k < n in
  let logged := TypeFixer.logs_about col (res_logs r) in
  let modified := filter (fun m => String.eqb m col) (res_modified_columns r) in
  (numeric ->
     frame_get (res_df r) col =
       Some (mkColumn col DFloat (map (TypeFixer.to_numeric_cell parse_number) stripped)) /\
     logged = [TypeFixer.coercion_log job "coerce_numeric" col] /\
     modified = [col]) /\
  (~ numeric -> n <> 0 -> TypeFixer.boolean_test repr_other sample = true ->
     frame_get (res_df r) col =
       Some (mkColumn col
               (TypeFixer.boolean_dtype (frame_is_dask df)
                  (map (TypeFixer.to_boolean_cell repr_other) stripped))
               (map (TypeFixer.to_boolean_cell repr_other) stripped)) /\
     logged = [TypeFixer.coercion_log job "coerce_boolean" col] /\
     modified = [col]) /\
  (~ numeric -> n <> 0 -> TypeFixer.boolean_test repr_other sample = false ->
     dict_get (ctx_schema context) col = Some "datetime_col" ->
     forall parsed, to_datetime stripped = Ok parsed ->
     frame_get (res_df r) col = Some (mkColumn col DDatetime parsed) /\
     logged = [] /\
     modified = [col]) /\
  List.length logged <= 1 /\
  List.length modified <= 1.
Proof.
  intros Hnd Hin Hobj. cbv zeta.
  destruct (run_on_column parse_number repr_other to_datetime df context c Hnd Hin Hobj)
    as [Hget [Hlogs Hmod]].
  cbv zeta in Hget, Hlogs, Hmod. rewrite Hget, Hlogs, Hmod. clear Hget Hlogs Hmod.
  pose proof (numeric_test_counts parse_number
                (TypeFixer.sample_of (frame_is_dask df) (n_rows df)
                   (TypeFixer.strip_cells repr_other (frame_is_dask df) (col_cells c))))
    as Hnum.
  unfold TypeFixer.fix_column.
  destruct (TypeFixer.sample_of (frame_is_dask df) (n_rows df)
              (TypeFixer.strip_cells repr_other (frame_is_dask df) (col_cells c)))
    as [|s0 ss] eqn:Es.
  - split; [|split; [|split; [|split]]]; cbn [fst snd TypeFixer.step_logs
      TypeFixer.step_modified List.length].
    + intros [_ H]. unfold TypeFixer.valid_count in H. simpl in H. lia.
    + intros _ H. congruence.
    + intros _ H. congruence.
    + lia.
    + lia.
  - assert (Hn0 : List.length (s0 :: ss) <> 0) by discriminate.
    destruct (TypeFixer.numeric_test parse_number (s0 :: ss)) eqn:En.
    + assert (Hyes : 95 * List.length (s0 :: ss) <
                       100 * TypeFixer.valid_count parse_number (s0 :: ss) /\
                     TypeFixer.valid_count parse_number (s0 :: ss) <
                       List.length (s0 :: ss)) by now apply Hnum.
      split; [|split; [|split; [|split]]];
        cbn [fst snd TypeFixer.step_logs TypeFixer.step_modified].
      * intros _. repeat split; reflexivity.
      * intros Hno. contradiction.
      * intros Hno. contradiction.
      * cbn [List.length]. lia.
      * cbn [List.length]. lia.
    + assert (Hno : ~ (95 * List.length (s0 :: ss) <
                        100 * TypeFixer.valid_count parse_number (s0 :: ss) /\
                       TypeFixer.valid_count parse_number (s0 :: ss) <
                        List.length (s0 :: ss))).
      { intros H. apply Hnum in H. congruence. }
      destruct (TypeFixer.boolean_test repr_other (s0 :: ss)) eqn:Eb.
      * split; [|split; [|split; [|split]]];
          cbn [fst snd TypeFixer.step_logs TypeFixer.step_modified].
        -- intros H. contradiction.
        -- intros _ _ _. repeat split; reflexivity.
        -- intros _ _ H. discriminate H.
        -- cbn [List.length]. lia.
        -- cbn [List.length]. lia.
      * destruct (dict_get (ctx_schema context) (col_name c)) as [role|] eqn:Er.
        -- destruct (String.eqb role "datetime_col") eqn:Ed.
           ++ destruct (to_datetime _) as [parsed|e] eqn:Et;
                (split; [|split; [|split; [|split]]]);
                cbn [fst snd TypeFixer.step_logs TypeFixer.step_modified List.length];
                try lia; try (intros H; contradiction);
                try (intros _ _ H; discriminate H).
              ** intros _ _ _ _ p Hp. injection Hp as <-. repeat split; reflexivity.
              ** intros _ _ _ _ p Hp. discriminate Hp.
           ++ split; [|split; [|split; [|split]]];
                cbn [fst snd TypeFixer.step_logs TypeFixer.step_modified List.length];
                try lia; try (intros H; contradiction);
                try (intros _ _ H; discriminate H).
              intros _ _ _ Hr. injection Hr as ->. discriminate Ed.
        -- split; [|split; [|split; [|split]]];
             cbn [fst snd TypeFixer.step_logs TypeFixer.step_modified List.length];
             try lia; try (intros H; contradiction);
             try (intros _ _ H; discriminate H).
           intros _ _ _ Hr. discriminate Hr.
Qed.

Lemma type_fixer_coercion_order_witness :
  let r := TypeFixer.run TypeFixer.parse_digits TypeFixer.repr_blank
             TypeFixer.never_raises TypeFixer.df_mostly_numeric sample_context in
  frame_get (res_df r) "flag" =
    Some (mkColumn "flag" DFloat
            (repeat (Some (VNum (Qnat 1))) 39 ++ [None])) /\
  TypeFixer.logs_about "flag" (res_logs r) =
    [TypeFixer.coercion_log "job-1" "coerce_numeric" "flag"] /\
  filter (fun m => String.eqb m "flag") (res_modified_columns r) = ["flag"].
Proof.
  pose proof (type_fixer_coercion_order TypeFixer.parse_digits TypeFixer.repr_blank
                TypeFixer.never_raises TypeFixer.df_mostly_numeric sample_context
                (mkColumn "flag" DObject TypeFixer.flag_cells)) as H.
  assert (Hnd : NoDup (column_names TypeFixer.df_mostly_numeric)).
  { repeat constructor; simpl; intuition discriminate. }
  specialize (H Hnd (or_introl eq_refl) eq_refl). cbv zeta in H.
  destruct H as [H _]. apply H.
  split; apply Nat.ltb_lt; vm_compute; reflexivity.
Defined.


(** The boolean coercion on the eager engine: four answers that all map
    give a column of dtype [bool]; with a missing answer the column keeps
    the dtype [object] and the gap. *)
Example type_fixer_boolean_dtype :
  let run := TypeFixer.run TypeFixer.parse_digits TypeFixer.repr_blank
               TypeFixer.never_raises in
  frame_get (res_df (run TypeFixer.df_answers sample_context)) "ok" =
    Some (mkColumn "ok" DBool
            [Some (VBool true); Some (VBool false); Some (VBool true); Some (VBool false)]) /\
  frame_get (res_df (run TypeFixer.df_answers_with_gap sample_context)) "ok" =
    Some (mkColumn "ok" DObject
            [Some (VBool true); None; Some (VBool true); Some (VBool false)]).
Proof. vm_compute. split; reflexivity. Qed.

(** ** Missing Value Handler *)

Lemma indicator_name_inj (a b : string) :
  MissingValueHandler.indicator_name a = MissingValueHandler.indicator_name b -> a = b.
Proof.
  unfold MissingValueHandler.indicator_name. intros H.
  apply (f_equal chars) in H. rewrite !chars_append in H.
  apply app_inv_tail in H. now apply chars_inj.
Qed.

Lemma indicator_name_fresh (a : string) : MissingValueHandler.indicator_name a <> a.
Proof.
  unfold MissingValueHandler.indicator_name. intros H.
  apply (f_equal chars) in H. rewrite chars_append in H.
  apply (f_equal (@List.length ascii)) in H. rewrite length_app in H.
  simpl in H. lia.
Qed.

Lemma frame_get_in_names (df : frame) (m : string) :
  In m (column_names df) <-> frame_get df m <> None.
Proof.
  unfold frame_get, column_names. pose proof (find_column_none (columns df) m) as H.
  destruct (find_column (columns df) m); split; intros K.
  - discriminate.
  - destruct (in_dec string_dec m (map col_name (columns df))) as [Hin|Hn]; [exact Hin|].
    apply H in Hn. discriminate Hn.
  - exfalso. exact (proj1 H eq_refl K).
  - congruence.
Qed.

Section MissingHandlerFills.
Import MissingValueHandler.

Lemma null_count_cons (c : cell) (l : list cell) :
  null_count (c :: l) = (if is_null c then 1 else 0) + null_count l.
Proof. unfold null_count. simpl. now destruct (is_null c). Qed.

Lemma null_count_le (l : list cell) : null_count l <= List.length l.
Proof. unfold null_count. apply filter_length_le. Qed.

Lemma fillna_no_nulls (v : value) (cells : list cell) :
  null_count (fillna (Some v) cells) = 0.
Proof.
  induction cells as [|[w|] tl IH]; [reflexivity| |];
    unfold fillna in *; simpl map; rewrite null_count_cons; simpl; exact IH.
Qed.

Lemma ffill_from_some (v : value) (cells : list cell) :
  null_count (ffill_from (Some v) cells) = 0.
Proof.
  revert v. induction cells as [|[w|] tl IH]; intros v; [reflexivity| |];
    simpl ffill_from; rewrite null_count_cons; simpl; apply IH.
Qed.

Lemma ffill_leading_nulls (cells : list cell) :
  null_count (ffill cells) = leading_nulls cells.
Proof.
  unfold ffill. induction cells as [|[w|] tl IH]; [reflexivity| |].
  - simpl ffill_from. rewrite null_count_cons. simpl. apply ffill_from_some.
  - simpl ffill_from. rewrite null_count_cons. simpl. now rewrite IH.
Qed.

Lemma insert_sorted_length (x : Q) (l : list Q) :
  List.length (insert_sorted x l) = S (List.length l).
Proof.
  induction l as [|y tl IH]; [reflexivity|]. simpl.
  destruct (Qle_bool x y); simpl; [reflexivity | now rewrite IH].
Qed.

Lemma sort_values_length (l : list Q) : List.length (sort_values l) = List.length l.
Proof.
  induction l as [|x tl IH]; [reflexivity|]. simpl.
  now rewrite insert_sorted_length, IH.
Qed.

Lemma numeric_values_length (cells : list cell) :
  Forall numeric_cell cells ->
  List.length (numeric_values cells) + null_count cells = List.length cells.
Proof.
  induction 1 as [|c tl Hc Htl IH]; [reflexivity|].
  rewrite null_count_cons. destruct c as [v|]; simpl in *.
  - destruct (cell_num v); [simpl; lia | congruence].
  - lia.
Qed.

Lemma median_present (cells : list cell) :
  Forall numeric_cell cells -> null_count cells < List.length cells ->
  median cells <> None.
Proof.
  intros Hn Hlt. pose proof (numeric_values_length cells Hn) as Hl.
  unfold median. pose proof (sort_values_length (numeric_values cells)) as Hs.
  destruct (sort_values (numeric_values cells)) as [|x s]; [simpl in Hs; lia|].
  destruct (Nat.odd _); discriminate.
Qed.

Lemma median_dask_present (approx_median : list Q -> Q) (cells : list cell) :
  Forall numeric_cell cells -> null_count cells < List.length cells ->
  median_dask approx_median cells <> None.
Proof.
  intros Hn Hlt. pose proof (numeric_values_length cells Hn) as Hl.
  unfold median_dask. destruct (numeric_values cells); [simpl in Hl; lia | discriminate].
Qed.

Lemma impute_method_cases (role : string) (d : dtype) :
  (impute_method role d = "median" /\ is_numeric_dtype d = true) \/
  impute_method role d = "ffill" \/
  impute_method role d = "mode".
Proof.
  unfold impute_method.
  destruct (is_numeric_dtype d); simpl.
  - destruct (negb (String.eqb role "id_col")); [now left|].
    destruct (String.eqb role "datetime_col" || is_datetime64_any_dtype d); auto.
  - destruct (String.eqb role "datetime_col" || is_datetime64_any_dtype d); auto.
Qed.

(** Median and mode leave no null behind; forward-fill leaves the leading
    ones. *)
Lemma impute_null_count (approx_median : list Q -> Q) (is_dask : bool)
  (role : string) (d : dtype) (cells : list cell) :
  (is_numeric_dtype d = true -> Forall numeric_cell cells) ->
  null_count cells < List.length cells ->
  let method := impute_method role d in
  let filled := impute method (fill_value approx_median is_dask method cells) cells in
  (method <> "ffill" -> null_count filled = 0) /\
  (method = "ffill" -> null_count filled = leading_nulls cells).
Proof.
  intros Hty Hlt. cbv zeta.
  destruct (impute_method_cases role d) as [[-> Hnum]|[->| ->]].
  - split; [intros _ | discriminate]. unfold impute, fill_value. simpl.
    destruct is_dask.
    + pose proof (median_dask_present approx_median cells (Hty Hnum) Hlt) as Hm.
      destruct (median_dask approx_median cells); [apply fillna_no_nulls | congruence].
    + pose proof (median_present cells (Hty Hnum) Hlt) as Hm.
      destruct (median cells); [apply fillna_no_nulls | congruence].
  - split; [congruence | intros _]. unfold impute. simpl. apply ffill_leading_nulls.
  - split; [intros _ | discriminate]. unfold impute, fill_value. simpl.
    apply fillna_no_nulls.
Qed.

End MissingHandlerFills.

Section MissingHandlerLoop.
Import MissingValueHandler.

Variable approx_median : list Q -> Q.
Variable context : PipelineContext.
Variable total : nat.

Local Abbreviation body := (loop_body approx_median context total).

Lemma indicator_column_name (is_dask : bool) (c : column) :
  col_name (indicator_column is_dask c) = indicator_name (col_name c).
Proof. unfold indicator_column. now destruct is_dask. Qed.

Lemma above_30_percent (count : nat) :
  total <> 0 ->
  Qltb (30 # 100) (Qnat count / Qnat total) = true <-> 30 * total < 100 * count.
Proof. intros H. rewrite (ratio_above 30 100 count total H). lia. Qed.

Lemma at_least_5_percent (count : nat) :
  total <> 0 ->
  Qle_bool (5 # 100) (Qnat count / Qnat total) = true <-> 5 * total <= 100 * count.
Proof. intros H. rewrite (ratio_at_least 5 100 count total H). lia. Qed.

(** An iteration touches the column it is about and its indicator, and
    nothing else. *)
Lemma body_keeps (st : loop_state) (item : string * nat) (m : string) :
  fst item <> m -> indicator_name (fst item) <> m ->
  frame_get (st_df (body st item)) m = frame_get (st_df st) m.
Proof.
  destruct item as [col count]. simpl fst. intros H1 H2. unfold loop_body.
  destruct (Nat.eqb count 0); [reflexivity|].
  destruct (Qltb _ _); [reflexivity|].
  destruct (frame_get (st_df st) col) as [c|] eqn:Hget; [|reflexivity].
  apply find_column_name in Hget as [Hc _].
  cbn [st_df]. unfold frame_get, frame_set. cbn [columns].
  rewrite find_set_other by (simpl; congruence).
  destruct (Qle_bool _ _); [|reflexivity].
  cbn [columns]. apply find_set_other.
  rewrite indicator_column_name, Hc. congruence.
Qed.

Lemma body_warnings (st : loop_state) (item : string * nat) :
  exists ws, st_warnings (body st item) = st_warnings st ++ ws.
Proof.
  destruct item as [col count]. unfold loop_body.
  destruct (Nat.eqb count 0); [exists []; now rewrite app_nil_r|].
  destruct (Qltb _ _); [now eexists|].
  destruct (frame_get (st_df st) col); exists []; now rewrite app_nil_r.
Qed.

Lemma fold_keeps (items : list (string * nat)) (st : loop_state) (m : string) :
  (forall it, In it items -> fst it <> m /\ indicator_name (fst it) <> m) ->
  frame_get (st_df (fold_left body items st)) m = frame_get (st_df st) m.
Proof.
  revert st. induction items as [|it items IH]; intros st H; [reflexivity|].
  cbn [fold_left]. rewrite IH by (intros x Hx; apply H; now right).
  destruct (H it (or_introl eq_refl)). now apply body_keeps.
Qed.

Lemma fold_warnings (items : list (string * nat)) (st : loop_state) :
  exists ws, st_warnings (fold_left body items st) = st_warnings st ++ ws.
Proof.
  revert st. induction items as [|it items IH]; intros st.
  - exists []. now rewrite app_nil_r.
  - cbn [fold_left]. destruct (IH (body st it)) as [ws Hws].
    destruct (body_warnings st it) as [ws0 Hws0].
    exists (ws0 ++ ws). now rewrite Hws, Hws0, app_assoc.
Qed.

(** The iteration about a column that is still in the table. *)
Lemma body_own (st : loop_state) (col : string) (count : nat) (c : column) :
  frame_get (st_df st) col = Some c -> total <> 0 ->
  let st' := body st (col, count) in
  let method := impute_method (dict_get_default (ctx_schema context) col "feature_col")
                              (col_dtype c) in
  let fill_val := fill_value approx_median (frame_is_dask (st_df st)) method
                             (col_cells c) in
  (30 * total < 100 * count ->
     st_df st' = st_df st /\
     st_warnings st' =
       st_warnings st ++ [missing_warning col (null_fraction count total)]) /\
  (0 < count -> 100 * count <= 30 * total ->
     frame_get (st_df st') col =
       Some (mkColumn col (col_dtype c) (impute method fill_val (col_cells c))) /\
     frame_get (st_df st') (indicator_name col) =
       if Nat.leb (5 * total) (100 * count)
       then Some (indicator_column (frame_is_dask (st_df st)) c)
       else frame_get (st_df st) (indicator_name col)) /\
  (count = 0 -> st' = st).
Proof.
  intros Hget Htot. cbv zeta. unfold loop_body.
  pose proof (above_30_percent count Htot) as H30.
  pose proof (at_least_5_percent count Htot) as H5.
  destruct (Nat.eqb count 0) eqn:E0.
  { apply Nat.eqb_eq in E0. subst count. repeat split; intros; try lia; reflexivity. }
  apply Nat.eqb_neq in E0.
  destruct (Qltb (30 # 100) (Qnat count / Qnat total)) eqn:E30.
  { assert (K : 30 * total < 100 * count) by now apply H30.
    repeat split; intros; try lia; reflexivity. }
  assert (K : ~ 30 * total < 100 * count).
  { intros K. apply H30 in K. congruence. }
  rewrite Hget. pose proof Hget as Hg. apply find_column_name in Hg as [Hc _].
  pose proof (indicator_name_fresh col) as Hfresh.
  split; [intros; lia|]. split; [|intros; lia].
  intros _ _. cbn [st_df]. unfold frame_get, frame_set. cbn [columns]. split.
  - change col with
      (col_name (mkColumn col (col_dtype c)
                   (impute (impute_method
                              (dict_get_default (ctx_schema context) col "feature_col")
                              (col_dtype c))
                           (fill_value approx_median (frame_is_dask (st_df st))
                              (impute_method
                                 (dict_get_default (ctx_schema context) col "feature_col")
                                 (col_dtype c))
                              (col_cells c))
                           (col_cells c)))) at 3.
    apply find_set_same.
  - rewrite find_set_other by (simpl; exact Hfresh).
    destruct (Qle_bool (5 # 100) (Qnat count / Qnat total)) eqn:E5.
    + assert (K5 : 5 * total <= 100 * count) by now apply H5.
      apply Nat.leb_le in K5. rewrite K5. cbn [columns].
      rewrite <- Hc, <- (indicator_column_name (frame_is_dask (st_df st)) c).
      apply find_set_same.
    + assert (K5 : Nat.leb (5 * total) (100 * count) = false).
      { apply Nat.leb_gt. destruct (Nat.leb (5 * total) (100 * count)) eqn:E;
          [|now apply Nat.leb_gt].
        apply Nat.leb_le in E. apply H5 in E. congruence. }
      rewrite K5. reflexivity.
Qed.

End MissingHandlerLoop.

(** C1 (counterexample).  Half of the values of [x] are missing: the null
    fraction is 0.5, which is at least 0.05, and no indicator column exists
    after the step. *)
Lemma missing_handler_no_indicator_above_30_percent :
  let r := MissingValueHandler.run MissingValueHandler.exact_median
             MissingValueHandler.df_half_missing sample_context in
  null_count [None; Some (VNum 1)] = 1 /\
  n_rows MissingValueHandler.df_half_missing = 2 /\
  column_names (res_df (fst r)) = ["x"] /\
  ~ In (MissingValueHandler.indicator_name "x") (column_names (res_df (fst r))).
Proof.
  cbv zeta. repeat split. vm_compute. intros [H|[]]. discriminate H.
Qed.

(** A forward-filled column keeps the nulls it starts with: 1 of the 10
    values of [seen_at] is missing, the column is imputed, and its null
    count is still 1. *)
Example missing_handler_leading_gap_stays :
  let r := MissingValueHandler.run MissingValueHandler.exact_median
             MissingValueHandler.df_leading_gap sample_context in
  map (fun c => (col_name c, null_count (col_cells c))) (columns (res_df (fst r))) =
    [("seen_at", 1); ("seen_at_was_missing", 0)].
Proof. reflexivity. Qed.

(** The warning prints the fraction as the program holds it: 49 nulls in
    80 rows are 61.25% exactly, and the message says 61.3%. *)
Example missing_handler_warning_text :
  ctx_warnings (snd (MissingValueHandler.run MissingValueHandler.exact_median
                       MissingValueHandler.df_mostly_missing sample_context)) =
  ["Column 'x' has >30% missing values (61.3%). User decision required."].
Proof. vm_compute. reflexivity. Qed.

(** C1 (amended).  On a well-formed table (one cell per row in every
    column, numbers in numeric columns, pairwise distinct labels, no label
    that is another column's indicator name), for every column with [k]
    nulls among [n] rows, that is with null fraction [p = k / n]:
    - if [p > 0.30] the column is left as it is and a warning that names
      it, with the fraction printed as the program prints its double, was
      appended to the warnings of the context;
    - if [0 < p <= 0.30] the column is imputed: with the median or the
      mode its null count is 0 after the step, with forward-fill
      (datetime columns) the nulls left are those before the first present
      value;
    - the indicator column [{col}_was_missing] exists after the step if
      and only if [0.05 <= p <= 0.30]. *)
Theorem missing_handler_policy
  (approx_median : list Q -> Q) (df : frame) (context : PipelineContext) (c : column) :
  MissingValueHandler.well_formed df -> In c (columns df) ->
  let r := MissingValueHandler.run approx_median df context in
  let col := col_name c in
  let k := null_count (col_cells c) in
  let n := n_rows df in
  let method :=
    MissingValueHandler.impute_method
      (dict_get_default (ctx_schema context) col "feature_col") (col_dtype c) in
  (30 * n < 100 * k ->
     frame_get (res_df (fst r)) col = Some c /\
     exists new,
       ctx_warnings (snd r) = ctx_warnings context ++ new /\
       In (MissingValueHandler.missing_warning col (MissingValueHandler.null_fraction k n)) new) /\
  (0 < k -> 100 * k <= 30 * n ->
     exists c',
       frame_get (res_df (fst r)) col = Some c' /\
       (method <> "ffill" -> null_count (col_cells c') = 0) /\
       (method = "ffill" ->
          null_count (col_cells c') = MissingValueHandler.leading_nulls (col_cells c))) /\
  (In (MissingValueHandler.indicator_name col) (column_names (res_df (fst r))) <->
     0 < n /\ 5 * n <= 100 * k /\ 100 * k <= 30 * n).
Proof.
  intros [Hnd [Hlen [Hty Hind]]] Hin. cbv zeta.
  assert (Hname : In (col_name c) (column_names df)) by now apply in_map.
  assert (Hkn : null_count (col_cells c) <= n_rows df).
  { rewrite <- (Hlen c Hin). apply null_count_le. }
  assert (Hnoind : frame_get df (MissingValueHandler.indicator_name (col_name c)) = None).
  { destruct (frame_get df _) eqn:E; [|reflexivity].
    exfalso. apply (Hind (col_name c) (MissingValueHandler.indicator_name (col_name c)));
      [exact Hname | | reflexivity].
    apply frame_get_in_names. congruence. }
  unfold MissingValueHandler.run.
  destruct (Nat.eqb (n_rows df) 0) eqn:En.
  { apply Nat.eqb_eq in En. cbn [fst snd res_df].
    repeat split; intros; try lia.
    - exfalso. apply frame_get_in_names in H. congruence. }
  apply Nat.eqb_neq in En. cbn [fst snd res_df ctx_warnings].
  destruct (in_split c (columns df) Hin) as [l1 [l2 Hsplit]].
  set (f := fun c0 : column => (col_name c0, null_count (col_cells c0))).
  assert (Hitems : MissingValueHandler.null_counts df =
                   map f l1 ++ (col_name c, null_count (col_cells c)) :: map f l2).
  { unfold MissingValueHandler.null_counts. rewrite Hsplit, map_app. reflexivity. }
  rewrite Hitems, fold_left_app. cbn [fold_left].
  set (st0 := MissingValueHandler.mkLoop df (ctx_warnings context) [] []).
  set (body := MissingValueHandler.loop_body approx_median context (n_rows df)).
  set (st1 := fold_left body (map f l1) st0).
  set (st2 := body st1 (col_name c, null_count (col_cells c))).
  assert (Hnd' : NoDup (map col_name l1 ++ col_name c :: map col_name l2)).
  { unfold column_names in Hnd. rewrite Hsplit, map_app in Hnd. exact Hnd. }
  assert (Hnot : ~ In (col_name c) (map col_name l1 ++ map col_name l2)).
  { now apply NoDup_remove_2 in Hnd'. }
  assert (Hothers : forall l, (forall x, In x l -> In x (columns df)) ->
            ~ In (col_name c) (map col_name l) ->
            forall it, In it (map f l) ->
              (fst it <> col_name c /\
               MissingValueHandler.indicator_name (fst it) <> col_name c) /\
              (fst it <> MissingValueHandler.indicator_name (col_name c) /\
               MissingValueHandler.indicator_name (fst it) <>
                 MissingValueHandler.indicator_name (col_name c))).
  { intros l Hsub Hl it Hit. apply in_map_iff in Hit as [c0 [<- Hc0]]. simpl fst.
    assert (Hc0n : In (col_name c0) (column_names df)) by (apply in_map; auto).
    assert (Hne : col_name c0 <> col_name c).
    { intros E. apply Hl. rewrite <- E. now apply in_map. }
    repeat split.
    - exact Hne.
    - intros E. apply (Hind (col_name c0) (col_name c)); auto.
    - apply Hind; auto.
    - intros E. apply Hne. now apply indicator_name_inj. }
  assert (Hsub1 : forall x, In x l1 -> In x (columns df)).
  { intros x Hx. rewrite Hsplit. apply in_or_app. now left. }
  assert (Hsub2 : forall x, In x l2 -> In x (columns df)).
  { intros x Hx. rewrite Hsplit. apply in_or_app. right. now right. }
  assert (Hn1 : ~ In (col_name c) (map col_name l1)).
  { intros H. apply Hnot. apply in_or_app. now left. }
  assert (Hn2 : ~ In (col_name c) (map col_name l2)).
  { intros H. apply Hnot. apply in_or_app. now right. }
  assert (G1 : frame_get (MissingValueHandler.st_df st1) (col_name c) = Some c).
  { unfold st1, body. rewrite fold_keeps.
    - simpl. now apply find_column_in.
    - intros it Hit. now apply (Hothers l1 Hsub1 Hn1 it Hit). }
  assert (G1' : frame_get (MissingValueHandler.st_df st1)
                  (MissingValueHandler.indicator_name (col_name c)) = None).
  { unfold st1, body. rewrite fold_keeps.
    - exact Hnoind.
    - intros it Hit. now apply (Hothers l1 Hsub1 Hn1 it Hit). }
  assert (G3 : frame_get (MissingValueHandler.st_df (fold_left body (map f l2) st2))
                 (col_name c) =
               frame_get (MissingValueHandler.st_df st2) (col_name c)).
  { unfold body. apply fold_keeps.
    intros it Hit. now apply (Hothers l2 Hsub2 Hn2 it Hit). }
  assert (G3' : frame_get (MissingValueHandler.st_df (fold_left body (map f l2) st2))
                  (MissingValueHandler.indicator_name (col_name c)) =
                frame_get (MissingValueHandler.st_df st2)
                  (MissingValueHandler.indicator_name (col_name c))).
  { unfold body. apply fold_keeps.
    intros it Hit. now apply (Hothers l2 Hsub2 Hn2 it Hit). }
  destruct (body_own approx_median context (n_rows df) st1 (col_name c)
              (null_count (col_cells c)) c G1 En) as [Own1 [Own2 Own3]].
  fold body in Own1, Own2, Own3. fold st2 in Own1, Own2, Own3.
  split; [|split].
  - intros H30. destruct (Own1 H30) as [Edf Ew]. split.
    + rewrite G3, Edf. exact G1.
    + destruct (fold_warnings approx_median context (n_rows df) (map f l1) st0)
        as [ws1 Hws1].
      destruct (fold_warnings approx_median context (n_rows df) (map f l2) st2)
        as [ws3 Hws3].
      fold body in Hws1, Hws3. fold st1 in Hws1.
      exists (ws1 ++ [MissingValueHandler.missing_warning (col_name c)
                        (MissingValueHandler.null_fraction (null_count (col_cells c))
                           (n_rows df))] ++ ws3).
      split.
      * rewrite Hws3, Ew, Hws1. unfold st0. simpl. now rewrite <- !app_assoc.
      * apply in_or_app. right. now left.
  - intros Hk H30. destruct (Own2 Hk H30) as [Ecol _].
    eexists. split; [rewrite G3; exact Ecol|]. cbn [col_cells].
    apply impute_null_count.
    + intros Hnum. now apply Hty.
    + rewrite (Hlen c Hin). lia.
  - rewrite frame_get_in_names. cbn [res_df]. rewrite G3'.
    destruct (Nat.eq_dec (null_count (col_cells c)) 0) as [Ek|Ek].
    + rewrite (Own3 Ek), G1'. split; [congruence | lia].
    + destruct (Nat.lt_ge_cases (30 * n_rows df) (100 * null_count (col_cells c)))
        as [H30|H30].
      * destruct (Own1 H30) as [Edf _]. rewrite Edf, G1'. split; [congruence | lia].
      * assert (Hk : 0 < null_count (col_cells c)) by lia.
        destruct (Own2 Hk H30) as [_ Eind]. rewrite Eind.
        destruct (Nat.leb (5 * n_rows df) (100 * null_count (col_cells c))) eqn:E5.
        -- apply Nat.leb_le in E5. split; [intros _; lia | discriminate].
        -- apply Nat.leb_gt in E5. rewrite G1'. split; [congruence | lia].
Qed.

Lemma missing_handler_policy_witness :
  let r := MissingValueHandler.run MissingValueHandler.exact_median
             MissingValueHandler.df_gaps sample_context in
  (exists c',
     frame_get (res_df (fst r)) "age" = Some c' /\
     ("median" <> "ffill" -> null_count (col_cells c') = 0) /\
     ("median" = "ffill" -> null_count (col_cells c') = 0)) /\
  (In "age_was_missing" (column_names (res_df (fst r))) <->
     0 < 10 /\ 5 * 10 <= 100 * 1 /\ 100 * 1 <= 30 * 10).
Proof.
  assert (Hwf : MissingValueHandler.well_formed MissingValueHandler.df_gaps).
  { split; [|split; [|split]].
    - repeat constructor; simpl; intuition discriminate.
    - intros c [<-|[<-|[]]]; reflexivity.
    - intros c [<-|[<-|[]]] H; [|discriminate H].
      repeat constructor; simpl; discriminate.
    - intros a b [<-|[<-|[]]] [<-|[<-|[]]]; discriminate. }
  pose proof (missing_handler_policy MissingValueHandler.exact_median
                MissingValueHandler.df_gaps sample_context
                (mkColumn "age" DFloat
                   (map (fun q => Some (VNum q)) [25; 30; 22; 41; 35]%Q ++ [None] ++
                    map (fun q => Some (VNum q)) [28; 30; 52; 47]%Q))
                Hwf (or_introl eq_refl)) as H.
  cbv zeta in H. destruct H as [_ [H2 H3]]. split.
  - apply H2; apply Nat.ltb_lt || apply Nat.leb_le; reflexivity.
  - exact H3.
Defined.

(** ** Duplicate Detector *)

Section DuplicateDetectorProperties.
Import DuplicateDetector.

Lemma filter_true_positive (l : list bool) :
  0 < List.length (filter (fun b => b) l) <-> In true l.
Proof.
  induction l as [|[|] l IH]; simpl.
  - split; [lia | contradiction].
  - split; [auto | lia].
  - rewrite IH. split; [auto | intros [H|H]; [discriminate | exact H]].
Qed.

(** A mark is set exactly where a row equals one of [seen] or a row
    before it. *)
Lemma duplicated_from_marks (seen rs : list (list cell)) :
  In true (duplicated_from seen rs) <->
  exists j b, nth_error rs j = Some b /\
    (existsb (row_eqb b) seen = true \/
     exists i a, i < j /\ nth_error rs i = Some a /\ row_eqb b a = true).
Proof.
  revert seen. induction rs as [|r tl IH]; intros seen.
  - simpl. split; [contradiction|]. intros [j [b [H _]]]. destruct j; discriminate H.
  - cbn [duplicated_from]. split.
    + intros [H|H].
      * exists 0, r. split; [reflexivity | now left].
      * apply IH in H as [j [b [Hj Hb]]]. exists (S j), b. split; [exact Hj|].
        destruct Hb as [Hb|[i [a [Hi [Ha Hab]]]]].
        -- cbn [existsb] in Hb. apply orb_true_iff in Hb as [Hb|Hb].
           ++ right. exists 0, r. split; [lia | now split].
           ++ now left.
        -- right. exists (S i), a. split; [lia | now split].
    + intros [j [b [Hj Hb]]]. destruct j as [|j].
      * injection Hj as <-. destruct Hb as [Hb|[i [a [Hi _]]]]; [now left | lia].
      * right. apply IH. exists j, b. split; [exact Hj|].
        destruct Hb as [Hb|[i [a [Hi [Ha Hab]]]]].
        -- left. cbn [existsb]. rewrite Hb. apply orb_true_r.
        -- destruct i as [|i].
           ++ injection Ha as <-. left. cbn [existsb]. now rewrite Hab.
           ++ right. exists i, a. split; [lia | now split].
Qed.

Lemma dup_count_positive (df : frame) : 0 < dup_count df <-> has_duplicate_rows df.
Proof.
  unfold dup_count, duplicated, has_duplicate_rows.
  rewrite filter_true_positive, duplicated_from_marks. split.
  - intros [j [b [Hj [Hb|[i [a [Hi [Ha Hab]]]]]]]]; [discriminate Hb|].
    now exists i, j, a, b.
  - intros [i [j [a [b [Hi [Ha [Hb Hab]]]]]]]. exists j, b. split; [exact Hb|].
    right. now exists i, a.
Qed.

End DuplicateDetectorProperties.

(** C7 (counterexample).  On the partitioned engine the step returns with
    an empty log (and no warning), although the table has a repeated row
    that the eager engine reports: the omission is not recorded. *)
Lemma duplicate_detector_dask_logs_nothing :
  let run := DuplicateDetector.run DuplicateDetector.cells_hashable in
  frame_is_dask DuplicateDetector.df_repeated_row_dask = true /\
  res_logs (run DuplicateDetector.df_repeated_row_dask sample_context) = [] /\
  res_warnings (run DuplicateDetector.df_repeated_row_dask sample_context) = [] /\
  res_warnings (run DuplicateDetector.df_repeated_row sample_context) =
    ["Found 1 exact duplicate rows (33.33%)."].
Proof. cbv zeta. repeat split; vm_compute; reflexivity. Qed.

(** The percentage is printed from the double: one duplicate among 4000
    rows is 0.025% exactly, and the warning says 0.03%. *)
Example duplicate_warning_prints_the_double :
  DuplicateDetector.duplicate_warning 1 (DuplicateDetector.duplicate_fraction 1 4000) =
  "Found 1 exact duplicate rows (0.03%).".
Proof. vm_compute. reflexivity. Qed.

(** C7 (amended).  The step always hands the table back unchanged and
    reports no modified column.  On the partitioned engine it counts
    nothing and records nothing: no log entry and no warning.  On the
    eager engine, when the count of the duplicates raises, the exception
    is swallowed and nothing is recorded; when it returns, the step emits
    one warning with the count and the percentage, and one
    [flag_duplicates] log entry, if and only if some row equals a row
    before it, and otherwise nothing. *)
Theorem duplicate_detector_advisory (unhashable : frame -> bool)
  (df : frame) (context : PipelineContext) :
  let r := DuplicateDetector.run unhashable df context in
  let count := DuplicateDetector.dup_count df in
  res_df r = df /\
  res_modified_columns r = [] /\
  (frame_is_dask df = true -> res_logs r = [] /\ res_warnings r = []) /\
  (frame_is_dask df = false -> unhashable df = true ->
     res_logs r = [] /\ res_warnings r = []) /\
  (frame_is_dask df = false -> unhashable df = false ->
     (DuplicateDetector.has_duplicate_rows df ->
        res_warnings r =
          [DuplicateDetector.duplicate_warning count
             (DuplicateDetector.duplicate_fraction count (n_rows df))] /\
        res_logs r = [DuplicateDetector.duplicate_log (ctx_job_id context) count]) /\
     (~ DuplicateDetector.has_duplicate_rows df ->
        res_warnings r = [] /\ res_logs r = [])).
Proof.
  cbv zeta. unfold DuplicateDetector.run, DuplicateDetector.count_duplicates.
  pose proof (dup_count_positive df) as Hd.
  destruct (frame_is_dask df).
  - repeat split; intros; try reflexivity; discriminate.
  - destruct (unhashable df).
    + repeat split; intros; try reflexivity; discriminate.
    + destruct (Nat.ltb 0 (DuplicateDetector.dup_count df)) eqn:E.
      * apply Nat.ltb_lt in E. repeat split; intros; try reflexivity; try discriminate.
        -- exfalso. apply H1. now apply Hd.
        -- exfalso. apply H1. now apply Hd.
      * apply Nat.ltb_ge in E. repeat split; intros; try reflexivity; try discriminate.
        -- apply Hd in H1. lia.
        -- apply Hd in H1. lia.
Qed.

(** ** Outlier Detector *)

Section OutlierDetectorProperties.
Import OutlierDetector.

Variable shapiro : list Q -> outcome (option Q).
Variable normaltest : list Q -> outcome (option Q).
Variable sample : Q -> frame -> frame.
Variable sample_df : frame.
Variable context : PipelineContext.

Local Abbreviation body := (loop_body shapiro normaltest sample_df context).
Local Abbreviation logs_of := (column_logs shapiro normaltest sample_df context).
Local Abbreviation warnings_of := (column_warnings shapiro normaltest sample_df context).

(** The loop appends, label after label, what each iteration yields: an
    iteration that raised contributes its skip entries and the loop goes
    on. *)
Lemma outlier_loop_appends (names : list string) (st : list log_entry * list string) :
  fold_left body names st =
  (fst st ++ flat_map logs_of names, snd st ++ flat_map warnings_of names).
Proof.
  revert st. induction names as [|col names IH]; intros [ls ws]; cbn [fold_left flat_map fst snd].
  - now rewrite !app_nil_r.
  - rewrite IH. unfold loop_body. cbn [fst snd]. now rewrite <- !app_assoc.
Qed.

Lemma in_flat_map_of {A B} (f : A -> list B) (l : list A) (a : A) :
  In a l -> incl (f a) (flat_map f l).
Proof. intros Ha b Hb. apply in_flat_map. now exists a. Qed.

End OutlierDetectorProperties.

(** C8.  For every table, whatever the normality tests and the sampling
    do, the step returns the very table it was given (hence the same row
    count, the same number of columns and the same cells) and reports no
    modified column.  Every label of the inspected table contributes to
    the result: when its inspection raises, a [skip_column] log entry and
    a warning with the reason are recorded; otherwise the warnings and log
    entries of its inspection are; an exception in one column removes
    nothing of what the other columns contribute. *)
Theorem outlier_detector_annotates_only
  (shapiro normaltest : list Q -> outcome (option Q)) (sample : Q -> frame -> frame)
  (df : frame) (context : PipelineContext) :
  let r := OutlierDetector.run shapiro normaltest sample df context in
  let sample_df := OutlierDetector.sample_frame sample df in
  res_df r = df /\
  n_rows (res_df r) = n_rows df /\
  List.length (columns (res_df r)) = List.length (columns df) /\
  map col_cells (columns (res_df r)) = map col_cells (columns df) /\
  res_modified_columns r = [] /\
  forall col, In col (column_names sample_df) ->
    match OutlierDetector.inspect_column shapiro normaltest sample_df context col with
    | Raise msg =>
        In (OutlierDetector.skip_log (ctx_job_id context) col msg) (res_logs r) /\
        In (OutlierDetector.skip_warning col msg) (res_warnings r)
    | Ok (ws, ls) => incl ls (res_logs r) /\ incl ws (res_warnings r)
    end.
Proof.
  cbv zeta. unfold OutlierDetector.run. cbn [res_df res_modified_columns res_logs res_warnings].
  repeat (split; [reflexivity|]).
  intros col Hcol. rewrite outlier_loop_appends. cbn [fst snd app].
  pose proof (in_flat_map_of
                (OutlierDetector.column_logs shapiro normaltest
                   (OutlierDetector.sample_frame sample df) context) _ col Hcol) as Hl.
  pose proof (in_flat_map_of
                (OutlierDetector.column_warnings shapiro normaltest
                   (OutlierDetector.sample_frame sample df) context) _ col Hcol) as Hw.
  unfold OutlierDetector.column_logs in Hl at 1.
  unfold OutlierDetector.column_warnings in Hw at 1.
  destruct (OutlierDetector.inspect_column shapiro normaltest
              (OutlierDetector.sample_frame sample df) context col) as [[ws ls]|msg].
  - now split.
  - split; [apply Hl | apply Hw]; now left.
Qed.

(** A run in which two iterations raise: the two columns labelled [x] are
    skipped with the reason, and the extreme value of [amount], inspected
    in between, is flagged all the same. *)
Example outlier_detector_skips_and_goes_on :
  let r := OutlierDetector.run OutlierDetector.never_normal OutlierDetector.test_fails
             OutlierDetector.whole_table OutlierDetector.df_shared_label sample_context in
  map (fun l => (log_action l, log_column_name l, log_severity l)) (res_logs r) =
    [("skip_column", Some "x", "warning");
     ("flag_outliers", Some "amount", "warning");
     ("skip_column", Some "x", "warning")] /\
  res_warnings r =
    ["OutlierDetector skipped column 'x' due to error: 'DataFrame' object has no attribute 'dtype'";
     "OutlierDetector skipped column 'x' due to error: 'DataFrame' object has no attribute 'dtype'"] /\
  res_df r = OutlierDetector.df_shared_label.
Proof. repeat split; vm_compute; reflexivity. Qed.

(** ** Rounding and sums of rationals *)

Lemma Qltb_compat (a a' b b' : Q) :
  (a == a')%Q -> (b == b')%Q -> Qltb a b = Qltb a' b'.
Proof. intros Ha Hb. unfold Qltb. now rewrite (Qleb_comp _ _ Hb _ _ Ha). Qed.

Lemma Qltb_ge (a b : Q) : Qltb a b = false <-> (b <= a)%Q.
Proof.
  unfold Qltb. rewrite negb_false_iff. apply Qle_bool_iff.
Qed.

Lemma round_half_even_compat (q1 q2 : Q) :
  (q1 == q2)%Q -> round_half_even q1 = round_half_even q2.
Proof.
  intros H. unfold round_half_even. rewrite (Qfloor_comp _ _ H).
  assert (Hr : (q1 - inject_Z (Qfloor q2) == q2 - inject_Z (Qfloor q2))%Q)
    by now rewrite H.
  rewrite (Qltb_compat _ _ (1 # 2) (1 # 2) Hr (Qeq_refl _)).
  now rewrite (Qltb_compat (1 # 2) (1 # 2) _ _ (Qeq_refl _) Hr).
Qed.

Lemma round_half_even_near (q : Q) :
  (Qfloor q <= round_half_even q <= Qfloor q + 1)%Z.
Proof.
  unfold round_half_even.
  destruct (Qltb _ _); [lia|]. destruct (Qltb _ _); [lia|].
  destruct (Z.even _); lia.
Qed.

(** Rounding to the nearest integer never reverses an order. *)
Lemma round_half_even_mono (q1 q2 : Q) :
  (q1 <= q2)%Q -> (round_half_even q1 <= round_half_even q2)%Z.
Proof.
  intros Hle. pose proof (Qfloor_resp_le _ _ Hle) as Hf.
  pose proof (round_half_even_near q1) as N1.
  pose proof (round_half_even_near q2) as N2.
  destruct (Z.eq_dec (Qfloor q1) (Qfloor q2)) as [E|E]; [|lia].
  clear N1 N2 Hf. unfold round_half_even. rewrite E.
  set (f := Qfloor q2).
  destruct (Qltb (q1 - inject_Z f) (1 # 2)) eqn:A1.
  { destruct (Qltb (q2 - inject_Z f) (1 # 2)); [lia|].
    destruct (Qltb (1 # 2) (q2 - inject_Z f)); [lia|]. destruct (Z.even f); lia. }
  apply Qltb_ge in A1.
  assert (A2 : Qltb (q2 - inject_Z f) (1 # 2) = false) by (apply Qltb_ge; lra).
  rewrite A2.
  destruct (Qltb (1 # 2) (q1 - inject_Z f)) eqn:B1.
  { apply Qltb_lt in B1.
    assert (B2 : Qltb (1 # 2) (q2 - inject_Z f) = true) by (apply Qltb_lt; lra).
    rewrite B2. lia. }
  destruct (Qltb (1 # 2) (q2 - inject_Z f)); [destruct (Z.even f); lia | lia].
Qed.

(** ** Binary floating point *)

Section Binary64Rounding.
Import Binary64.

Lemma pow2_pos (e : Z) : (0 < pow2 e)%Q.
Proof. apply Qpower_0_lt. reflexivity. Qed.

Lemma pow2_plus (a b : Z) : (pow2 (a + b) == pow2 a * pow2 b)%Q.
Proof. apply Qpower_plus. discriminate. Qed.

Lemma pow2_succ (a : Z) : (pow2 (a + 1) == 2 * pow2 a)%Q.
Proof. rewrite pow2_plus. change (pow2 1) with 2%Q. ring. Qed.

Lemma pow2_le (a b : Z) : (a <= b)%Z -> (pow2 a <= pow2 b)%Q.
Proof. intros H. apply Qpower_le_compat_l; [exact H | discriminate]. Qed.

Lemma pow2_lt_inv (a b : Z) : (pow2 a < pow2 b)%Q -> (a < b)%Z.
Proof. intros H. apply (Qpower_lt_compat_l_inv 2); [exact H | reflexivity]. Qed.

Lemma pow2_int (n : Z) : (0 <= n)%Z -> (pow2 n == inject_Z (2 ^ n))%Q.
Proof. intros H. unfold pow2. now rewrite Zpower_Qpower. Qed.

Lemma pow2_scale (q : Q) (e : Z) : (q / pow2 e * pow2 e == q)%Q.
Proof. field. pose proof (pow2_pos e). lra. Qed.

(** *** Rounding to an integer *)

Lemma round_half_even_int (n : Z) : round_half_even (inject_Z n) = n.
Proof.
  unfold round_half_even. rewrite Qfloor_Z.
  assert (H : Qltb (inject_Z n - inject_Z n) (1 # 2) = true) by (apply Qltb_lt; lra).
  now rewrite H.
Qed.

Lemma round_half_even_le_int (q : Q) (n : Z) :
  (q <= inject_Z n)%Q -> (round_half_even q <= n)%Z.
Proof.
  intros H. rewrite <- (round_half_even_int n). now apply round_half_even_mono.
Qed.

Lemma round_half_even_ge_int (q : Q) (n : Z) :
  (inject_Z n <= q)%Q -> (n <= round_half_even q)%Z.
Proof.
  intros H. rewrite <- (round_half_even_int n). now apply round_half_even_mono.
Qed.

(** *** The binary exponent *)

Lemma ilog2_spec (q : Q) :
  (0 < q)%Q -> (pow2 (ilog2 q) <= q)%Q /\ (q < pow2 (ilog2 q + 1))%Q.
Proof.
  intros Hq. destruct q as [a b]. 
  assert (Ha : (0 < a)%Z) by (unfold Qlt in Hq; simpl in Hq; lia).
  unfold ilog2. cbn [Qnum Qden].
  set (la := Z.log2 a). set (lb := Z.log2 (Zpos b)).
  destruct (Z.log2_spec a Ha) as [A1 A2].
  destruct (Z.log2_spec (Zpos b) (Pos2Z.is_pos b)) as [B1 B2].
  fold la in A1, A2. fold lb in B1, B2.
  assert (Hla : (0 <= la)%Z) by apply Z.log2_nonneg.
  assert (Hlb : (0 <= lb)%Z) by apply Z.log2_nonneg.
  assert (QA1 : (pow2 la <= inject_Z a)%Q) by (rewrite pow2_int by lia; now rewrite <- Zle_Qle).
  assert (QA2 : (inject_Z a < 2 * pow2 la)%Q).
  { rewrite <- pow2_succ, pow2_int by lia. rewrite <- Zlt_Qlt. exact A2. }
  assert (QB1 : (pow2 lb <= inject_Z (Zpos b))%Q)
    by (rewrite pow2_int by lia; now rewrite <- Zle_Qle).
  assert (QB2 : (inject_Z (Zpos b) < 2 * pow2 lb)%Q).
  { rewrite <- pow2_succ, pow2_int by lia. rewrite <- Zlt_Qlt. exact B2. }
  assert (Hk : (pow2 (la - lb) * pow2 lb == pow2 la)%Q).
  { rewrite <- pow2_plus. now replace (la - lb + lb)%Z with la by lia. }
  assert (Hq' : ((a # b) * inject_Z (Zpos b) == inject_Z a)%Q).
  { unfold Qeq, Qmult, inject_Z. cbn [Qnum Qden]. lia. }
  pose proof (pow2_pos (la - lb)) as Pk. pose proof (pow2_pos lb) as Pb.
  pose proof (pow2_pos la) as Pa.
  assert (Bpos : (0 < inject_Z (Zpos b))%Q) by (change 0%Q with (inject_Z 0); now rewrite <- Zlt_Qlt).
  destruct (Qle_bool (pow2 (la - lb)) (a # b)%Q) eqn:E.
  - apply Qle_bool_iff in E. split; [exact E|].
    rewrite pow2_succ. 
    set (q := (a # b)%Q) in *. set (B := inject_Z (Zpos b)) in *. set (A := inject_Z a) in *.
    set (PK := pow2 (la - lb)) in *. set (PB := pow2 lb) in *. set (PA := pow2 la) in *.
    apply (Qmult_lt_r _ _ B Bpos). nra.
  - assert (L : ((a # b) < pow2 (la - lb))%Q).
    { apply Qnot_le_lt. intros C. apply Qle_bool_iff in C. congruence. }
    split.
    + assert (E1 : (pow2 (la - lb - 1 + 1) == pow2 (la - lb))%Q)
        by now replace (la - lb - 1 + 1)%Z with (la - lb)%Z by lia.
      rewrite pow2_succ in E1.
      set (q := (a # b)%Q) in *. set (B := inject_Z (Zpos b)) in *. set (A := inject_Z a) in *.
      set (PK := pow2 (la - lb)) in *. set (PB := pow2 lb) in *. set (PA := pow2 la) in *.
      set (PK1 := pow2 (la - lb - 1)) in *.
      apply (Qmult_le_r _ _ B Bpos). nra.
    + now replace (la - lb - 1 + 1)%Z with (la - lb)%Z by lia.
Qed.

Lemma pow2_le_inv (a b : Z) : (pow2 a <= pow2 b)%Q -> (a <= b)%Z.
Proof. intros H. apply (Qpower_le_compat_l_inv 2); [exact H | reflexivity]. Qed.

Lemma ilog2_mono (q q' : Q) : (0 < q)%Q -> (q <= q')%Q -> (ilog2 q <= ilog2 q')%Z.
Proof.
  intros Hq Hle. destruct (ilog2_spec q Hq) as [L _].
  destruct (ilog2_spec q') as [_ U]; [lra|].
  assert (H : (ilog2 q < ilog2 q' + 1)%Z) by (apply pow2_lt_inv; lra). lia.
Qed.

Lemma round_half_even_small (x : Q) :
  (0 <= x)%Q -> (x < 1 # 2)%Q -> round_half_even x = 0%Z.
Proof.
  intros H0 H1.
  assert (F : Qfloor x = 0%Z).
  { pose proof (Qfloor_le x) as A. pose proof (Qlt_floor x) as B.
    assert (A' : (inject_Z (Qfloor x) < inject_Z 1)%Q)
      by (change (inject_Z 1) with 1%Q; lra).
    assert (B' : (inject_Z (-1) < inject_Z (Qfloor x))%Q).
    { rewrite inject_Z_plus in B. change (inject_Z 1) with 1%Q in B.
      change (inject_Z (-1)) with (-1)%Q. lra. }
    rewrite <- Zlt_Qlt in A', B'. lia. }
  unfold round_half_even. rewrite F.
  assert (E : Qltb (x - inject_Z 0) (1 # 2) = true)
    by (apply Qltb_lt; change (inject_Z 0) with 0%Q; lra).
  now rewrite E.
Qed.

Lemma ulp_exponent_bounds (q : Q) :
  (ilog2 q - 52 <= ulp_exponent q)%Z /\ (-1074 <= ulp_exponent q)%Z.
Proof. unfold ulp_exponent. lia. Qed.

Lemma round_pos_nonneg (q : Q) : (0 < q)%Q -> (0 <= round_pos q)%Q.
Proof.
  intros Hq. unfold round_pos. pose proof (pow2_pos (ulp_exponent q)) as P.
  apply Qmult_le_0_compat; [|lra].
  change 0%Q with (inject_Z 0). rewrite <- Zle_Qle. apply round_half_even_ge_int.
  change (inject_Z 0) with 0%Q. apply Qlt_le_weak, Qlt_shift_div_l; [exact P | lra].
Qed.

(** The double nearest to [q] is not above the next power of two. *)
Lemma round_pos_le_pow (q : Q) :
  (0 < q)%Q -> (round_pos q <= pow2 (ilog2 q + 1))%Q.
Proof.
  intros Hq. destruct (ilog2_spec q Hq) as [_ U].
  destruct (ulp_exponent_bounds q) as [E1 E2].
  unfold round_pos. set (e := ulp_exponent q) in *. set (k := ilog2 q) in *.
  pose proof (pow2_pos e) as Pe.
  assert (X : (q / pow2 e < pow2 (k + 1 - e))%Q).
  { apply Qlt_shift_div_r; [exact Pe|]. rewrite <- pow2_plus.
    now replace (k + 1 - e + e)%Z with (k + 1)%Z by lia. }
  destruct (Z.le_gt_cases 0 (k + 1 - e)) as [C|C].
  - assert (X1 : (q / pow2 e <= inject_Z (2 ^ (k + 1 - e)))%Q).
    { rewrite <- pow2_int by exact C. lra. }
    apply round_half_even_le_int in X1. rewrite Zle_Qle in X1.
    apply Qle_trans with (pow2 (k + 1 - e) * pow2 e)%Q.
    + apply Qmult_le_compat_r; [|lra]. rewrite (pow2_int _ C). exact X1.
    + rewrite <- pow2_plus. replace (k + 1 - e + e)%Z with (k + 1)%Z by lia. apply Qle_refl.
  - rewrite round_half_even_small.
    + pose proof (pow2_pos (k + 1)). change (inject_Z 0) with 0%Q. lra.
    + apply Qlt_le_weak, Qlt_shift_div_l; [exact Pe | lra].
    + apply Qlt_le_trans with (pow2 (k + 1 - e)); [exact X|].
      change (1 # 2)%Q with (pow2 (-1)). apply pow2_le. lia.
Qed.

(** A normal double is not below the power of two under [q]. *)
Lemma round_pos_ge_pow (q : Q) :
  (0 < q)%Q -> (-1074 <= ilog2 q - 52)%Z -> (pow2 (ilog2 q) <= round_pos q)%Q.
Proof.
  intros Hq Hn. destruct (ilog2_spec q Hq) as [L _].
  unfold round_pos, ulp_exponent. rewrite Z.max_l by lia.
  set (k := ilog2 q) in *. pose proof (pow2_pos (k - 52)) as Pe.
  assert (X : (inject_Z (2 ^ 52) <= q / pow2 (k - 52))%Q).
  { rewrite <- pow2_int by lia. apply Qle_shift_div_l; [exact Pe|].
    rewrite <- pow2_plus. now replace (52 + (k - 52))%Z with k by lia. }
  apply round_half_even_ge_int in X. rewrite Zle_Qle in X.
  apply Qle_trans with (inject_Z (2 ^ 52) * pow2 (k - 52))%Q.
  - rewrite <- pow2_int by lia. rewrite <- pow2_plus.
    replace (52 + (k - 52))%Z with k by lia. apply Qle_refl.
  - apply Qmult_le_compat_r; [exact X | lra].
Qed.

Lemma round_pos_mono (q q' : Q) :
  (0 < q)%Q -> (q <= q')%Q -> (round_pos q <= round_pos q')%Q.
Proof.
  intros Hq Hle. assert (Hq' : (0 < q')%Q) by lra.
  pose proof (ilog2_mono q q' Hq Hle) as Hk.
  destruct (Z.eq_dec (ulp_exponent q) (ulp_exponent q')) as [E|E].
  - unfold round_pos. rewrite E. pose proof (pow2_pos (ulp_exponent q')) as P.
    apply Qmult_le_compat_r; [|lra]. rewrite <- Zle_Qle. apply round_half_even_mono.
    unfold Qdiv. apply Qmult_le_compat_r; [exact Hle|].
    apply Qlt_le_weak, Qinv_lt_0_compat, P.
  - assert (Hn : (-1074 <= ilog2 q' - 52)%Z /\ (ilog2 q + 1 <= ilog2 q')%Z).
    { unfold ulp_exponent in E. lia. }
    destruct Hn as [Hn Hlt].
    apply Qle_trans with (pow2 (ilog2 q + 1)); [now apply round_pos_le_pow|].
    apply Qle_trans with (pow2 (ilog2 q')); [now apply pow2_le|].
    now apply round_pos_ge_pow.
Qed.

(** *** Rounding a rational of either sign *)

Lemma Qnum_sign (r : Q) :
  match Qnum r with
  | Z0 => (r == 0)%Q
  | Zpos _ => (0 < r)%Q
  | Zneg _ => (r < 0)%Q
  end.
Proof.
  destruct r as [[|p|p] d]; cbn [Qnum]; unfold Qeq, Qlt; cbn [Qnum Qden]; lia.
Qed.

Lemma round_compat (q q' : Q) : (q == q')%Q -> round q = round q'.
Proof. intros H. unfold round. now rewrite (Qred_complete _ _ H). Qed.

Lemma round_zero (q : Q) : (q == 0)%Q -> round q = 0%Q.
Proof. intros H. rewrite (round_compat q 0 H). reflexivity. Qed.

Lemma round_positive (q : Q) : (0 < q)%Q -> (round q == round_pos (Qred q))%Q.
Proof.
  intros H. unfold round. pose proof (Qnum_sign (Qred q)) as S.
  pose proof (Qred_correct q) as R.
  destruct (Qnum (Qred q)); [lra | apply Qred_correct | lra].
Qed.

Lemma round_negative (q : Q) : (q < 0)%Q -> (round q == - round_pos (- Qred q))%Q.
Proof.
  intros H. unfold round. pose proof (Qnum_sign (Qred q)) as S.
  pose proof (Qred_correct q) as R.
  destruct (Qnum (Qred q)); [lra | lra | apply Qred_correct].
Qed.

Lemma round_nonneg (q : Q) : (0 <= q)%Q -> (0 <= round q)%Q.
Proof.
  intros H. destruct (Qle_lt_or_eq _ _ H) as [L|L].
  - rewrite (round_positive q L). apply round_pos_nonneg.
    pose proof (Qred_correct q). lra.
  - rewrite (round_zero q); [apply Qle_refl | now symmetry].
Qed.

Lemma round_nonpos (q : Q) : (q <= 0)%Q -> (round q <= 0)%Q.
Proof.
  intros H. destruct (Qle_lt_or_eq _ _ H) as [L|L].
  - rewrite (round_negative q L).
    assert (P : (0 <= round_pos (- Qred q))%Q).
    { apply round_pos_nonneg. pose proof (Qred_correct q). lra. }
    lra.
  - rewrite (round_zero q L). apply Qle_refl.
Qed.

(** Rounding to the nearest double never reverses an order. *)
Lemma round_mono (q q' : Q) : (q <= q')%Q -> (round q <= round q')%Q.
Proof.
  intros H. pose proof (Qred_correct q) as R. pose proof (Qred_correct q') as R'.
  destruct (Qlt_le_dec 0 q) as [P|P].
  - rewrite (round_positive q P), (round_positive q') by lra.
    apply round_pos_mono; lra.
  - destruct (Qlt_le_dec q' 0) as [N|N].
    + rewrite (round_negative q'), (round_negative q) by lra.
      apply Qopp_le_compat. apply round_pos_mono; lra.
    + apply Qle_trans with 0%Q; [now apply round_nonpos | now apply round_nonneg].
Qed.

(** *** The doubles are the values that rounding leaves alone *)

Lemma round_pos_significand (q : Q) :
  (0 < q)%Q ->
  (0 <= round_half_even (q / pow2 (ulp_exponent q)) <= 2 ^ 53)%Z.
Proof.
  intros Hq. destruct (ilog2_spec q Hq) as [_ U].
  destruct (ulp_exponent_bounds q) as [E1 E2].
  set (e := ulp_exponent q) in *. set (k := ilog2 q) in *.
  pose proof (pow2_pos e) as Pe. split.
  - apply round_half_even_ge_int. change (inject_Z 0) with 0%Q.
    apply Qlt_le_weak, Qlt_shift_div_l; [exact Pe | lra].
  - apply round_half_even_le_int. rewrite <- pow2_int by lia.
    apply Qlt_le_weak, Qlt_shift_div_r; [exact Pe|].
    rewrite <- pow2_plus. apply Qlt_le_trans with (pow2 (k + 1)); [exact U|].
    apply pow2_le. lia.
Qed.

Lemma round_is_double (q : Q) : is_double (round q).
Proof.
  destruct (Qlt_le_dec 0 q) as [P|P].
  - assert (P' : (0 < Qred q)%Q) by (rewrite Qred_correct; exact P).
    destruct (round_pos_significand _ P') as [M0 M1].
    exists (round_half_even (Qred q / pow2 (ulp_exponent (Qred q)))), (ulp_exponent (Qred q)).
    split; [lia|]. split; [apply ulp_exponent_bounds|]. now rewrite round_positive.
  - destruct (Qle_lt_or_eq _ _ P) as [N|Z0].
    + assert (N' : (0 < - Qred q)%Q) by (rewrite Qred_correct; lra).
      destruct (round_pos_significand _ N') as [M0 M1].
      exists (- round_half_even (- Qred q / pow2 (ulp_exponent (- Qred q))))%Z,
             (ulp_exponent (- Qred q)).
      split; [lia|]. split; [apply ulp_exponent_bounds|].
      rewrite round_negative by exact N. unfold round_pos. rewrite inject_Z_opp. ring.
    + exists 0%Z, 0%Z. split; [cbn; lia|]. split; [lia|].
      rewrite (round_zero q Z0). reflexivity.
Qed.

Lemma round_pos_fixed (q : Q) (m e : Z) :
  (0 < m <= 2 ^ 53)%Z -> (-1074 <= e)%Z -> (q == inject_Z m * pow2 e)%Q ->
  (round_pos q == q)%Q.
Proof.
  intros [M0 M1] He Hq.
  pose proof (pow2_pos e) as Pe.
  assert (Qm0 : (0 < inject_Z m)%Q) by (change 0%Q with (inject_Z 0); now rewrite <- Zlt_Qlt).
  assert (Qm1 : (inject_Z m <= pow2 53)%Q) by (rewrite pow2_int by lia; now rewrite <- Zle_Qle).
  assert (Pq : (0 < q)%Q).
  { rewrite Hq. apply Qmult_lt_0_compat; assumption. }
  destruct (ilog2_spec q Pq) as [L _]. set (k := ilog2 q) in *.
  assert (Hk : (k <= 53 + e)%Z).
  { apply pow2_le_inv. rewrite pow2_plus. apply Qle_trans with q; [exact L|].
    rewrite Hq. apply Qmult_le_compat_r; [exact Qm1 | lra]. }
  unfold round_pos, ulp_exponent. fold k. set (ev := Z.max (k - 52) (-1074)).
  pose proof (pow2_pos ev) as Pev.
  destruct (Z.le_gt_cases ev e) as [C|C].
  - assert (X : (q / pow2 ev == inject_Z (m * 2 ^ (e - ev)))%Q).
    { rewrite inject_Z_mult, <- pow2_int by lia. rewrite Hq.
      replace e with (e - ev + ev)%Z at 1 by lia. rewrite pow2_plus. field. lra. }
    rewrite (round_half_even_compat _ _ X), round_half_even_int.
    rewrite <- X. apply pow2_scale.
  - assert (Ek : k = (53 + e)%Z) by lia. assert (Eev : ev = (e + 1)%Z) by lia.
    assert (Em : m = (2 ^ 53)%Z).
    { apply Z.le_antisymm; [exact M1|]. rewrite Zle_Qle, <- pow2_int by lia.
      apply (Qmult_le_r _ _ (pow2 e) Pe). rewrite <- pow2_plus, <- Hq, <- Ek. exact L. }
    assert (X : (q / pow2 ev == inject_Z (2 ^ 52))%Q).
    { rewrite Hq, Em, Eev, <- !pow2_int by lia. rewrite pow2_succ.
      change 53%Z with (52 + 1)%Z. rewrite (pow2_succ 52). field. lra. }
    rewrite (round_half_even_compat _ _ X), round_half_even_int.
    rewrite <- X. apply pow2_scale.
Qed.

Lemma round_fixed (x : Q) : is_double x -> (round x == x)%Q.
Proof.
  intros [m [e [Hm [He Hx]]]]. pose proof (pow2_pos e) as Pe.
  pose proof (Qred_correct x) as R.
  destruct (Z.lt_trichotomy m 0) as [N|[Z0|P]].
  - assert (Qm : (inject_Z m < 0)%Q) by (change 0%Q with (inject_Z 0); now rewrite <- Zlt_Qlt).
    assert (Nx : (x < 0)%Q).
    { rewrite Hx. setoid_replace 0%Q with (0 * pow2 e)%Q by ring.
      apply Qmult_lt_compat_r; assumption. }
    rewrite (round_negative x Nx).
    rewrite (round_pos_fixed (- Qred x) (- m) e); [rewrite R; ring | lia | exact He |].
    rewrite R, Hx, inject_Z_opp. ring.
  - subst m. apply Qeq_trans with 0%Q; [|rewrite Hx; change (inject_Z 0) with 0%Q; ring].
    rewrite (round_zero x); [reflexivity|]. rewrite Hx. change (inject_Z 0) with 0%Q. ring.
  - assert (Qm : (0 < inject_Z m)%Q) by (change 0%Q with (inject_Z 0); now rewrite <- Zlt_Qlt).
    assert (Px : (0 < x)%Q) by (rewrite Hx; apply Qmult_lt_0_compat; assumption).
    rewrite (round_positive x Px).
    rewrite (round_pos_fixed (Qred x) m e); [exact R | lia | exact He | now rewrite R].
Qed.

Lemma round_idem (q : Q) : (round (round q) == round q)%Q.
Proof. apply round_fixed, round_is_double. Qed.

(** An integer of at most 53 bits is a double. *)
Lemma integer_is_double (n : Z) : (Z.abs n <= 2 ^ 53)%Z -> is_double (inject_Z n).
Proof.
  intros H. exists n, 0%Z. split; [exact H|]. split; [lia|].
  change (pow2 0) with 1%Q. ring.
Qed.

(** *** Sums in double arithmetic *)

Lemma add_zero_r (p : Q) : is_double p -> (add p 0 == p)%Q.
Proof.
  intros H. unfold add. rewrite (round_compat (p + 0) p) by ring. now apply round_fixed.
Qed.

Lemma fold_add_mono (xs ys : list Q) (a b : Q) :
  Forall2 Qle xs ys -> (a <= b)%Q -> (fold_left add xs a <= fold_left add ys b)%Q.
Proof.
  intros H. revert a b. induction H as [|x y xs ys Hxy _ IH]; intros a b Hab; [exact Hab|].
  cbn [fold_left]. apply IH. unfold add. apply round_mono. lra.
Qed.


Lemma fold_add_compat (xs ys : list Q) (a b : Q) :
  Forall2 Qeq xs ys -> (a == b)%Q -> (fold_left add xs a == fold_left add ys b)%Q.
Proof.
  intros H Hab. apply Qle_antisym; apply fold_add_mono; try lra.
  - eapply Forall2_impl; [|exact H]. intros x y E. rewrite E. apply Qle_refl.
  - clear Hab. induction H as [|x y xs ys E _ IH]; constructor; [|exact IH].
    rewrite E. apply Qle_refl.
Qed.

End Binary64Rounding.

(** *** Python's [round] *)



Lemma py_round_compat (q1 q2 : Q) (d : nat) :
  (q1 == q2)%Q -> py_round q1 d = py_round q2 d.
Proof. intros H. unfold py_round. now rewrite (round_compat q1 q2 H). Qed.


Lemma Qle_bool_false (a b : Q) : Qle_bool a b = false -> (b <= a)%Q.
Proof.
  intros E. destruct (Qlt_le_dec a b) as [L|L]; [|exact L].
  apply Qlt_le_weak, Qle_bool_iff in L. congruence.
Qed.

Lemma Qmax_le (a b a' b' : Q) :
  (a <= a')%Q -> (b <= b')%Q -> (Qmax a b <= Qmax a' b')%Q.
Proof.
  intros Ha Hb. unfold Qmax.
  destruct (Qle_bool a b) eqn:E; destruct (Qle_bool a' b') eqn:E'.
  - exact Hb.
  - apply Qle_bool_false in E'. lra.
  - apply Qle_bool_iff in E'. lra.
  - exact Ha.
Qed.

Lemma Qmax_compat (a b b' : Q) : (b == b')%Q -> (Qmax a b == Qmax a b')%Q.
Proof. intros H. apply Qle_antisym; apply Qmax_le; lra. Qed.





Lemma Qnat_nonneg (n : nat) : (0 <= Qnat n)%Q.
Proof. unfold Qnat. change 0%Q with (inject_Z 0). rewrite <- Zle_Qle. lia. Qed.


Section Sums.
Context {A : Type}.

Lemma Qsum_plus (f g : A -> Q) (l : list A) :
  (Qsum (map (fun x => f x + g x) l) == Qsum (map f l) + Qsum (map g l))%Q.
Proof.
  induction l as [|x l IH]; cbn [map Qsum fold_right]; [reflexivity|].
  fold (Qsum (map (fun x => (f x + g x)%Q) l)) (Qsum (map f l)) (Qsum (map g l)).
  rewrite IH. ring.
Qed.

Lemma Qsum_le (f g : A -> Q) (l : list A) :
  (forall x, In x l -> (f x <= g x)%Q) -> (Qsum (map f l) <= Qsum (map g l))%Q.
Proof.
  induction l as [|x l IH]; intros H; cbn [map Qsum fold_right]; [apply Qle_refl|].
  apply Qplus_le_compat; [apply H; now left|]. apply IH. intros y Hy. apply H. now right.
Qed.

Lemma Qsum_eq (f g : A -> Q) (l : list A) :
  (forall x, In x l -> (f x == g x)%Q) -> (Qsum (map f l) == Qsum (map g l))%Q.
Proof.
  intros H. apply Qle_antisym; apply Qsum_le; intros x Hx; rewrite (H x Hx); apply Qle_refl.
Qed.

Lemma Qsum_nonneg (f : A -> Q) (l : list A) :
  (forall x, In x l -> (0 <= f x)%Q) -> (0 <= Qsum (map f l))%Q.
Proof.
  induction l as [|x l IH]; intros H; cbn [map Qsum fold_right]; [apply Qle_refl|].
  assert (H1 : (0 <= f x)%Q) by (apply H; now left).
  assert (H2 : (0 <= fold_right Qplus 0 (map f l))%Q) by (apply IH; intros y Hy; apply H; now right).
  lra.
Qed.

(** Terms that vanish outside of [p] may be left out of the sum. *)
Lemma Qsum_filter (p : A -> bool) (f : A -> Q) (l : list A) :
  (forall x, p x = false -> (f x == 0)%Q) ->
  (Qsum (map f (filter p l)) == Qsum (map f l))%Q.
Proof.
  intros H. induction l as [|x l IH]; cbn [filter map Qsum fold_right]; [reflexivity|].
  destruct (p x) eqn:E; cbn [map Qsum fold_right].
  - fold (Qsum (map f (filter p l))) (Qsum (map f l)). now rewrite IH.
  - fold (Qsum (map f l)). rewrite (H x E), <- IH. unfold Qsum. ring.
Qed.

End Sums.

(** ** Summarizer *)

Section SummarizerLoop.
Import Summarizer.

Variable sample_rows : frame -> list nat.
Variable df : frame.
Variable schema : pdict string.

Local Abbreviation sample_df := (sample_frame sample_rows df).
Local Abbreviation outlier_term :=
  (fun col => Qmin 10 (Binary64.mul (outlier_pct_of sample_rows df col) 100)).
Local Abbreviation null_term := (fun col => Binary64.mul (null_pct_of df col) 50).
Local Abbreviation terms := (flat_map (fun col => [outlier_term col; null_term col])).

Lemma take_rows_names (idx : list nat) (df0 : frame) :
  column_names (take_rows idx df0) = column_names df0.
Proof. unfold column_names, take_rows. cbn [columns]. now rewrite map_map. Qed.

Lemma sample_frame_names : column_names sample_df = column_names df.
Proof.
  unfold sample_frame. destruct (frame_is_dask df); [apply take_rows_names | reflexivity].
Qed.




(** The loop runs to its end when every label selects a column, and its
    penalty is the one that adding the terms of the labels one after the
    other gives. *)
Lemma loop_penalty (names : list string) (st : loop_state) :
  (forall col, In col names -> exists c, select sample_df col = Ok c) ->
  Binary64.is_double (st_penalty st) ->
  exists st',
    loop df sample_df (n_rows df) schema names st = Ok st' /\
    (st_penalty st' == fold_left Binary64.add (terms names) (st_penalty st))%Q.
Proof.
  revert st. induction names as [|col names IH]; intros st H Hd.
  - exists st. split; [reflexivity | apply Qeq_refl].
  - destruct (H col (or_introl eq_refl)) as [c Hc].
    cbn [loop]. unfold loop_body at 1. rewrite Hc.
    match goal with
    | |- context [loop _ _ _ _ names ?s] => destruct (IH s) as [st' [Hl Hp]]
    end.
    { intros col' Hin. apply H. now right. }
    { cbn [st_penalty]. apply round_is_double. }
    exists st'. split; [exact Hl|]. rewrite Hp.
    cbn [st_penalty flat_map]. rewrite fold_left_app. cbn [fold_left].
    apply fold_add_compat.
    { clear. induction (terms names); constructor; [apply Qeq_refl | assumption]. }
    unfold outlier_pct_of, null_pct_of. rewrite (select_get _ _ _ Hc). unfold outlier_pct.
    destruct (iqr_branch c) as [[n p]|]; [apply Qeq_refl|].
    assert (E : (Binary64.add (st_penalty st) (Qmin 10 (Binary64.mul 0 100)) ==
                 st_penalty st)%Q).
    { change (Qmin 10 (Binary64.mul 0 100)) with 0%Q. now apply add_zero_r. }
    unfold Binary64.add at 1. unfold Binary64.add at 1.
    rewrite (round_compat
               (Binary64.add (st_penalty st) (Qmin 10 (Binary64.mul 0 100)) +
                Binary64.mul (null_pct (n_rows df) (null_count_of df col)) 50)%Q
               (st_penalty st +
                Binary64.mul (null_pct (n_rows df) (null_count_of df col)) 50)%Q);
      [apply Qeq_refl | now rewrite E].
Qed.

Lemma score_by_labels (domain : string) :
  NoDup (column_names df) ->
  exists s,
    generate_json_summary sample_rows df domain schema = Ok s /\
    sum_quality_score s = py_round (float_quality_score sample_rows df) 1.
Proof.
  intros Hnd.
  destruct (loop_penalty (column_names df) (mkLoop 0 [] [] [])) as [st [Hl Hp]].
  { intros col Hin. apply select_unique; now rewrite sample_frame_names. }
  { cbn [st_penalty]. apply (integer_is_double 0). cbn. lia. }
  unfold generate_json_summary. rewrite Hl. eexists. split; [reflexivity|].
  cbn [sum_quality_score]. apply py_round_compat.
  unfold float_quality_score, Binary64.sub, Binary64.sum, penalty_terms.
  rewrite (round_compat (100 - st_penalty st)
             (100 - fold_left Binary64.add (terms (column_names df)) 0)%Q).
  - apply Qeq_refl.
  - rewrite Hp. cbn [st_penalty]. apply Qeq_refl.
Qed.


End SummarizerLoop.




(** The score follows the doubles, not the exact fractions: with 7 nulls
    in 1000 rows the formula gives 99.65 exactly and the summary reports
    99.7; with 9 nulls the formula gives 99.55 and the summary reports
    99.5. *)
Example summarizer_score_rounds_the_double :
  match Summarizer.generate_json_summary Summarizer.every_row
          (Summarizer.df_with_nulls 7 1000) "general" [],
        Summarizer.generate_json_summary Summarizer.every_row
          (Summarizer.df_with_nulls 9 1000) "general" [] with
  | Ok s7, Ok s9 =>
      Summarizer.sum_quality_score s7 = Binary64.round (997 # 10) /\
      Summarizer.sum_quality_score s9 = Binary64.round (995 # 10)
  | _, _ => False
  end /\
  (Summarizer.spec_quality_score Summarizer.every_row (Summarizer.df_with_nulls 7 1000)
     == 9965 # 100)%Q /\
  (Summarizer.spec_quality_score Summarizer.every_row (Summarizer.df_with_nulls 9 1000)
     == 9955 # 100)%Q.
Proof. vm_compute. repeat split; reflexivity. Qed.



(** ** The thresholds of the Missing Value Handler on doubles

    [null_pct > 0.30] and [null_pct >= 0.05] are tests on the double
    [count / total_rows] against the doubles nearest to 0.30 and 0.05; the
    model takes them on the exact ratio of the counts.  On a table of
    fewer than 2^49 rows the two agree: the ratio of two such counts that
    is not on the side of the threshold where the double of the threshold
    lies is at least one double away from it. *)

Lemma count_is_double (n : nat) :
  (Z.of_nat n <= 2 ^ 53)%Z -> (Binary64.round (Qnat n) == Qnat n)%Q.
Proof.
  intros H. apply round_fixed. unfold Qnat. apply integer_is_double. lia.
Qed.

Lemma null_fraction_rounds_the_ratio (k n : nat) :
  (Z.of_nat k <= 2 ^ 53)%Z -> (Z.of_nat n <= 2 ^ 53)%Z ->
  MissingValueHandler.null_fraction k n = Binary64.round (Qnat k / Qnat n).
Proof.
  intros Hk Hn. unfold MissingValueHandler.null_fraction, Binary64.div.
  apply round_compat.
  rewrite (count_is_double k Hk), (count_is_double n Hn). reflexivity.
Qed.

Lemma above_030_is_double : Binary64.is_double MissingValueHandler.above_030.
Proof.
  exists 5404319552844596%Z, (-54)%Z. split; [vm_compute; discriminate|].
  split; [lia|]. vm_compute. reflexivity.
Qed.

Lemma below_005_is_double : Binary64.is_double MissingValueHandler.below_005.
Proof.
  exists 7205759403792793%Z, (-57)%Z. split; [vm_compute; discriminate|].
  split; [lia|]. vm_compute. reflexivity.
Qed.

Lemma missing_thresholds_on_doubles (k n : nat) :
  0 < n -> (Z.of_nat n < 2 ^ 49)%Z -> k <= n ->
  Qltb (Binary64.round (30 # 100)) (MissingValueHandler.null_fraction k n) =
    Qltb (30 # 100) (Qnat k / Qnat n) /\
  Qle_bool (Binary64.round (5 # 100)) (MissingValueHandler.null_fraction k n) =
    Qle_bool (5 # 100) (Qnat k / Qnat n).
Proof.
  intros Hpos Hn Hk. assert (Hn0 : n <> 0) by lia.
  rewrite (null_fraction_rounds_the_ratio k n) by lia.
  set (q := (Qnat k / Qnat n)%Q). split.
  - destruct (Qltb (30 # 100) q) eqn:E.
    + apply (ratio_above 30 100 k n Hn0) in E.
      assert (Hq : (MissingValueHandler.above_030 <= q)%Q).
      { apply Qle_bool_le. unfold MissingValueHandler.above_030, q.
        apply (ratio_at_least _ _ k n Hn0). lia. }
      apply round_mono in Hq. rewrite (round_fixed _ above_030_is_double) in Hq.
      apply Qltb_lt. eapply Qlt_le_trans; [|exact Hq]. vm_compute. reflexivity.
    + apply Qltb_ge in E. apply Qltb_ge. now apply round_mono.
  - destruct (Qle_bool (5 # 100) q) eqn:E.
    + apply Qle_bool_le in E. apply Qle_bool_le. now apply round_mono.
    + assert (Hlt : (100 * Z.of_nat k < 5 * Z.of_nat n)%Z).
      { destruct (Z.lt_ge_cases (100 * Z.of_nat k) (5 * Z.of_nat n)) as [L|L]; [exact L|].
        exfalso. assert (T : Qle_bool (5 # 100) q = true)
          by (apply (ratio_at_least 5 100 k n Hn0); lia).
        unfold q in *. congruence. }
      assert (Hq : (q <= MissingValueHandler.below_005)%Q).
      { apply Qlt_le_weak, Qltb_lt. unfold MissingValueHandler.below_005, q.
        apply (ratio_below _ _ k n Hn0). lia. }
      apply round_mono in Hq. rewrite (round_fixed _ below_005_is_double) in Hq.
      destruct (Qle_bool (Binary64.round (5 # 100)) (Binary64.round q)) eqn:F; [|reflexivity].
      apply Qle_bool_le in F. exfalso.
      assert (C : (MissingValueHandler.below_005 < Binary64.round (5 # 100))%Q)
        by (vm_compute; reflexivity).
      apply (Qlt_irrefl MissingValueHandler.below_005). eapply Qlt_le_trans; [exact C|].
      eapply Qle_trans; [exact F | exact Hq].
Qed.

(** ** Loader *)

Section LoaderProperties.
Import Loader.

Variable env : environment.

(** The two failure kinds are different exceptions. *)
Lemma failure_kinds_distinct (e : exn) :
  is_load_failure e = true -> is_validation_failure e = false.
Proof.
  unfold is_load_failure, is_validation_failure. intros H.
  apply String.eqb_eq in H. now rewrite H.
Qed.

(** What passes the checks has rows and columns. *)
Lemma validate_success (warnings : list string) (dtype_map : option (pdict string))
  (t : option frame) (is_dask : bool) (r : DataFrameResult) :
  validate env warnings dtype_map t is_dask = Returns r ->
  0 < dfr_row_count r /\ 0 < dfr_col_count r /\
  dfr_col_count r = List.length (columns (dfr_df r)).
Proof.
  unfold validate. destruct t as [t|]; [|discriminate].
  destruct (Nat.eqb (List.length (columns t)) 0) eqn:E; [discriminate|].
  destruct (frame_len env t) as [n|e]; [|discriminate].
  destruct (Nat.eqb n 0) eqn:En; [discriminate|].
  intros H. injection H as <-. cbn.
  apply Nat.eqb_neq in E. apply Nat.eqb_neq in En. lia.
Qed.

(** A missing table, a table without columns and a table without rows
    are validation failures; the checks fail otherwise only when counting
    the rows of a partitioned table fails. *)
Lemma validate_failure (warnings : list string) (dtype_map : option (pdict string))
  (t : option frame) (is_dask : bool) (e : exn) :
  validate env warnings dtype_map t is_dask = Raises e ->
  is_validation_failure e = true \/
  exists t', t = Some t' /\ frame_is_dask t' = true /\ dask_len env t' = Raises e.
Proof.
  unfold validate. destruct t as [t|].
  - destruct (Nat.eqb (List.length (columns t)) 0).
    { intros H. injection H as <-. now left. }
    unfold frame_len. destruct (frame_is_dask t) eqn:Ed.
    + destruct (dask_len env t) as [n|e'] eqn:El.
      * destruct (Nat.eqb n 0); [|discriminate]. intros H. injection H as <-. now left.
      * intros H. injection H as <-. right. now exists t.
    + destruct (Nat.eqb (n_rows t) 0); [|discriminate]. intros H. injection H as <-. now left.
  - intros H. injection H as <-. now left.
Qed.

Lemma validate_degenerate (warnings : list string) (dtype_map : option (pdict string))
  (t : frame) (is_dask : bool) :
  frame_is_dask t = false ->
  validate env warnings dtype_map None is_dask =
    Raises (ValidationError "Dataset is empty or format unrecognized.") /\
  (columns t = [] ->
   validate env warnings dtype_map (Some t) is_dask =
     Raises (ValidationError "Dataset is empty or format unrecognized.")) /\
  (columns t <> [] -> n_rows t = 0 ->
   validate env warnings dtype_map (Some t) is_dask =
     Raises (ValidationError "File contains no rows.")).
Proof.
  intros Hd. split; [reflexivity|]. split.
  - intros Hc. unfold validate. now rewrite Hc.
  - intros Hc Hr. unfold validate, frame_len. rewrite Hd, Hr.
    destruct (columns t); [congruence | reflexivity].
Qed.

(** A failure of the read in the [try], other than a decoding or a
    memory error, leaves as a load failure. *)
Lemma guarded_read_wraps (warnings : list string) (file_size_mb : Q) (file_path : string)
  (file_type : pdict string) (dtype_map : option (pdict string)) (e : exn) :
  read_table env file_size_mb file_path file_type dtype_map = Raises e ->
  is_Exception e = true -> is_UnicodeDecodeError e = false -> is_MemoryError e = false ->
  guarded_read env warnings file_size_mb file_path file_type dtype_map =
    (Raises (DatasetLoadError ("Corrupted file or load failure: " ++ exn_message e)%string),
     warnings).
Proof.
  intros Hr He Hu Hm. unfold guarded_read. now rewrite Hr, Hu, Hm, He.
Qed.

(** Whatever loads has at least one row and one column. *)
Lemma load_success (warnings : list string) (file_path : string)
  (file_type options : pdict string) (r : DataFrameResult) (warnings' : list string) :
  load env warnings file_path file_type options = (Returns r, warnings') ->
  0 < dfr_row_count r /\ 0 < dfr_col_count r /\
  dfr_col_count r = List.length (columns (dfr_df r)).
Proof.
  unfold load.
  destruct (getsize env file_path) as [size|]; [|discriminate].
  destruct (open_zip env file_path file_type) as [[path ft]|]; [|discriminate].
  destruct (sniff_dtypes env path ft) as [m|e0].
  - destruct (guarded_read env warnings _ path ft (Some m)) as [[[t d]|] ws]; [|discriminate].
    intros H. injection H as H _. now apply validate_success in H.
  - destruct (is_Exception e0); [|discriminate].
    destruct (guarded_read env _ _ path ft None) as [[[t d]|] ws]; [|discriminate].
    intros H. injection H as H _. now apply validate_success in H.
Qed.

(** The archive is opened outside of the [try]: what opening it raises
    is what [load] raises. *)
Lemma zip_failure_propagates (warnings : list string) (file_path : string)
  (file_type options : pdict string) (size : nat) (temp_dir : string) (e : exn) :
  getsize env file_path = Returns size ->
  format_is file_type "zip" = true ->
  mkdtemp env = Returns temp_dir ->
  unzip env file_path temp_dir = Raises e ->
  load env warnings file_path file_type options = (Raises e, warnings).
Proof.
  intros Hs Hf Ht Hz. unfold load, open_zip. now rewrite Hs, Hf, Ht, Hz.
Qed.

End LoaderProperties.

(** C6.  An upload detected as ZIP whose bytes are not an archive: [load]
    raises [BadZipFile] as it is, which is neither the load failure
    ([DatasetLoadError]) nor the validation failure ([ValidationError]). *)
Theorem loader_corrupt_zip_escapes :
  exists e,
    Loader.load Loader.disk [] "upload.zip" [("format", "zip")] [] = (Loader.Raises e, []) /\
    Loader.exn_class e = "BadZipFile" /\
    Loader.is_load_failure e = false /\
    Loader.is_validation_failure e = false.
Proof. eexists. repeat split. Qed.

(** A file that reads as a table loads, with its counts. *)
Example loader_reads_people :
  exists r,
    Loader.load Loader.disk [] "people.csv" [("format", "csv")] [] = (Loader.Returns r, []) /\
    Loader.dfr_row_count r = 2 /\ Loader.dfr_col_count r = 2 /\
    Loader.dfr_detected_dtypes r = [("id", "Int16")].
Proof. eexists. repeat split. Qed.

(** * Part III: Further properties of the code *)

(** ** Column Normalizer: naming *)

Lemma find_counter_first_free (n : string) (seen : list string) (fuel c : nat) :
  c <= find_counter fuel n seen c <= c + fuel /\
  forall j, c <= j < find_counter fuel n seen c -> mem_str (suffixed n j) seen = true.
Proof.
  revert c. induction fuel as [|fuel IH]; intros c; simpl.
  - split; [lia | intros j Hj; lia].
  - destruct (mem_str (suffixed n c) seen) eqn:E.
    + destruct (IH (S c)) as [Hb Hall]. split; [lia|].
      intros j Hj. destruct (Nat.eq_dec j c) as [->|Hne]; [exact E|].
      apply Hall. lia.
    + split; [lia | intros j Hj; lia].
Qed.

Lemma loop_fold_renames (job : string) (cols : list string) (st : loop_state) :
  exists added,
    let changed :=
      filter (fun p => negb (String.eqb (fst p) (snd p))) (combine cols added) in
    st_new_cols (fold_left (loop_body job) cols st) = st_new_cols st ++ added /\
    List.length added = List.length cols /\
    st_logs (fold_left (loop_body job) cols st) =
      st_logs st ++ map (fun p => rename_log job (fst p) (snd p)) changed /\
    st_modified (fold_left (loop_body job) cols st) = st_modified st ++ map snd changed.
Proof.
  revert st. induction cols as [|col cols IH]; intros st.
  - exists []. cbn. now rewrite !app_nil_r.
  - cbn [fold_left]. destruct (IH (loop_body job st col)) as [added [H1 [H2 [H3 H4]]]].
    exists (deduplicate (clean_name col) (st_seen st) :: added).
    cbv zeta in *. rewrite H1, H3, H4. unfold loop_body. cbn [st_new_cols st_logs st_modified].
    cbn [combine filter fst snd List.length].
    destruct (String.eqb col (deduplicate (clean_name col) (st_seen st)));
      cbn [negb map fst snd]; rewrite <- ?app_assoc; cbn [app]; repeat split; try reflexivity;
      now rewrite H2.
Qed.

(** X1.  Whatever the labels of the input table, every label of the
    table the normalizer returns is in clean form: non-empty, made of
    [a-z], [0-9] and underscore, not starting with a digit, with no
    underscore at either end and no two underscores in a row. *)
Theorem normalizer_output_labels_clean (df : frame) (context : PipelineContext) :
  Forall ColumnNormalizer.clean_form
         (column_names (res_df (fst (ColumnNormalizer.run df context)))).
Proof.
  unfold run. simpl. rewrite renamed_column_names.
  set (old := column_names df).
  destruct (loop_new_cols (ctx_job_id context) old) as [_ [Hcl Hlen]].
  set (new := st_new_cols (loop (ctx_job_id context) old)) in *.
  apply Forall_forall. intros x Hx. apply in_map_iff in Hx as [k [<- Hk]].
  unfold dict_get_default, rename_map, dict_of_pairs.
  destruct (dict_get _ k) as [v|] eqn:E.
  - apply dict_fold_get_in in E as [Hin | Hget]; [|discriminate Hget].
    apply in_combine_r in Hin. now apply (proj1 (Forall_forall _ _) Hcl).
  - exfalso. revert E. apply dict_fold_has_key.
    rewrite map_fst_combine by (symmetry; exact Hlen). exact Hk.
Qed.

(** X2.  On a table with pairwise distinct labels the normalizer only
    relabels: the labels it returns are pairwise distinct, and the row
    count, the engine, and the cells and dtype of every column, in order,
    are those of the input. *)
Theorem normalizer_relabels_only (df : frame) (context : PipelineContext) :
  NoDup (column_names df) ->
  let out := res_df (fst (ColumnNormalizer.run df context)) in
  NoDup (column_names out) /\
  n_rows out = n_rows df /\
  frame_is_dask out = frame_is_dask df /\
  map col_cells (columns out) = map col_cells (columns df) /\
  map col_dtype (columns out) = map col_dtype (columns df).
Proof.
  intros Hnd. cbv zeta.
  destruct (normalizer_distinct_labels df context Hnd) as [_ [Hd _]].
  split; [exact Hd|]. unfold run, rename_columns. cbn [fst res_df n_rows frame_is_dask columns].
  repeat split; now rewrite map_map.
Qed.

Lemma normalizer_relabels_only_witness :
  let out := res_df (fst (ColumnNormalizer.run ColumnNormalizer.df_messy_labels
                            sample_context)) in
  NoDup (column_names out) /\
  n_rows out = n_rows ColumnNormalizer.df_messy_labels /\
  frame_is_dask out = frame_is_dask ColumnNormalizer.df_messy_labels /\
  map col_cells (columns out) = map col_cells (columns ColumnNormalizer.df_messy_labels) /\
  map col_dtype (columns out) = map col_dtype (columns ColumnNormalizer.df_messy_labels).
Proof.
  apply (normalizer_relabels_only ColumnNormalizer.df_messy_labels sample_context).
  repeat constructor; simpl; intuition discriminate.
Defined.

(** X3.  Cleaning a name is idempotent: a cleaned name is left as it is
    by a second cleaning. *)
Theorem clean_name_idempotent (col : string) :
  ColumnNormalizer.clean_name (ColumnNormalizer.clean_name col) =
  ColumnNormalizer.clean_name col.
Proof. apply clean_name_fixed, clean_name_clean. Qed.

(** X4.  The de-duplication returns a name that is not among the names
    seen so far: the name itself when it is new, and otherwise the name
    with the first free numeric suffix, every smaller suffix from 1 on
    being taken. *)
Theorem deduplicate_first_free_suffix (n : string) (seen : list string) :
  ~ In (ColumnNormalizer.deduplicate n seen) seen /\
  (~ In n seen -> ColumnNormalizer.deduplicate n seen = n) /\
  (In n seen ->
   exists k, 1 <= k /\
     ColumnNormalizer.deduplicate n seen = ColumnNormalizer.suffixed n k /\
     forall j, 1 <= j < k -> In (ColumnNormalizer.suffixed n j) seen).
Proof.
  split; [apply deduplicate_fresh|]. split; [apply deduplicate_absent|].
  intros Hin. unfold deduplicate. apply mem_str_true in Hin. rewrite Hin.
  destruct (find_counter_first_free n seen (S (List.length seen)) 1) as [Hb Hall].
  eexists. split; [apply Hb|]. split; [reflexivity|].
  intros j Hj. apply mem_str_true. now apply Hall.
Qed.

(** X5.  On a table with pairwise distinct labels, the log of the
    normalizer holds one [rename_column] entry for each column whose label
    changed, in column order, with the old label as column name and the new
    label as value; the modified columns are the new labels of these
    columns; no warning is reported. *)
Theorem normalizer_logs_every_rename (df : frame) (context : PipelineContext) :
  NoDup (column_names df) ->
  let r := fst (ColumnNormalizer.run df context) in
  let changed :=
    filter (fun p => negb (String.eqb (fst p) (snd p)))
           (combine (column_names df) (column_names (res_df r))) in
  res_logs r =
    map (fun p => ColumnNormalizer.rename_log (ctx_job_id context) (fst p) (snd p)) changed /\
  res_modified_columns r = map snd changed /\
  res_warnings r = [].
Proof.
  intros Hnd. cbv zeta.
  destruct (normalizer_distinct_labels df context Hnd) as [-> _].
  unfold run. cbn [fst res_logs res_modified_columns res_warnings]. unfold loop.
  destruct (loop_fold_renames (ctx_job_id context) (column_names df) (mkLoop [] [] [] []))
    as [added [H1 [_ [H3 H4]]]].
  cbv zeta in *. cbn [st_new_cols st_logs st_modified app] in *.
  rewrite H1, H3, H4. repeat split.
Qed.

Lemma normalizer_logs_every_rename_witness :
  let r := fst (ColumnNormalizer.run ColumnNormalizer.df_messy_labels sample_context) in
  let changed :=
    filter (fun p => negb (String.eqb (fst p) (snd p)))
           (combine (column_names ColumnNormalizer.df_messy_labels)
                    (column_names (res_df r))) in
  res_logs r =
    map (fun p => ColumnNormalizer.rename_log (ctx_job_id sample_context) (fst p) (snd p))
        changed /\
  res_modified_columns r = map snd changed /\
  res_warnings r = [].
Proof.
  apply (normalizer_logs_every_rename ColumnNormalizer.df_messy_labels sample_context).
  repeat constructor; simpl; intuition discriminate.
Defined.

(** ** Domain profiles and Schema Analyzer: roles *)

Lemma dict_get_in_values {V} (d : pdict V) (k : string) (v : V) :
  dict_get d k = Some v -> In v (map snd d).
Proof.
  induction d as [|[k' v'] d IH]; simpl; [discriminate|].
  destruct (String.eqb k k'); [intros H; injection H as ->; now left | auto].
Qed.

Lemma domain_profile_cases (domain : string) :
  DomainProfiles.get_domain_profile domain = [] \/
  DomainProfiles.get_domain_profile domain = DomainProfiles.ai_incidents_known_columns.
Proof.
  assert (H : In (DomainProfiles.get_domain_profile domain)
                 [[]; DomainProfiles.ai_incidents_known_columns]).
  { unfold DomainProfiles.get_domain_profile. apply dict_get_default_in.
    - apply Forall_forall. intros kv Hin.
      unfold DomainProfiles.DOMAIN_PROFILES in Hin. simpl in Hin.
      repeat (destruct Hin as [<-|Hin]; [simpl; tauto|]). contradiction.
    - simpl. tauto. }
  destruct H as [H|[H|[]]]; auto.
Qed.

(** The roles a domain profile gives are never the target role. *)
Lemma profile_role_not_target (domain col r : string) :
  SchemaAnalyzer.profile_role (DomainProfiles.get_domain_profile domain) col = Some r ->
  In (DomainProfiles.to_pipeline_role r)
     ["constant_col"; "id_col"; "feature_col"; "datetime_col"; "text_col"].
Proof.
  destruct (domain_profile_cases domain) as [-> | ->]; [discriminate|].
  unfold SchemaAnalyzer.profile_role.
  destruct (dict_get DomainProfiles.ai_incidents_known_columns col) as [meta|] eqn:E;
    [|discriminate].
  apply dict_get_in_values in E. simpl in E.
  repeat (destruct E as [<-|E]; [simpl; intros H; injection H as <-; vm_compute; tauto|]).
  contradiction.
Qed.

Section SchemaAnalyzerRoles.
Import SchemaAnalyzer.

Variable to_datetime : list value -> option (list cell).
Variable repr_other : value -> string.

Local Abbreviation inferred :=
  ["constant_col"; "id_col"; "feature_col"; "datetime_col"; "text_col"].

Lemma infer_role_inferred (len : nat) (c : column) (role : string) (w : option string) :
  infer_role to_datetime repr_other len c = Ok (role, w) -> In role inferred.
Proof.
  unfold infer_role.
  destruct (Nat.eqb (nunique (col_cells c)) 1);
    [intros H; injection H as <- _; simpl; tauto|].
  destruct (Nat.eqb len 0); [discriminate|].
  destruct (Qltb _ _).
  { intros H. injection H as <- _. destruct (_ || _); simpl; tauto. }
  destruct (is_object_dtype _).
  { intros H. injection H as <- _. unfold text_rule.
    destruct (to_datetime _); [|simpl; tauto].
    destruct (nan_gt _ _); [simpl; tauto|]. destruct (nan_gt _ _); simpl; tauto. }
  destruct (is_datetime64_any_dtype _); intros H; injection H as <- _; simpl; tauto.
Qed.

Lemma step_column_role (domain : string) (sample : frame) (ctx ctx' : PipelineContext)
  (logs logs' : list log_entry) (col : string) :
  step_column to_datetime repr_other (DomainProfiles.get_domain_profile domain) sample
              (ctx, logs) col = Ok (ctx', logs') ->
  exists role, In role inferred /\
    ctx_schema ctx' = dict_set (ctx_schema ctx) col role.
Proof.
  unfold step_column.
  destruct (profile_role _ col) as [r|] eqn:Ep.
  - intros H. injection H as <- _. eexists. split; [|reflexivity].
    now apply (profile_role_not_target domain col).
  - destruct (select sample col) as [c|msg]; [|discriminate].
    destruct (infer_role to_datetime repr_other (n_rows sample) c) as [[role w]|] eqn:Ei;
      [|discriminate].
    intros H. injection H as <- _. exists role. split.
    + now apply infer_role_inferred in Ei.
    + now destruct w.
Qed.

Lemma for_columns_roles (domain : string) (sample : frame) (cols : list string)
  (ctx ctx' : PipelineContext) (logs logs' : list log_entry) :
  for_columns to_datetime repr_other (DomainProfiles.get_domain_profile domain) sample cols
              (ctx, logs) = Ok (ctx', logs') ->
  forall k,
    In k cols \/
    (exists role, dict_get (ctx_schema ctx) k = Some role /\ In role inferred) ->
    exists role, dict_get (ctx_schema ctx') k = Some role /\ In role inferred.
Proof.
  revert ctx logs. induction cols as [|col cols IH]; intros ctx logs.
  - cbn [for_columns]. intros H. injection H as <- _. intros k [[]|Hk]. exact Hk.
  - cbn [for_columns].
    destruct (step_column _ _ _ _ (ctx, logs) col) as [[ctx1 logs1]|] eqn:Es; [|discriminate].
    intros H k Hk. apply (IH ctx1 logs1 H k).
    destruct (step_column_role domain sample ctx ctx1 logs logs1 col Es) as [role [Hr Hs]].
    destruct Hk as [[Hk|Hk]|Hk].
    + right. exists role. rewrite Hs, <- Hk. now rewrite dict_get_set_eq.
    + now left.
    + right. destruct (string_dec col k) as [E|E].
      * exists role. rewrite Hs, <- E. now rewrite dict_get_set_eq.
      * destruct Hk as [r0 [Hg Hin]]. exists r0. rewrite Hs.
        now rewrite dict_get_set_neq.
Qed.

(** On a table without rows the uniqueness ratio divides by zero at the
    first column that the profile does not know. *)
Lemma for_columns_no_rows (kc : pdict (pdict string)) (sample : frame) (cols : list string)
  (acc : PipelineContext * list log_entry) :
  n_rows sample = 0 -> NoDup (column_names sample) ->
  (forall c, In c (columns sample) -> col_cells c = []) ->
  (forall col, In col cols -> In col (column_names sample)) ->
  (exists col, In col cols /\ profile_role kc col = None) ->
  for_columns to_datetime repr_other kc sample cols acc = Raise "ZeroDivisionError".
Proof.
  intros Hn Hnd Hcells. revert acc.
  induction cols as [|col cols IH]; intros [ctx logs] Hsub [c0 [Hin Hp]];
    [contradiction|].
  cbn [for_columns]. unfold step_column.
  destruct (profile_role kc col) as [r|] eqn:Ep.
  - apply IH; [intros x Hx; apply Hsub; now right|].
    destruct Hin as [->|Hin]; [congruence|]. now exists c0.
  - destruct (select_unique sample col Hnd (Hsub col (or_introl eq_refl))) as [c Hc].
    rewrite Hc. apply select_get, find_column_name in Hc as [_ Hc].
    unfold infer_role. rewrite (Hcells c Hc), Hn. reflexivity.
Qed.

End SchemaAnalyzerRoles.

(** X6.  [to_pipeline_role] always returns one of the six role names of
    the pipeline, leaves each of these names as it is, and is therefore
    idempotent. *)
Theorem to_pipeline_role_canonical (r : string) :
  In (DomainProfiles.to_pipeline_role r) pipeline_roles /\
  (forall role, In role pipeline_roles -> DomainProfiles.to_pipeline_role role = role) /\
  DomainProfiles.to_pipeline_role (DomainProfiles.to_pipeline_role r) =
    DomainProfiles.to_pipeline_role r.
Proof.
  assert (Hfix : forall role, In role pipeline_roles ->
                   DomainProfiles.to_pipeline_role role = role).
  { intros role H. simpl in H.
    repeat (destruct H as [<-|H]; [reflexivity|]). contradiction. }
  split; [apply to_pipeline_role_valid|]. split; [exact Hfix|].
  apply Hfix, to_pipeline_role_valid.
Qed.

(** X7.  Whenever the Schema Analyzer returns, every column of the table
    has one of the roles [constant_col], [id_col], [feature_col],
    [datetime_col], [text_col] in the schema: neither the heuristics nor
    any domain profile ever assigns [target_col]. *)
Theorem schema_analyzer_never_assigns_target
  (to_datetime : list value -> option (list cell)) (repr_other : value -> string)
  (df : frame) (context : PipelineContext) (res : StepResult) (context' : PipelineContext) :
  SchemaAnalyzer.run to_datetime repr_other df context = Ok (res, context') ->
  forall col, In col (column_names df) ->
    exists role,
      dict_get (ctx_schema context') col = Some role /\
      In role ["constant_col"; "id_col"; "feature_col"; "datetime_col"; "text_col"] /\
      role <> "target_col".
Proof.
  unfold SchemaAnalyzer.run.
  destruct (SchemaAnalyzer.for_columns _ _ _ _ _ (context, [])) as [[ctx1 logs1]|] eqn:E;
    [|discriminate].
  intros H col Hcol. injection H as _ <-.
  destruct (for_columns_roles to_datetime repr_other _ _ _ _ _ _ _ E col) as [role [Hg Hr]].
  { left. exact Hcol. }
  exists role. split; [exact Hg|]. split; [exact Hr|].
  simpl in Hr. intros ->. intuition discriminate.
Qed.

Lemma schema_analyzer_never_assigns_target_witness :
  exists role,
    dict_get [("user_id", "id_col"); ("country", "constant_col"); ("plan", "feature_col");
              ("seen_at", "datetime_col")] "plan" = Some role /\
    In role ["constant_col"; "id_col"; "feature_col"; "datetime_col"; "text_col"] /\
    role <> "target_col".
Proof.
  refine (schema_analyzer_never_assigns_target
           SchemaAnalyzer.no_date_parses SchemaAnalyzer.repr_blank
           SchemaAnalyzer.df_roles sample_context
           (mkResult SchemaAnalyzer.df_roles
              [SchemaAnalyzer.role_log "job-1" "user_id" "id_col" false;
               SchemaAnalyzer.role_log "job-1" "country" "constant_col" false;
               SchemaAnalyzer.role_log "job-1" "plan" "feature_col" false;
               SchemaAnalyzer.role_log "job-1" "seen_at" "datetime_col" false] [] [])
           (mkContext "dataset-1" "general" "job-1"
              [("user_id", "id_col"); ("country", "constant_col"); ("plan", "feature_col");
               ("seen_at", "datetime_col")] false
              [SchemaAnalyzer.constant_warning "country"])
           eq_refl "plan" _).
  simpl. tauto.
Defined.

Lemma schema_run_no_rows
  (to_datetime : list value -> option (list cell)) (repr_other : value -> string)
  (df : frame) (context : PipelineContext) :
  NoDup (column_names df) ->
  n_rows df = 0 ->
  (forall c, In c (columns df) -> col_cells c = []) ->
  (exists c, In c (columns df) /\
     SchemaAnalyzer.profile_role (DomainProfiles.get_domain_profile (ctx_domain context))
       (col_name c) = None) ->
  SchemaAnalyzer.run to_datetime repr_other df context = Raise "ZeroDivisionError".
Proof.
  intros Hnd Hn Hcells [c [Hin Hp]]. unfold SchemaAnalyzer.run.
  rewrite for_columns_no_rows; [reflexivity| | | | |].
  - destruct (frame_is_dask df); [|exact Hn].
    unfold frame_head. cbn [n_rows]. rewrite Hn. apply Nat.min_0_r.
  - destruct (frame_is_dask df); [|exact Hnd].
    unfold column_names at 1. now rewrite frame_head_names.
  - destruct (frame_is_dask df); [|exact Hcells].
    intros x Hx. cbn [frame_head columns] in Hx. apply in_map_iff in Hx as [y [<- Hy]].
    cbn [col_cells]. rewrite (Hcells y Hy). apply firstn_nil.
  - intros col Hcol. destruct (frame_is_dask df); [|exact Hcol].
    unfold column_names at 1. now rewrite frame_head_names.
  - exists (col_name c). split; [now apply in_map | exact Hp].
Qed.

(** X8.  On a table without rows (every column empty) with pairwise
    distinct labels that has a column the domain profile does not know,
    the Schema Analyzer raises [ZeroDivisionError]: the uniqueness ratio
    divides by the length of the sample. *)
Theorem schema_analyzer_empty_table_raises
  (to_datetime : list value -> option (list cell)) (repr_other : value -> string)
  (df : frame) (context : PipelineContext) :
  NoDup (column_names df) ->
  n_rows df = 0 ->
  (forall c, In c (columns df) -> col_cells c = []) ->
  (exists c, In c (columns df) /\
     SchemaAnalyzer.profile_role (DomainProfiles.get_domain_profile (ctx_domain context))
       (col_name c) = None) ->
  SchemaAnalyzer.run to_datetime repr_other df context = Raise "ZeroDivisionError".
Proof. apply schema_run_no_rows. Qed.

Lemma schema_analyzer_empty_table_raises_witness :
  SchemaAnalyzer.run SchemaAnalyzer.no_date_parses SchemaAnalyzer.repr_blank
    (mkFrame false 0 [mkColumn "amount" DFloat []]) sample_context =
  Raise "ZeroDivisionError".
Proof.
  apply schema_analyzer_empty_table_raises.
  - repeat constructor; simpl; intuition discriminate.
  - reflexivity.
  - intros c [<-|[]]. reflexivity.
  - eexists. split; [now left | reflexivity].
Defined.

(** ** Type Fixer: what a run changes *)

Lemma filter_short_has_failure {A} (f : A -> bool) (l : list A) :
  List.length (filter f l) < List.length l -> exists x, In x l /\ f x = false.
Proof.
  induction l as [|a l IH]; simpl; [lia|].
  destruct (f a) eqn:E; simpl; intros H.
  - destruct IH as [x [Hx Hf]]; [lia|]. exists x. auto.
  - exists a. auto.
Qed.

Lemma in_firstn {A} (n : nat) (l : list A) (x : A) : In x (firstn n l) -> In x l.
Proof.
  revert l. induction n as [|n IH]; intros [|a l]; simpl; try contradiction.
  intros [H|H]; auto.
Qed.

Lemma in_dropna (cells : list cell) (v : value) : In v (dropna cells) <-> In (Some v) cells.
Proof.
  induction cells as [|[w|] tl IH]; simpl; [tauto| |].
  - rewrite IH. split; intros [H|H]; auto; left; congruence.
  - rewrite IH. split; [auto | intros [H|H]; [discriminate | exact H]].
Qed.

(** A map that keeps the missing cells missing and loses one present
    cell has more missing cells. *)
Lemma null_count_map_grows (f : cell -> cell) (cells : list cell) (v : value) :
  f None = None -> In (Some v) cells -> f (Some v) = None ->
  null_count cells < null_count (map f cells).
Proof.
  intros Hnone Hin Hv.
  assert (Hle : forall l, null_count l <= null_count (map f l)).
  { induction l as [|c l IH]; [apply Nat.le_refl|].
    cbn [map]. rewrite !null_count_cons. destruct c as [w|]; [simpl; lia|].
    rewrite Hnone. simpl. lia. }
  induction cells as [|c tl IH]; [contradiction|].
  cbn [map]. rewrite !null_count_cons. destruct Hin as [->|Hin].
  - rewrite Hv. simpl. specialize (Hle tl). lia.
  - specialize (IH Hin). destruct c as [w|]; [simpl; lia|]. rewrite Hnone. simpl. lia.
Qed.

Section TypeFixerLayout.
Import TypeFixer.

Variable parse_number : string -> option Q.
Variable repr_other : value -> string.
Variable to_datetime : list cell -> outcome (list cell).

Local Abbreviation fix_col := (fix_column parse_number repr_other to_datetime).
Local Abbreviation body := (loop_body parse_number repr_other to_datetime).

Lemma body_layout (context : PipelineContext) (st : loop_state) (col : string) :
  column_names (st_df (body context st col)) = column_names (st_df st) /\
  n_rows (st_df (body context st col)) = n_rows (st_df st) /\
  frame_is_dask (st_df (body context st col)) = frame_is_dask (st_df st).
Proof.
  unfold loop_body. destruct (frame_get (st_df st) col) as [c|] eqn:Hget; [|auto].
  destruct (is_object_dtype (col_dtype c)); [|auto].
  pose proof (fix_column_name parse_number repr_other to_datetime
                (frame_is_dask (st_df st)) (n_rows (st_df st))
                (dict_get (ctx_schema context) col) c) as Hname.
  destruct (fix_col _ _ _ c) as [c' done]. cbn [fst] in Hname.
  cbn [st_df]. unfold frame_set, column_names. cbn [columns n_rows frame_is_dask].
  split; [|auto]. apply set_column_names_present. rewrite Hname.
  apply find_column_name in Hget as [_ Hin]. now apply in_map.
Qed.

Lemma fold_layout (context : PipelineContext) (names : list string) (st : loop_state) :
  column_names (st_df (fold_left (body context) names st)) = column_names (st_df st) /\
  n_rows (st_df (fold_left (body context) names st)) = n_rows (st_df st) /\
  frame_is_dask (st_df (fold_left (body context) names st)) = frame_is_dask (st_df st).
Proof.
  revert st. induction names as [|n names IH]; intros st; [auto|].
  cbn [fold_left]. destruct (IH (body context st n)) as [I1 [I2 I3]].
  destruct (body_layout context st n) as [B1 [B2 B3]].
  repeat split; congruence.
Qed.

Lemma strip_eager_null_count (cells : list cell) :
  null_count (strip_cells repr_other false cells) = null_count cells.
Proof.
  unfold strip_cells. induction cells as [|x l IH]; [reflexivity|].
  cbn [map]. rewrite !null_count_cons, IH. now destruct x.
Qed.

(** What the numeric coercion leaves of a column on the eager engine. *)
Lemma fix_column_numeric (len : nat) (role : option string) (c c' : column) :
  fix_col false len role c = (c', CoerceNumeric) ->
  col_dtype c' = DFloat /\ null_count (col_cells c) < null_count (col_cells c').
Proof.
  unfold fix_column.
  set (stripped := strip_cells repr_other false (col_cells c)).
  destruct (sample_of false len stripped) as [|s0 rest] eqn:Es; [discriminate|].
  destruct (numeric_test parse_number (s0 :: rest)) eqn:En.
  - intros H. injection H as <-. cbn [col_dtype col_cells]. split; [reflexivity|].
    apply numeric_test_counts in En as [_ Hlt]. unfold valid_count in Hlt.
    apply filter_short_has_failure in Hlt as [s [Hs Hf]].
    rewrite <- Es in Hs. unfold sample_of in Hs.
    apply in_map_iff in Hs as [v [<- Hv]]. apply in_firstn, in_dropna in Hv.
    unfold notna in Hf. apply negb_false_iff in Hf.
    assert (Hnone : to_numeric_cell parse_number (Some v) = None).
    { destruct (to_numeric_cell parse_number (Some v)); [discriminate Hf | reflexivity]. }
    rewrite <- (strip_eager_null_count (col_cells c)). fold stripped.
    now apply (null_count_map_grows (to_numeric_cell parse_number) stripped v).
  - destruct (boolean_test repr_other (s0 :: rest)); [discriminate|].
    destruct role as [r|]; [|discriminate].
    destruct (String.eqb r "datetime_col"); [|discriminate].
    destruct (to_datetime stripped); discriminate.
Qed.

End TypeFixerLayout.

(** X9.  The Type Fixer never adds, drops, renames or reorders columns:
    the labels of the table it returns are those of the input, in order,
    and the row count and the engine are unchanged. *)
Theorem type_fixer_keeps_layout
  (parse_number : string -> option Q) (repr_other : value -> string)
  (to_datetime : list cell -> outcome (list cell))
  (df : frame) (context : PipelineContext) :
  let r := TypeFixer.run parse_number repr_other to_datetime df context in
  column_names (res_df r) = column_names df /\
  n_rows (res_df r) = n_rows df /\
  frame_is_dask (res_df r) = frame_is_dask df.
Proof.
  cbv zeta. unfold TypeFixer.run. cbn [res_df].
  apply (fold_layout parse_number repr_other to_datetime context (column_names df)
           (TypeFixer.mkLoop df [] [] [])).
Qed.

(** X10.  In a table with pairwise distinct labels, a column whose dtype
    is not [object] comes out of the Type Fixer as it went in, with no log
    entry about it, and is not reported as modified. *)
Theorem type_fixer_leaves_typed_columns
  (parse_number : string -> option Q) (repr_other : value -> string)
  (to_datetime : list cell -> outcome (list cell))
  (df : frame) (context : PipelineContext) (c : column) :
  NoDup (column_names df) -> In c (columns df) ->
  is_object_dtype (col_dtype c) = false ->
  let r := TypeFixer.run parse_number repr_other to_datetime df context in
  frame_get (res_df r) (col_name c) = Some c /\
  TypeFixer.logs_about (col_name c) (res_logs r) = [] /\
  ~ In (col_name c) (res_modified_columns r).
Proof.
  intros Hnd Hin Hobj. cbv zeta. unfold TypeFixer.run.
  cbn [res_df res_logs res_modified_columns].
  destruct (fold_effect parse_number repr_other to_datetime context (column_names df)
              (TypeFixer.mkLoop df [] [] []) Hnd) as [_ [_ [F3 [F4 F5]]]].
  cbn [TypeFixer.st_df TypeFixer.st_logs TypeFixer.st_modified] in F3, F4, F5.
  assert (Hget : frame_get df (col_name c) = Some c) by now apply find_column_in.
  assert (Heff : TypeFixer.column_effect parse_number repr_other to_datetime context df
                   (col_name c) = None).
  { unfold TypeFixer.column_effect. now rewrite Hget, Hobj. }
  assert (Hmem : In (col_name c) (column_names df)) by now apply in_map.
  split; [|split].
  - now rewrite F3, Heff.
  - rewrite F4, app_nil_l. unfold TypeFixer.logs_about.
    etransitivity.
    + apply (filter_flat_map_tagged
               (fun l m => match log_column_name l with
                           | Some n => String.eqb n m
                           | None => false
                           end) _ (column_names df) (col_name c));
        [|exact Hnd | exact Hmem].
      intros n x Hx m.
      destruct (TypeFixer.column_effect _ _ _ context df n) as [[c' d]|]; [|contradiction].
      destruct d; simpl in Hx; try contradiction; destruct Hx as [<-|[]]; reflexivity.
    + cbv beta. now rewrite Heff.
  - rewrite F5, app_nil_l. intros Hm. apply in_flat_map in Hm as [n [Hn Hx]].
    destruct (TypeFixer.column_effect _ _ _ context df n) as [[c' d]|] eqn:En;
      [|contradiction].
    assert (n = col_name c).
    { destruct d; simpl in Hx; try contradiction; destruct Hx as [<-|[]]; reflexivity. }
    subst n. congruence.
Qed.

Lemma type_fixer_leaves_typed_columns_witness :
  let r := TypeFixer.run TypeFixer.parse_digits TypeFixer.repr_blank TypeFixer.never_raises
             TypeFixer.df_mostly_numeric sample_context in
  frame_get (res_df r) "n" = Some (mkColumn "n" DInt (repeat (Some (VNum 1)) 40)) /\
  TypeFixer.logs_about "n" (res_logs r) = [] /\
  ~ In "n" (res_modified_columns r).
Proof.
  apply (type_fixer_leaves_typed_columns TypeFixer.parse_digits TypeFixer.repr_blank
           TypeFixer.never_raises TypeFixer.df_mostly_numeric sample_context
           (mkColumn "n" DInt (repeat (Some (VNum 1)) 40))).
  - repeat constructor; simpl; intuition discriminate.
  - right. now left.
  - reflexivity.
Defined.

(** X11.  On the eager engine, in a table with pairwise distinct labels,
    whenever the Type Fixer logs a numeric coercion of a column, the column
    comes out with dtype float and with more missing values than it had:
    the coercion is applied only when some sampled value does not parse,
    and that value is lost. *)
Theorem type_fixer_numeric_coercion_loses_values
  (parse_number : string -> option Q) (repr_other : value -> string)
  (to_datetime : list cell -> outcome (list cell))
  (df : frame) (context : PipelineContext) (c : column) :
  NoDup (column_names df) -> In c (columns df) ->
  is_object_dtype (col_dtype c) = true ->
  frame_is_dask df = false ->
  let r := TypeFixer.run parse_number repr_other to_datetime df context in
  In (TypeFixer.coercion_log (ctx_job_id context) "coerce_numeric" (col_name c))
     (res_logs r) ->
  exists c',
    frame_get (res_df r) (col_name c) = Some c' /\
    col_dtype c' = DFloat /\
    null_count (col_cells c) < null_count (col_cells c').
Proof.
  intros Hnd Hin Hobj Heager. cbv zeta. intros Hlog.
  destruct (run_on_column parse_number repr_other to_datetime df context c Hnd Hin Hobj)
    as [R1 [R2 _]].
  assert (Hl : In (TypeFixer.coercion_log (ctx_job_id context) "coerce_numeric" (col_name c))
                  (TypeFixer.logs_about (col_name c)
                     (res_logs (TypeFixer.run parse_number repr_other to_datetime df context)))).
  { unfold TypeFixer.logs_about. apply filter_In. split; [exact Hlog|].
    cbn. apply String.eqb_refl. }
  rewrite R2 in Hl. rewrite Heager in *.
  destruct (TypeFixer.fix_column parse_number repr_other to_datetime false (n_rows df)
              (dict_get (ctx_schema context) (col_name c)) c) as [c' d] eqn:Ef.
  cbn [fst snd] in *. exists c'. split; [exact R1|].
  destruct d; simpl in Hl; try contradiction.
  - now apply (fix_column_numeric parse_number repr_other to_datetime _ _ _ _ Ef).
  - destruct Hl as [Hl|[]]. discriminate Hl.
Qed.

Lemma type_fixer_numeric_coercion_loses_values_witness :
  exists c',
    frame_get (res_df (TypeFixer.run TypeFixer.parse_digits TypeFixer.repr_blank
                         TypeFixer.never_raises TypeFixer.df_mostly_numeric sample_context))
              "flag" = Some c' /\
    col_dtype c' = DFloat /\
    null_count TypeFixer.flag_cells < null_count (col_cells c').
Proof.
  apply (type_fixer_numeric_coercion_loses_values TypeFixer.parse_digits
           TypeFixer.repr_blank TypeFixer.never_raises TypeFixer.df_mostly_numeric
           sample_context (mkColumn "flag" DObject TypeFixer.flag_cells)).
  - repeat constructor; simpl; intuition discriminate.
  - now left.
  - reflexivity.
  - reflexivity.
  - vm_compute. now left.
Defined.

(** ** Missing Value Handler: what imputation does to a column *)

Section MissingHandlerColumns.
Import MissingValueHandler.

Variable approx_median : list Q -> Q.
Variable context : PipelineContext.

Local Abbreviation body := (loop_body approx_median context).

Lemma body_engine (total : nat) (st : loop_state) (item : string * nat) :
  frame_is_dask (st_df (body total st item)) = frame_is_dask (st_df st).
Proof.
  destruct item as [col count]. unfold loop_body.
  destruct (Nat.eqb count 0); [reflexivity|].
  destruct (Qltb _ _); [reflexivity|].
  destruct (frame_get (st_df st) col); [|reflexivity].
  cbn [st_df]. unfold frame_set. cbn [frame_is_dask].
  now destruct (Qle_bool _ _).
Qed.

Lemma fold_engine (total : nat) (items : list (string * nat)) (st : loop_state) :
  frame_is_dask (st_df (fold_left (body total) items st)) = frame_is_dask (st_df st).
Proof.
  revert st. induction items as [|it items IH]; intros st; [reflexivity|].
  cbn [fold_left]. now rewrite IH, body_engine.
Qed.

(** The state of a column and of its indicator after the run, from the
    state of the column before it. *)
Lemma run_at_column (df : frame) (c : column) :
  well_formed df -> In c (columns df) -> n_rows df <> 0 ->
  let out := res_df (fst (run approx_median df context)) in
  let col := col_name c in
  let k := null_count (col_cells c) in
  let n := n_rows df in
  let method :=
    impute_method (dict_get_default (ctx_schema context) col "feature_col") (col_dtype c) in
  let fill_val := fill_value approx_median (frame_is_dask df) method (col_cells c) in
  (k = 0 \/ 30 * n < 100 * k ->
     frame_get out col = Some c /\ frame_get out (indicator_name col) = None) /\
  (0 < k -> 100 * k <= 30 * n ->
     frame_get out col = Some (mkColumn col (col_dtype c) (impute method fill_val (col_cells c))) /\
     frame_get out (indicator_name col) =
       if Nat.leb (5 * n) (100 * k) then Some (indicator_column (frame_is_dask df) c)
       else None).
Proof.
  intros [Hnd [Hlen [Hty Hind]]] Hin En. cbv zeta.
  assert (Hname : In (col_name c) (column_names df)) by now apply in_map.
  assert (Hnoind : frame_get df (indicator_name (col_name c)) = None).
  { destruct (frame_get df _) eqn:E; [|reflexivity].
    exfalso. apply (Hind (col_name c) (indicator_name (col_name c)));
      [exact Hname | | reflexivity].
    apply frame_get_in_names. congruence. }
  unfold run. apply Nat.eqb_neq in En. rewrite En. apply Nat.eqb_neq in En.
  cbn [fst res_df].
  destruct (in_split c (columns df) Hin) as [l1 [l2 Hsplit]].
  set (f := fun c0 : column => (col_name c0, null_count (col_cells c0))).
  assert (Hitems : null_counts df =
                   map f l1 ++ (col_name c, null_count (col_cells c)) :: map f l2).
  { unfold null_counts. rewrite Hsplit, map_app. reflexivity. }
  rewrite Hitems, fold_left_app. cbn [fold_left].
  set (st0 := mkLoop df (ctx_warnings context) [] []).
  set (st1 := fold_left (body (n_rows df)) (map f l1) st0).
  set (st2 := body (n_rows df) st1 (col_name c, null_count (col_cells c))).
  assert (Hnd' : NoDup (map col_name l1 ++ col_name c :: map col_name l2)).
  { unfold column_names in Hnd. rewrite Hsplit, map_app in Hnd. exact Hnd. }
  assert (Hnot : ~ In (col_name c) (map col_name l1 ++ map col_name l2)).
  { now apply NoDup_remove_2 in Hnd'. }
  assert (Hothers : forall l, (forall x, In x l -> In x (columns df)) ->
            ~ In (col_name c) (map col_name l) ->
            forall it, In it (map f l) ->
              (fst it <> col_name c /\ indicator_name (fst it) <> col_name c) /\
              (fst it <> indicator_name (col_name c) /\
               indicator_name (fst it) <> indicator_name (col_name c))).
  { intros l Hsub Hl it Hit. apply in_map_iff in Hit as [c0 [<- Hc0]]. simpl fst.
    assert (Hc0n : In (col_name c0) (column_names df)) by (apply in_map; auto).
    assert (Hne : col_name c0 <> col_name c).
    { intros E. apply Hl. rewrite <- E. now apply in_map. }
    repeat split.
    - exact Hne.
    - intros E. apply (Hind (col_name c0) (col_name c)); auto.
    - apply Hind; auto.
    - intros E. apply Hne. now apply indicator_name_inj. }
  assert (Hsub1 : forall x, In x l1 -> In x (columns df)).
  { intros x Hx. rewrite Hsplit. apply in_or_app. now left. }
  assert (Hsub2 : forall x, In x l2 -> In x (columns df)).
  { intros x Hx. rewrite Hsplit. apply in_or_app. right. now right. }
  assert (Hn1 : ~ In (col_name c) (map col_name l1)).
  { intros H. apply Hnot. apply in_or_app. now left. }
  assert (Hn2 : ~ In (col_name c) (map col_name l2)).
  { intros H. apply Hnot. apply in_or_app. now right. }
  assert (G1 : frame_get (st_df st1) (col_name c) = Some c).
  { unfold st1. rewrite fold_keeps.
    - simpl. now apply find_column_in.
    - intros it Hit. now apply (Hothers l1 Hsub1 Hn1 it Hit). }
  assert (G1' : frame_get (st_df st1) (indicator_name (col_name c)) = None).
  { unfold st1. rewrite fold_keeps.
    - exact Hnoind.
    - intros it Hit. now apply (Hothers l1 Hsub1 Hn1 it Hit). }
  assert (G3 : forall m, m = col_name c \/ m = indicator_name (col_name c) ->
             frame_get (st_df (fold_left (body (n_rows df)) (map f l2) st2)) m =
             frame_get (st_df st2) m).
  { intros m Hm. apply fold_keeps. intros it Hit.
    destruct (Hothers l2 Hsub2 Hn2 it Hit) as [[A B] [C D]].
    destruct Hm as [-> | ->]; auto. }
  assert (Heng : frame_is_dask (st_df st1) = frame_is_dask df).
  { unfold st1. now rewrite fold_engine. }
  destruct (body_own approx_median context (n_rows df) st1 (col_name c)
              (null_count (col_cells c)) c G1 En) as [Own1 [Own2 Own3]].
  fold st2 in Own1, Own2, Own3. rewrite Heng in Own2.
  rewrite !G3 by auto. split.
  - intros [Hk|H30].
    + rewrite (Own3 Hk). auto.
    + destruct (Own1 H30) as [-> _]. auto.
  - intros Hk H30. destruct (Own2 Hk H30) as [E1 E2]. rewrite E1, E2, G1'. auto.
Qed.

Lemma fillna_keeps_present (fill_val : cell) (cells : list cell) (i : nat) (v : value) :
  nth_error cells i = Some (Some v) -> nth_error (fillna fill_val cells) i = Some (Some v).
Proof.
  unfold fillna. revert i. induction cells as [|c tl IH]; intros [|i] H; simpl in *;
    try discriminate; auto.
  injection H as ->. reflexivity.
Qed.

Lemma ffill_from_keeps_present (last : cell) (cells : list cell) (i : nat) (v : value) :
  nth_error cells i = Some (Some v) -> nth_error (ffill_from last cells) i = Some (Some v).
Proof.
  revert last i. induction cells as [|[w|] tl IH]; intros last [|i] H; simpl in *;
    try discriminate; auto.
Qed.

Lemma ffill_from_length (last : cell) (cells : list cell) :
  List.length (ffill_from last cells) = List.length cells.
Proof.
  revert last. induction cells as [|[w|] tl IH]; intros last; simpl; auto.
Qed.

Lemma impute_keeps_present (method : string) (fill_val : cell) (cells : list cell) :
  List.length (impute method fill_val cells) = List.length cells /\
  forall i v, nth_error cells i = Some (Some v) ->
              nth_error (impute method fill_val cells) i = Some (Some v).
Proof.
  unfold impute. destruct (String.eqb method "ffill").
  - split; [apply ffill_from_length | intros i v; apply ffill_from_keeps_present].
  - split; [apply length_map | intros i v; apply fillna_keeps_present].
Qed.

End MissingHandlerColumns.

(** X12.  Imputation never touches a present value: in a well-formed
    table, every column is found after the run under its label with its
    number of cells, and every cell that held a value holds the same
    value; only missing cells change. *)
Theorem missing_handler_keeps_present_values
  (approx_median : list Q -> Q) (df : frame) (context : PipelineContext) (c : column) :
  MissingValueHandler.well_formed df -> In c (columns df) ->
  exists c',
    frame_get (res_df (fst (MissingValueHandler.run approx_median df context))) (col_name c)
      = Some c' /\
    List.length (col_cells c') = List.length (col_cells c) /\
    forall i v, nth_error (col_cells c) i = Some (Some v) ->
                nth_error (col_cells c') i = Some (Some v).
Proof.
  intros Hwf Hin.
  destruct (Nat.eq_dec (n_rows df) 0) as [E0|E0].
  { exists c. unfold MissingValueHandler.run. apply Nat.eqb_eq in E0. rewrite E0.
    cbn [fst res_df]. destruct Hwf as [Hnd _].
    split; [now apply find_column_in | auto]. }
  destruct (run_at_column approx_median context df c Hwf Hin E0) as [Hsame Himp].
  cbv zeta in Hsame, Himp.
  destruct (Nat.eq_dec (null_count (col_cells c)) 0) as [Ek|Ek].
  { exists c. destruct Hsame as [-> _]; auto. }
  destruct (Nat.lt_ge_cases (30 * n_rows df) (100 * null_count (col_cells c))) as [H30|H30].
  { exists c. destruct Hsame as [-> _]; auto. }
  destruct Himp as [-> _]; [lia | exact H30 |].
  eexists. split; [reflexivity|]. cbn [col_cells]. apply impute_keeps_present.
Qed.

(** The column [age] of [df_gaps] has one gap in ten values: it is
    imputed with the median, 30, and its nine values stay. *)
Lemma missing_handler_keeps_present_values_witness :
  let age := map (fun q => Some (VNum q)) [25; 30; 22; 41; 35]%Q ++ [None] ++
             map (fun q => Some (VNum q)) [28; 30; 52; 47]%Q in
  exists c',
    frame_get (res_df (fst (MissingValueHandler.run MissingValueHandler.exact_median
                              MissingValueHandler.df_gaps sample_context))) "age"
      = Some c' /\
    List.length (col_cells c') = List.length age /\
    forall i v, nth_error age i = Some (Some v) ->
                nth_error (col_cells c') i = Some (Some v).
Proof.
  apply (missing_handler_keeps_present_values MissingValueHandler.exact_median
           MissingValueHandler.df_gaps sample_context
           (mkColumn "age" DFloat
              (map (fun q => Some (VNum q)) [25; 30; 22; 41; 35]%Q ++ [None] ++
               map (fun q => Some (VNum q)) [28; 30; 52; 47]%Q))).
  - split; [|split; [|split]].
    + repeat constructor; simpl; intuition discriminate.
    + intros c [<-|[<-|[]]]; reflexivity.
    + intros c [<-|[<-|[]]] H; [|discriminate H].
      repeat constructor; simpl; discriminate.
    + intros a b [<-|[<-|[]]] [<-|[<-|[]]]; discriminate.
  - now left.
Defined.

(** The run on [df_gaps]: the gap of [age] is filled with the median and
    the column [city], with six gaps in ten values, is left alone. *)
Example missing_handler_fills_the_gap :
  let r := fst (MissingValueHandler.run MissingValueHandler.exact_median
                  MissingValueHandler.df_gaps sample_context) in
  option_map (fun c => map (fun x => match x with
                                     | Some (VNum q) => Some (Qred q)
                                     | _ => None
                                     end) (col_cells c))
             (frame_get (res_df r) "age") =
    Some (map Some [25; 30; 22; 41; 35; 30; 28; 30; 52; 47]%Q) /\
  option_map (fun c => null_count (col_cells c)) (frame_get (res_df r) "city") = Some 6.
Proof. vm_compute. split; reflexivity. Qed.

(** X13.  The indicator column records the missing cells of the column
    as they were before the imputation.  In a well-formed table with
    [n > 0] rows, for a column with [k] nulls and [0.05 <= k/n <= 0.30],
    the column [{col}_was_missing] of the result is the null mask of the
    input column: 1 where the cell was missing and 0 elsewhere on the eager
    engine, the booleans on the partitioned one. *)
Theorem missing_handler_indicator_is_null_mask
  (approx_median : list Q -> Q) (df : frame) (context : PipelineContext) (c : column) :
  MissingValueHandler.well_formed df -> In c (columns df) ->
  0 < n_rows df ->
  5 * n_rows df <= 100 * null_count (col_cells c) ->
  100 * null_count (col_cells c) <= 30 * n_rows df ->
  exists ind,
    frame_get (res_df (fst (MissingValueHandler.run approx_median df context)))
              (MissingValueHandler.indicator_name (col_name c)) = Some ind /\
    col_cells ind =
      (if frame_is_dask df
       then map (fun x => Some (VBool (is_null x))) (col_cells c)
       else map (fun x => Some (VNum (if is_null x then 1 else 0)%Q)) (col_cells c)) /\
    col_dtype ind = (if frame_is_dask df then DBool else DInt).
Proof.
  intros Hwf Hin Hn H5 H30.
  destruct (run_at_column approx_median context df c Hwf Hin) as [_ Himp]; [lia|].
  cbv zeta in Himp. destruct Himp as [_ E]; [lia | exact H30 |].
  apply Nat.leb_le in H5. rewrite H5 in E.
  eexists. split; [exact E|]. unfold MissingValueHandler.indicator_column.
  now destruct (frame_is_dask df).
Qed.

Lemma missing_handler_indicator_is_null_mask_witness :
  exists ind,
    frame_get (res_df (fst (MissingValueHandler.run MissingValueHandler.exact_median
                              MissingValueHandler.df_gaps sample_context)))
              (MissingValueHandler.indicator_name "age") = Some ind /\
    col_cells ind =
      (if frame_is_dask MissingValueHandler.df_gaps
       then map (fun x => Some (VBool (is_null x)))
                (map (fun q => Some (VNum q)) [25; 30; 22; 41; 35]%Q ++ [None] ++
                 map (fun q => Some (VNum q)) [28; 30; 52; 47]%Q)
       else map (fun x => Some (VNum (if is_null x then 1 else 0)%Q))
                (map (fun q => Some (VNum q)) [25; 30; 22; 41; 35]%Q ++ [None] ++
                 map (fun q => Some (VNum q)) [28; 30; 52; 47]%Q)) /\
    col_dtype ind = (if frame_is_dask MissingValueHandler.df_gaps then DBool else DInt).
Proof.
  apply (missing_handler_indicator_is_null_mask MissingValueHandler.exact_median
           MissingValueHandler.df_gaps sample_context
           (mkColumn "age" DFloat
              (map (fun q => Some (VNum q)) [25; 30; 22; 41; 35]%Q ++ [None] ++
               map (fun q => Some (VNum q)) [28; 30; 52; 47]%Q))).
  - split; [|split; [|split]].
    + repeat constructor; simpl; intuition discriminate.
    + intros c [<-|[<-|[]]]; reflexivity.
    + intros c [<-|[<-|[]]] H; [|discriminate H].
      repeat constructor; simpl; discriminate.
    + intros a b [<-|[<-|[]]] [<-|[<-|[]]]; discriminate.
  - now left.
  - apply Nat.ltb_lt. reflexivity.
  - apply Nat.leb_le. reflexivity.
  - apply Nat.leb_le. reflexivity.
Defined.

(** ** Missing Value Handler: the mode and the layout of the result *)

Lemma value_eqb_refl (a : value) : value_eqb a a = true.
Proof.
  destruct a; simpl.
  - apply Qeq_bool_iff, Qeq_refl.
  - apply String.eqb_refl.
  - apply Bool.eqb_reflx.
  - apply Z.eqb_refl.
Qed.

Lemma value_eqb_sym (a b : value) : value_eqb a b = value_eqb b a.
Proof.
  destruct a, b; simpl; try reflexivity.
  - apply Bool.eq_true_iff_eq. rewrite !Qeq_bool_iff. split; intros H; now symmetry.
  - apply String.eqb_sym.
  - now destruct b, b0.
  - apply Z.eqb_sym.
Qed.

Lemma value_eqb_trans (a b c : value) :
  value_eqb a b = true -> value_eqb b c = true -> value_eqb a c = true.
Proof.
  destruct a, b, c; simpl; try discriminate.
  - rewrite !Qeq_bool_iff. apply Qeq_trans.
  - rewrite !String.eqb_eq. congruence.
  - destruct b, b0, b1; auto.
  - rewrite !Z.eqb_eq. congruence.
Qed.

Section ModeOfAColumn.
Import MissingValueHandler.

Lemma count_value_equal (a b : value) (l : list value) :
  value_eqb a b = true -> count_value a l = count_value b l.
Proof.
  intros H. unfold count_value. f_equal. apply filter_ext. intros x.
  apply Bool.eq_true_iff_eq. split; intros K.
  - apply value_eqb_trans with a; [now rewrite value_eqb_sym | exact K].
  - now apply value_eqb_trans with b.
Qed.

Lemma distinct_values_incl (seen l : list value) (v : value) :
  In v (distinct_values seen l) -> In v l.
Proof.
  revert seen. induction l as [|x l IH]; intros seen; simpl; [tauto|].
  destruct (existsb (value_eqb x) seen).
  - intros H. right. now apply (IH seen).
  - intros [H|H]; [now left | right; now apply (IH (x :: seen))].
Qed.

(** Every value of the list is represented among the distinct values. *)
Lemma distinct_values_covers (seen l : list value) (w : value) :
  In w l ->
  existsb (value_eqb w) seen = true \/
  exists d, In d (distinct_values seen l) /\ value_eqb w d = true.
Proof.
  revert seen. induction l as [|x l IH]; intros seen; [contradiction|].
  intros [->|Hin]; simpl.
  - destruct (existsb (value_eqb w) seen) eqn:E; [now left|].
    right. exists w. split; [now left | apply value_eqb_refl].
  - destruct (existsb (value_eqb x) seen) eqn:E.
    + destruct (IH seen Hin) as [H|[d [Hd Hw]]]; [now left|].
      right. now exists d.
    + destruct (IH (x :: seen) Hin) as [H|[d [Hd Hw]]].
      * simpl in H. apply orb_true_iff in H as [H|H]; [|now left].
        right. exists x. split; [now left | exact H].
      * right. exists d. split; [now right | exact Hw].
Qed.

Lemma max_bounds {A} (f : A -> nat) (l : list A) (x : A) :
  In x l -> f x <= fold_right Nat.max 0 (map f l).
Proof.
  induction l as [|a l IH]; [contradiction|]. simpl.
  intros [->|H]; [lia|]. specialize (IH H). lia.
Qed.

Lemma max_attained {A} (f : A -> nat) (l : list A) :
  l <> [] -> exists x, In x l /\ f x = fold_right Nat.max 0 (map f l).
Proof.
  induction l as [|a l IH]; [congruence|]. intros _. simpl.
  destruct l as [|b l].
  - exists a. split; [now left | simpl; lia].
  - destruct IH as [x [Hx Hf]]; [discriminate|].
    destruct (Nat.le_ge_cases (f a) (fold_right Nat.max 0 (map f (b :: l)))) as [H|H].
    + exists x. split; [now right | lia].
    + exists a. split; [now left | lia].
Qed.

Lemma smallest_in (l : list value) (v : value) : smallest l = Some v -> In v l.
Proof.
  revert v. induction l as [|x l IH]; intros v; simpl; [discriminate|].
  destruct (smallest l) as [w|].
  - destruct (value_leb x w); intros H; injection H as <-; auto.
  - intros H; injection H as <-. now left.
Qed.

Lemma smallest_some (l : list value) : l <> [] -> smallest l <> None.
Proof.
  destruct l as [|x l]; [congruence|]. intros _. simpl.
  destruct (smallest l) as [w|]; [destruct (value_leb x w)|]; discriminate.
Qed.

(** The most frequent values of a column with a present value: there is
    one, each occurs in the column, and none occurs less often than any
    value. *)
Lemma most_frequent_spec (cells : list cell) :
  dropna cells <> [] ->
  most_frequent cells <> [] /\
  forall m, In m (most_frequent cells) ->
    In m (dropna cells) /\
    forall w, count_value w (dropna cells) <= count_value m (dropna cells).
Proof.
  intros Hne. unfold most_frequent.
  set (present := dropna cells) in *.
  set (distinct := distinct_values [] present).
  set (top := fold_right Nat.max 0 (map (fun v => count_value v present) distinct)).
  assert (Hd : distinct <> []).
  { unfold distinct. destruct present as [|x l]; [congruence|]. simpl. discriminate. }
  split.
  - destruct (max_attained (fun v => count_value v present) distinct Hd) as [x [Hx Hf]].
    intros E. assert (Hin : In x (filter (fun v => Nat.eqb (count_value v present) top)
                                         distinct)).
    { apply filter_In. split; [exact Hx|]. apply Nat.eqb_eq. exact Hf. }
    rewrite E in Hin. contradiction.
  - intros m Hm. apply filter_In in Hm as [Hm Htop]. apply Nat.eqb_eq in Htop.
    split; [now apply (distinct_values_incl [] present)|].
    intros w. rewrite Htop.
    destruct (count_value w present) eqn:Ec; [lia|]. rewrite <- Ec.
    assert (Hx : exists x, In x present /\ value_eqb w x = true).
    { unfold count_value in Ec.
      destruct (filter (value_eqb w) present) as [|x l] eqn:Ef; [discriminate|].
      exists x. apply filter_In. rewrite Ef. now left. }
    destruct Hx as [x [Hx Hwx]].
    destruct (distinct_values_covers [] present x Hx) as [H|[d [Hd' Hxd]]];
      [discriminate|].
    rewrite (count_value_equal w d) by now apply value_eqb_trans with x.
    now apply (max_bounds (fun v => count_value v present)).
Qed.

End ModeOfAColumn.

(** X14.  The mode that fills a column is a value of the column: when
    the column has a present value, the fill value of the eager engine and
    the one of the partitioned engine both occur in the column and no
    value occurs more often; the literal ["Missing"] is used only for a
    column without any present value. *)
Theorem mode_fill_is_most_frequent_value (cells : list cell) :
  (exists v, In (Some v) cells) ->
  let present := dropna cells in
  (In (Some (MissingValueHandler.mode_fill cells)) cells /\
   forall w, MissingValueHandler.count_value w present <=
             MissingValueHandler.count_value (MissingValueHandler.mode_fill cells) present) /\
  (In (Some (MissingValueHandler.mode_fill_dask cells)) cells /\
   forall w, MissingValueHandler.count_value w present <=
             MissingValueHandler.count_value (MissingValueHandler.mode_fill_dask cells)
               present).
Proof.
  intros [v Hv]. cbv zeta.
  assert (Hne : dropna cells <> []).
  { apply in_dropna in Hv. intros E. rewrite E in Hv. contradiction. }
  destruct (most_frequent_spec cells Hne) as [Hmf Hall]. split.
  - unfold MissingValueHandler.mode_fill.
    destruct (MissingValueHandler.smallest (MissingValueHandler.most_frequent cells))
      as [m|] eqn:Es; [|now apply smallest_some in Hmf].
    apply smallest_in in Es. destruct (Hall m Es) as [Hin Hmax].
    split; [now apply in_dropna | exact Hmax].
  - unfold MissingValueHandler.mode_fill_dask.
    destruct (MissingValueHandler.most_frequent cells) as [|m l]; [congruence|].
    destruct (Hall m (or_introl eq_refl)) as [Hin Hmax].
    split; [now apply in_dropna | exact Hmax].
Qed.

Lemma mode_fill_is_most_frequent_value_witness :
  let cells := [Some (VStr "Lyon"); None; Some (VStr "Paris"); Some (VStr "Lyon")] in
  let present := dropna cells in
  (In (Some (MissingValueHandler.mode_fill cells)) cells /\
   forall w, MissingValueHandler.count_value w present <=
             MissingValueHandler.count_value (MissingValueHandler.mode_fill cells) present) /\
  (In (Some (MissingValueHandler.mode_fill_dask cells)) cells /\
   forall w, MissingValueHandler.count_value w present <=
             MissingValueHandler.count_value (MissingValueHandler.mode_fill_dask cells)
               present).
Proof.
  apply (mode_fill_is_most_frequent_value
           [Some (VStr "Lyon"); None; Some (VStr "Paris"); Some (VStr "Lyon")]).
  exists (VStr "Lyon"). now left.
Defined.

Section MissingHandlerLayout.
Import MissingValueHandler.

Variable approx_median : list Q -> Q.
Variable context : PipelineContext.
Variable total : nat.
Hypothesis total_positive : total <> 0.

Local Abbreviation body := (loop_body approx_median context total).

(** Whether a column with [k] nulls gets an indicator. *)
Local Abbreviation marked :=
  (fun k : nat => Nat.ltb 0 k && Nat.leb (100 * k) (30 * total) && Nat.leb (5 * total) (100 * k)).

Lemma body_names (st : loop_state) (col : string) (count : nat) :
  In col (column_names (st_df st)) ->
  ~ In (indicator_name col) (column_names (st_df st)) ->
  column_names (st_df (body st (col, count))) =
  column_names (st_df st) ++ (if marked count then [indicator_name col] else []) /\
  n_rows (st_df (body st (col, count))) = n_rows (st_df st).
Proof.
  intros Hin Hfresh. unfold loop_body.
  pose proof (above_30_percent total count total_positive) as H30.
  pose proof (at_least_5_percent total count total_positive) as H5.
  destruct (Nat.eqb count 0) eqn:E0.
  { apply Nat.eqb_eq in E0. subst count. cbn. now rewrite app_nil_r. }
  apply Nat.eqb_neq in E0.
  assert (L0 : Nat.ltb 0 count = true) by (apply Nat.ltb_lt; lia).
  rewrite L0. cbn [andb].
  destruct (Qltb (30 # 100) (Qnat count / Qnat total)) eqn:E30.
  { assert (K : Nat.leb (100 * count) (30 * total) = false).
    { apply Nat.leb_gt. now apply H30. }
    rewrite K. cbn. now rewrite app_nil_r. }
  assert (K : Nat.leb (100 * count) (30 * total) = true).
  { apply Nat.leb_le. destruct (Nat.le_gt_cases (100 * count) (30 * total)) as [L|L];
      [exact L|]. apply H30 in L. congruence. }
  rewrite K. cbn [andb].
  destruct (frame_get (st_df st) col) as [c|] eqn:Hget.
  2:{ exfalso. apply find_column_none in Hget. contradiction. }
  apply find_column_name in Hget as [Hc Hcin].
  cbn [st_df]. unfold frame_set, column_names. cbn [columns n_rows]. split; [|now destruct (Qle_bool _ _)].
  destruct (Qle_bool (5 # 100) (Qnat count / Qnat total)) eqn:E5.
  - assert (K5 : Nat.leb (5 * total) (100 * count) = true).
    { apply Nat.leb_le. now apply H5. }
    rewrite K5. cbn [columns].
    rewrite set_column_names_present.
    + rewrite set_column_names_absent
        by (rewrite indicator_column_name, Hc; exact Hfresh).
      now rewrite indicator_column_name, Hc.
    + cbn [col_name]. rewrite set_column_names_absent
        by (rewrite indicator_column_name, Hc; exact Hfresh).
      apply in_or_app. now left.
  - assert (K5 : Nat.leb (5 * total) (100 * count) = false).
    { apply Nat.leb_gt. destruct (Nat.le_gt_cases (5 * total) (100 * count)) as [L|L];
        [|exact L]. apply H5 in L. congruence. }
    rewrite K5, app_nil_r. now apply set_column_names_present.
Qed.

Lemma fold_names (df : frame) (todo done : list column) (st : loop_state) :
  well_formed df -> columns df = done ++ todo ->
  let inds l := map (fun c => indicator_name (col_name c))
                    (filter (fun c => marked (null_count (col_cells c))) l) in
  column_names (st_df st) = column_names df ++ inds done ->
  let st' := fold_left body
               (map (fun c => (col_name c, null_count (col_cells c))) todo) st in
  column_names (st_df st') = column_names df ++ inds (done ++ todo) /\
  n_rows (st_df st') = n_rows (st_df st).
Proof.
  intros Hwf. revert done st. induction todo as [|c todo IH]; intros done st Hsplit inds Hst.
  - cbn. now rewrite app_nil_r.
  - cbn [map fold_left]. destruct Hwf as [Hnd [_ [_ Hind]]].
    assert (Hcin : In c (columns df)).
    { rewrite Hsplit. apply in_or_app. right. now left. }
    assert (Hname : In (col_name c) (column_names df)) by now apply in_map.
    destruct (body_names st (col_name c) (null_count (col_cells c))) as [B1 B2].
    { rewrite Hst. apply in_or_app. now left. }
    { rewrite Hst. intros H. apply in_app_or in H as [H|H].
      - now apply (Hind (col_name c) (indicator_name (col_name c))).
      - unfold inds in H. apply in_map_iff in H as [d [Hd Hdin]].
        apply filter_In in Hdin as [Hdin _]. apply indicator_name_inj in Hd.
        unfold column_names in Hnd. rewrite Hsplit, map_app in Hnd.
        apply NoDup_remove_2 in Hnd. apply Hnd. apply in_or_app. left.
        rewrite <- Hd. now apply in_map. }
    destruct (IH (done ++ [c]) (body st (col_name c, null_count (col_cells c)))) as [I1 I2].
    { now rewrite <- app_assoc. }
    { rewrite B1, Hst, <- app_assoc. f_equal. unfold inds.
      rewrite filter_app, map_app. f_equal. cbn [filter].
      now destruct (marked (null_count (col_cells c))). }
    cbv zeta. rewrite <- app_assoc in I1. cbn [app] in I1. split; [exact I1 | congruence].
Qed.

End MissingHandlerLayout.

(** X15.  The Missing Value Handler keeps the columns of a well-formed
    table in place and appends the indicator columns after them: the labels
    of the result are the labels of the input, in order, followed by
    [{col}_was_missing] for each column whose null fraction lies in
    [0.05, 0.30], in column order; the row count is unchanged. *)
Theorem missing_handler_appends_indicators
  (approx_median : list Q -> Q) (df : frame) (context : PipelineContext) :
  MissingValueHandler.well_formed df ->
  let out := res_df (fst (MissingValueHandler.run approx_median df context)) in
  let n := n_rows df in
  column_names out =
    column_names df ++
    map (fun c => MissingValueHandler.indicator_name (col_name c))
        (filter (fun c => let k := null_count (col_cells c) in
                          Nat.ltb 0 n && Nat.ltb 0 k &&
                          Nat.leb (100 * k) (30 * n) && Nat.leb (5 * n) (100 * k))
                (columns df)) /\
  n_rows out = n_rows df.
Proof.
  intros Hwf. cbv zeta. unfold MissingValueHandler.run.
  destruct (Nat.eqb (n_rows df) 0) eqn:En.
  - apply Nat.eqb_eq in En. rewrite En. cbn [fst res_df Nat.ltb Nat.leb andb].
    split; [|exact En].
    replace (filter _ (columns df)) with (@nil column); [now rewrite app_nil_r|].
    symmetry. induction (columns df) as [|c l IH]; [reflexivity | exact IH].
  - apply Nat.eqb_neq in En. cbn [fst res_df].
    assert (Hn : Nat.ltb 0 (n_rows df) = true) by (apply Nat.ltb_lt; lia).
    rewrite Hn. cbn [andb].
    destruct (fold_names approx_median context (n_rows df) En df (columns df) []
                (MissingValueHandler.mkLoop df (ctx_warnings context) [] []) Hwf eq_refl)
      as [F1 F2].
    { cbn. now rewrite app_nil_r. }
    cbv zeta in F1. cbn [app] in F1. split; [exact F1 | exact F2].
Qed.

Lemma missing_handler_appends_indicators_witness :
  let out := res_df (fst (MissingValueHandler.run MissingValueHandler.exact_median
                            MissingValueHandler.df_gaps sample_context)) in
  let n := n_rows MissingValueHandler.df_gaps in
  column_names out =
    column_names MissingValueHandler.df_gaps ++
    map (fun c => MissingValueHandler.indicator_name (col_name c))
        (filter (fun c => let k := null_count (col_cells c) in
                          Nat.ltb 0 n && Nat.ltb 0 k &&
                          Nat.leb (100 * k) (30 * n) && Nat.leb (5 * n) (100 * k))
                (columns MissingValueHandler.df_gaps)) /\
  n_rows out = n_rows MissingValueHandler.df_gaps.
Proof.
  apply (missing_handler_appends_indicators MissingValueHandler.exact_median
           MissingValueHandler.df_gaps sample_context).
  split; [|split; [|split]].
  - repeat constructor; simpl; intuition discriminate.
  - intros c [<-|[<-|[]]]; reflexivity.
  - intros c [<-|[<-|[]]] H; [|discriminate H].
    repeat constructor; simpl; discriminate.
  - intros a b [<-|[<-|[]]] [<-|[<-|[]]]; discriminate.
Defined.

(** ** Duplicate Detector and Outlier Detector *)

Lemma duplicated_from_length (seen rs : list (list cell)) :
  List.length (DuplicateDetector.duplicated_from seen rs) = List.length rs.
Proof.
  revert seen. induction rs as [|r rs IH]; intros seen; simpl; [reflexivity|].
  now rewrite IH.
Qed.

(** X16.  The first row of a table is never counted as a duplicate: the
    duplicate count of the detector is at most the row count minus one (so
    the reported percentage stays below 100%), and on the eager engine a
    table with at most one row yields neither a warning nor a log
    entry. *)
Theorem duplicate_count_below_row_count (unhashable : frame -> bool)
  (df : frame) (context : PipelineContext) :
  DuplicateDetector.dup_count df <= n_rows df - 1 /\
  (n_rows df <= 1 ->
   res_warnings (DuplicateDetector.run unhashable df context) = [] /\
   res_logs (DuplicateDetector.run unhashable df context) = []).
Proof.
  assert (H : DuplicateDetector.dup_count df <= n_rows df - 1).
  { unfold DuplicateDetector.dup_count, DuplicateDetector.duplicated.
    assert (Hlen : List.length (DuplicateDetector.rows df) = n_rows df).
    { unfold DuplicateDetector.rows. now rewrite length_map, length_seq. }
    destruct (DuplicateDetector.rows df) as [|r tl]; [simpl; lia|].
    cbn [DuplicateDetector.duplicated_from existsb filter].
    pose proof (filter_length_le (fun b : bool => b)
                  (DuplicateDetector.duplicated_from [r] tl)) as Hf.
    rewrite duplicated_from_length in Hf. simpl in Hlen. lia. }
  split; [exact H|]. intros Hn.
  unfold DuplicateDetector.run, DuplicateDetector.count_duplicates.
  destruct (frame_is_dask df); [auto|]. destruct (unhashable df); [auto|].
  assert (E : Nat.ltb 0 (DuplicateDetector.dup_count df) = false)
    by (apply Nat.ltb_ge; lia).
  rewrite E. auto.
Qed.

Section OutlierLogs.
Import OutlierDetector.

Variable shapiro : list Q -> outcome (option Q).
Variable normaltest : list Q -> outcome (option Q).
Variable sample_df : frame.
Variable context : PipelineContext.

Local Abbreviation logs_of := (column_logs shapiro normaltest sample_df context).

Lemma column_logs_shape (col : string) :
  logs_of col = [] \/
  exists l, logs_of col = [l] /\
    log_step_name l = "OutlierDetector" /\
    (log_action l = "flag_outliers" \/ log_action l = "skip_column") /\
    log_column_name l = Some col.
Proof.
  unfold column_logs, inspect_column.
  destruct (select sample_df col) as [c|msg].
  2:{ right. eexists. split; [reflexivity|]. cbn. auto. }
  destruct (_ || _); [now left|].
  destruct (skipped_role context col); [now left|].
  destruct (Nat.ltb _ 10); [now left|].
  unfold outlier_logs. destruct (Nat.ltb 0 _); [|now left].
  right. eexists. split; [reflexivity|]. cbn. auto.
Qed.

Lemma flat_map_logs_shape (names all : list string) :
  (forall n, In n names -> In n all) ->
  List.length (flat_map logs_of names) <= List.length names /\
  Forall (fun l => log_step_name l = "OutlierDetector" /\
                   (log_action l = "flag_outliers" \/ log_action l = "skip_column") /\
                   exists col, In col all /\ log_column_name l = Some col)
         (flat_map logs_of names).
Proof.
  induction names as [|n names IH]; intros Hsub; [split; [apply Nat.le_refl | constructor]|].
  destruct IH as [I1 I2]; [intros x Hx; apply Hsub; now right|].
  cbn [flat_map]. rewrite length_app.
  destruct (column_logs_shape n) as [-> | [l [-> [H1 [H2 H3]]]]]; cbn [List.length app].
  - split; [lia | exact I2].
  - split; [lia|]. constructor; [|exact I2].
    split; [exact H1|]. split; [exact H2|]. exists n. split; [apply Hsub; now left | exact H3].
Qed.

End OutlierLogs.

(** X17.  Every log entry of the Outlier Detector is a [flag_outliers]
    or a [skip_column] entry of the step that names a label of the
    inspected table, and there are at most as many entries as columns.
    When the labels of the inspected table are pairwise distinct, no two
    entries name the same label: there is at most one entry per label. *)
Theorem outlier_detector_log_entries
  (shapiro normaltest : list Q -> outcome (option Q)) (sample : Q -> frame -> frame)
  (df : frame) (context : PipelineContext) :
  let r := OutlierDetector.run shapiro normaltest sample df context in
  let names := column_names (OutlierDetector.sample_frame sample df) in
  List.length (res_logs r) <= List.length names /\
  Forall (fun l => log_step_name l = "OutlierDetector" /\
                   (log_action l = "flag_outliers" \/ log_action l = "skip_column") /\
                   exists col, In col names /\ log_column_name l = Some col)
         (res_logs r) /\
  (NoDup names -> NoDup (map log_column_name (res_logs r))).
Proof.
  cbv zeta. unfold OutlierDetector.run. cbn [res_logs].
  rewrite outlier_loop_appends. cbn [fst app].
  destruct (flat_map_logs_shape shapiro normaltest
              (OutlierDetector.sample_frame sample df) context
              (column_names (OutlierDetector.sample_frame sample df))
              (column_names (OutlierDetector.sample_frame sample df))) as [H1 H2]; [auto|].
  split; [exact H1|]. split; [exact H2|].
  apply flat_map_keys_nodup. intros col.
  destruct (column_logs_shape shapiro normaltest
              (OutlierDetector.sample_frame sample df) context col)
    as [-> | [l [-> [_ [_ H3]]]]]; cbn [List.length]; split; try lia; repeat constructor.
  exact H3.
Qed.

(** With two columns under the label [x] the log has two entries for
    [x]: one per column. *)
Example outlier_detector_entries_per_column :
  let r := OutlierDetector.run OutlierDetector.never_normal OutlierDetector.test_fails
             OutlierDetector.whole_table OutlierDetector.df_shared_label sample_context in
  map log_column_name (res_logs r) = [Some "x"; Some "amount"; Some "x"].
Proof. reflexivity. Qed.

(** *** A constant series *)

Lemma Q_square_nonneg (x : Q) : (0 <= x * x)%Q.
Proof. unfold Qle, Qmult. cbn [Qnum Qden]. nia. Qed.

Lemma Qnat_succ (n : nat) : (Qnat (S n) == Qnat n + 1)%Q.
Proof.
  unfold Qnat. rewrite Nat2Z.inj_succ, <- Z.add_1_r, inject_Z_plus. reflexivity.
Qed.

Lemma Qsum_repeat (d : Q) (n : nat) : (Qsum (repeat d n) == Qnat n * d)%Q.
Proof.
  induction n as [|n IH].
  - unfold Qsum, Qnat. simpl. ring.
  - cbn [repeat]. unfold Qsum in *. cbn [fold_right]. rewrite IH, Qnat_succ. ring.
Qed.

Lemma mean_repeat (d : Q) (n : nat) : n <> 0 -> (mean (repeat d n) == d)%Q.
Proof.
  intros Hn. unfold mean. rewrite repeat_length, Qsum_repeat.
  field. intros E. unfold Qnat, Qeq in E. cbn [inject_Z Qnum Qden] in E. lia.
Qed.

Lemma filter_repeat {A} (f : A -> bool) (c : A) (n : nat) :
  f c = false -> filter f (repeat c n) = [].
Proof. intros H. induction n as [|n IH]; simpl; [reflexivity|]. now rewrite H. Qed.

Lemma nth_repeat_same {A} (c : A) (n i : nat) : nth i (repeat c n) c = c.
Proof.
  revert i. induction n as [|n IH]; intros [|i]; simpl; auto.
Qed.

Lemma nth_repeat_lt {A} (c d : A) (n i : nat) : i < n -> nth i (repeat c n) d = c.
Proof.
  revert i. induction n as [|n IH]; intros [|i] H; simpl; try lia; auto.
  apply IH. lia.
Qed.

Lemma sort_values_repeat (c : Q) (n : nat) :
  MissingValueHandler.sort_values (repeat c n) = repeat c n.
Proof.
  induction n as [|n IH]; [reflexivity|].
  cbn [repeat]. unfold MissingValueHandler.sort_values in *. cbn [fold_right].
  rewrite IH. destruct n as [|n]; [reflexivity|]. cbn [repeat MissingValueHandler.insert_sorted].
  assert (E : Qle_bool c c = true) by (apply Qle_bool_iff, Qle_refl).
  now rewrite E.
Qed.

(** A quantile of a constant series is the constant. *)
Lemma quantile_repeat (q c : Q) (n : nat) :
  n <> 0 -> (0 <= q)%Q -> (q <= 1)%Q -> (quantile q (repeat c n) == c)%Q.
Proof.
  intros Hn Hq0 Hq1. unfold quantile. rewrite sort_values_repeat, repeat_length.
  set (h := (Qnat (n - 1) * q)%Q).
  assert (Hh0 : (0 <= h)%Q).
  { unfold h. apply Qmult_le_0_compat; [apply Qnat_nonneg | exact Hq0]. }
  assert (Hh1 : (h <= Qnat (n - 1))%Q).
  { unfold h. pose proof (Qnat_nonneg (n - 1)) as Ha. nra. }
  assert (Hlo : Z.to_nat (Qfloor h) < n).
  { apply Qfloor_resp_le in Hh1. unfold Qnat in Hh1. rewrite Qfloor_Z in Hh1.
    apply Qfloor_resp_le in Hh0. change 0%Q with (inject_Z 0) in Hh0.
    rewrite Qfloor_Z in Hh0. lia. }
  rewrite (nth_repeat_lt c 0%Q n _ Hlo), nth_repeat_same. ring.
Qed.

(** X18.  A constant series has no outlier under either rule: its
    interquartile range is zero and no value lies outside the quartiles,
    and its variance is zero, so that no z-score exceeds the threshold. *)
Theorem constant_series_has_no_outliers (c : Q) (n : nat) :
  iqr_outliers (repeat c n) = [] /\ OutlierDetector.zscore_outliers (repeat c n) = [].
Proof.
  destruct n as [|n]; [split; reflexivity|].
  assert (Hn : S n <> 0) by discriminate. split.
  - unfold iqr_outliers. apply filter_repeat.
    pose proof (quantile_repeat (1 # 4) c (S n) Hn) as H1.
    pose proof (quantile_repeat (3 # 4) c (S n) Hn) as H3.
    assert (E1 : (quantile (1 # 4) (repeat c (S n)) == c)%Q) by (apply H1; discriminate).
    assert (E3 : (quantile (3 # 4) (repeat c (S n)) == c)%Q) by (apply H3; discriminate).
    apply orb_false_iff. split; apply Qltb_ge; rewrite E1, E3; ring_simplify; apply Qle_refl.
  - unfold OutlierDetector.zscore_outliers. apply filter_repeat.
    rewrite map_repeat.
    set (d := ((c - mean (repeat c (S n))) * (c - mean (repeat c (S n))))%Q).
    apply Qltb_ge. rewrite (mean_repeat d (S n) Hn).
    assert (Hd : (0 <= d)%Q) by (unfold d; apply Q_square_nonneg).
    lra.
Qed.

(** ** Summarizer: failure on repeated labels, shape of the summary *)

Lemma repeated_label (l : list string) :
  NoDup l \/ exists x, In x l /\ 1 < List.length (filter (String.eqb x) l).
Proof.
  induction l as [|a l IH]; [left; constructor|].
  destruct IH as [Hnd | [x [Hx Hc]]].
  - destruct (in_dec string_dec a l) as [Hin|Hn].
    + right. exists a. split; [now left|]. simpl. rewrite String.eqb_refl. simpl.
      assert (H : In a (filter (String.eqb a) l)).
      { apply filter_In. split; [exact Hin | apply String.eqb_refl]. }
      destruct (filter (String.eqb a) l); [contradiction | simpl; lia].
    + left. now constructor.
  - right. exists x. split; [now right|]. simpl.
    destruct (String.eqb x a); simpl; lia.
Qed.

Section SummarizerShape.
Import Summarizer.

Variable df sample_df : frame.
Variable total_rows : nat.
Variable schema : pdict string.

Local Abbreviation role_of := (fun col => dict_get_default schema col "feature_col").
Local Abbreviation run_loop := (loop df sample_df total_rows schema).

(** The loop stops at the first label that several columns carry. *)
Lemma loop_raises_on_repeated_label (cols : list string) (st : loop_state) :
  (forall col, In col cols -> In col (column_names sample_df)) ->
  (exists x, In x cols /\ 1 < count_label sample_df x) ->
  run_loop cols st = Raise "'DataFrame' object has no attribute 'dtype'".
Proof.
  revert st. induction cols as [|col cols IH]; intros st Hsub [x [Hx Hc]]; [contradiction|].
  cbn [loop]. unfold loop_body, select.
  destruct (frame_get sample_df col) as [c|] eqn:Hget.
  2:{ exfalso. apply find_column_none in Hget. apply Hget, Hsub. now left. }
  destruct (Nat.ltb 1 (count_label sample_df col)) eqn:E; [reflexivity|].
  apply IH; [intros y Hy; apply Hsub; now right|].
  exists x. split; [|exact Hc]. destruct Hx as [->|Hx]; [|exact Hx].
  apply Nat.ltb_ge in E. lia.
Qed.

(** What the loop collects, label by label. *)
Lemma loop_collects (names : list string) (st : loop_state) :
  (forall col, In col names -> exists c, select sample_df col = Ok c) ->
  exists st',
    run_loop names st = Ok st' /\
    map cs_name (st_columns st') = map cs_name (st_columns st) ++ names /\
    map cs_role (st_columns st') = map cs_role (st_columns st) ++ map role_of names /\
    st_datetime_columns st' =
      st_datetime_columns st ++
      filter (fun col => String.eqb (role_of col) "datetime_col") names /\
    st_text_columns st' =
      st_text_columns st ++ filter (fun col => String.eqb (role_of col) "text_col") names.
Proof.
  revert st. induction names as [|col names IH]; intros st H.
  - exists st. cbn. now rewrite !app_nil_r.
  - destruct (H col (or_introl eq_refl)) as [c Hc].
    cbn [loop]. unfold loop_body at 1. rewrite Hc.
    match goal with
    | |- context [loop _ _ _ _ names ?s] => destruct (IH s) as [st' [Hl [H1 [H2 [H3 H4]]]]]
    end.
    { intros col' Hin. apply H. now right. }
    exists st'. split; [exact Hl|]. rewrite H1, H2, H3, H4.
    cbn [st_columns st_datetime_columns st_text_columns map filter].
    rewrite !map_app. cbn [map cs_name cs_role]. rewrite <- !app_assoc. cbn [app].
    destruct (String.eqb (dict_get_default schema col "feature_col") "datetime_col") eqn:Ed.
    + apply String.eqb_eq in Ed. rewrite Ed. cbn. rewrite <- !app_assoc. auto.
    + destruct (String.eqb (dict_get_default schema col "feature_col") "text_col");
        rewrite <- ?app_assoc; auto.
Qed.

End SummarizerShape.

(** X19.  On a table in which two columns carry the same label the
    Summarizer produces no summary: [sample_df[col].dtype] raises
    [AttributeError] at the first such label, on both engines. *)
Theorem summarizer_raises_on_repeated_labels
  (sample_rows : frame -> list nat) (df : frame) (domain : string) (schema : pdict string) :
  ~ NoDup (column_names df) ->
  Summarizer.generate_json_summary sample_rows df domain schema =
    Raise "'DataFrame' object has no attribute 'dtype'".
Proof.
  intros Hdup. destruct (repeated_label (column_names df)) as [H|[x [Hx Hc]]];
    [contradiction|].
  unfold Summarizer.generate_json_summary.
  rewrite loop_raises_on_repeated_label; [reflexivity| |].
  - intros col Hcol. now rewrite sample_frame_names.
  - exists x. split; [exact Hx|]. unfold count_label. now rewrite sample_frame_names.
Qed.

(** The table the normalizer returns for two columns labelled [A] has
    the label [a_1] twice, and has no summary. *)
Lemma summarizer_raises_on_repeated_labels_witness :
  Summarizer.generate_json_summary Summarizer.every_row
    (res_df (fst (ColumnNormalizer.run ColumnNormalizer.df_duplicate_labels sample_context)))
    "general" [] =
  Raise "'DataFrame' object has no attribute 'dtype'".
Proof.
  apply summarizer_raises_on_repeated_labels.
  intros H. inversion H as [|a l Hn _]. apply Hn. now left.
Defined.

(** X20.  On a table with pairwise distinct labels the Summarizer
    returns a summary with the row count and the number of columns of the
    table and one column entry per column, in order, under its label and
    with the role the schema gives it ([feature_col] when it gives none);
    the datetime and the text columns are the labels of role
    [datetime_col] and [text_col], in order, and a time series is detected
    exactly when some column has the role [datetime_col]. *)
Theorem summarizer_summary_shape
  (sample_rows : frame -> list nat) (df : frame) (domain : string) (schema : pdict string) :
  NoDup (column_names df) ->
  let role_of col := dict_get_default schema col "feature_col" in
  exists s,
    Summarizer.generate_json_summary sample_rows df domain schema = Ok s /\
    Summarizer.sum_rows s = n_rows df /\
    Summarizer.sum_cols s = List.length (columns df) /\
    Summarizer.sum_domain s = domain /\
    map Summarizer.cs_name (Summarizer.sum_columns s) = column_names df /\
    map Summarizer.cs_role (Summarizer.sum_columns s) = map role_of (column_names df) /\
    Summarizer.sum_datetime_columns s =
      filter (fun col => String.eqb (role_of col) "datetime_col") (column_names df) /\
    Summarizer.sum_text_columns s =
      filter (fun col => String.eqb (role_of col) "text_col") (column_names df) /\
    (Summarizer.sum_time_series_detected s = true <->
     exists col, In col (column_names df) /\ role_of col = "datetime_col").
Proof.
  intros Hnd. cbv zeta.
  destruct (loop_collects df (Summarizer.sample_frame sample_rows df) (n_rows df) schema
              (column_names df) (Summarizer.mkLoop 0 [] [] []))
    as [st [Hl [H1 [H2 [H3 H4]]]]].
  { intros col Hin. apply select_unique; now rewrite sample_frame_names. }
  unfold Summarizer.generate_json_summary. rewrite Hl. eexists. split; [reflexivity|].
  cbn [Summarizer.sum_rows Summarizer.sum_cols Summarizer.sum_domain Summarizer.sum_columns
       Summarizer.sum_datetime_columns Summarizer.sum_text_columns
       Summarizer.sum_time_series_detected].
  cbn [Summarizer.st_columns Summarizer.st_datetime_columns Summarizer.st_text_columns
       map app] in H1, H2, H3, H4.
  repeat (split; [reflexivity || assumption|]).
  rewrite H3. split.
  - destruct (filter _ (column_names df)) as [|col l] eqn:Ef; [discriminate|].
    intros _. exists col.
    assert (Hin : In col (filter (fun col => String.eqb (dict_get_default schema col
                                                           "feature_col") "datetime_col")
                                 (column_names df))) by (rewrite Ef; now left).
    apply filter_In in Hin as [Hin E]. split; [exact Hin | now apply String.eqb_eq].
  - intros [col [Hin E]].
    assert (Hf : In col (filter (fun col => String.eqb (dict_get_default schema col
                                                          "feature_col") "datetime_col")
                                (column_names df))).
    { apply filter_In. split; [exact Hin | now apply String.eqb_eq]. }
    destruct (filter _ (column_names df)); [contradiction | reflexivity].
Qed.

Lemma summarizer_summary_shape_witness :
  let role_of col := dict_get_default [("seen_at", "datetime_col")] col "feature_col" in
  exists s,
    Summarizer.generate_json_summary Summarizer.every_row MissingValueHandler.df_leading_gap
      "general" [("seen_at", "datetime_col")] = Ok s /\
    Summarizer.sum_rows s = n_rows MissingValueHandler.df_leading_gap /\
    Summarizer.sum_cols s = List.length (columns MissingValueHandler.df_leading_gap) /\
    Summarizer.sum_domain s = "general" /\
    map Summarizer.cs_name (Summarizer.sum_columns s) =
      column_names MissingValueHandler.df_leading_gap /\
    map Summarizer.cs_role (Summarizer.sum_columns s) =
      map role_of (column_names MissingValueHandler.df_leading_gap) /\
    Summarizer.sum_datetime_columns s =
      filter (fun col => String.eqb (role_of col) "datetime_col")
             (column_names MissingValueHandler.df_leading_gap) /\
    Summarizer.sum_text_columns s =
      filter (fun col => String.eqb (role_of col) "text_col")
             (column_names MissingValueHandler.df_leading_gap) /\
    (Summarizer.sum_time_series_detected s = true <->
     exists col, In col (column_names MissingValueHandler.df_leading_gap) /\
                 role_of col = "datetime_col").
Proof.
  apply (summarizer_summary_shape Summarizer.every_row MissingValueHandler.df_leading_gap
           "general" [("seen_at", "datetime_col")]).
  repeat constructor; simpl; intuition discriminate.
Defined.

Lemma fold_add_zeros (xs : list Q) :
  Forall (fun x => x = 0%Q) xs -> fold_left Binary64.add xs 0%Q = 0%Q.
Proof.
  induction 1 as [|x xs -> _ IH]; [reflexivity|]. cbn [fold_left].
  change (Binary64.add 0 0) with 0%Q. exact IH.
Qed.

Lemma numeric_values_of_missing (idx : list nat) :
  MissingValueHandler.numeric_values (map (fun i => nth i (@nil cell) None) idx) = [].
Proof.
  induction idx as [|i idx IH]; [reflexivity|]. cbn [map]. now destruct i.
Qed.

(** X21.  A table without rows gets the perfect score: with pairwise
    distinct labels and empty columns the Summarizer returns a summary and
    its quality score is 100 (every null fraction is taken as 0 when there
    is no row, and no column has values to test for outliers). *)
Theorem summarizer_empty_table_scores_100
  (sample_rows : frame -> list nat) (df : frame) (domain : string) (schema : pdict string) :
  NoDup (column_names df) ->
  n_rows df = 0 ->
  (forall c, In c (columns df) -> col_cells c = []) ->
  exists s,
    Summarizer.generate_json_summary sample_rows df domain schema = Ok s /\
    (Summarizer.sum_quality_score s == 100)%Q.
Proof.
  intros Hnd Hn Hcells.
  destruct (score_by_labels sample_rows df schema domain Hnd) as [s [Hs Es]].
  exists s. split; [exact Hs|]. rewrite Es.
  assert (Hz : Binary64.sum (Summarizer.penalty_terms sample_rows df) = 0%Q).
  { unfold Binary64.sum. apply fold_add_zeros. apply Forall_forall. intros x Hx.
    unfold Summarizer.penalty_terms in Hx. apply in_flat_map in Hx as [col [Hcol Hx]].
    assert (E1 : Summarizer.null_pct_of df col = 0%Q).
    { unfold Summarizer.null_pct_of, Summarizer.null_pct. now rewrite Hn. }
    assert (E2 : Summarizer.outlier_pct_of sample_rows df col = 0%Q).
    { unfold Summarizer.outlier_pct_of.
      destruct (frame_get _ col) as [c|] eqn:Hget; [|reflexivity].
      apply find_column_name in Hget as [_ Hin].
      assert (Hv : MissingValueHandler.numeric_values (col_cells c) = []).
      { unfold Summarizer.sample_frame in Hin. destruct (frame_is_dask df).
        - unfold Summarizer.take_rows in Hin. cbn [columns] in Hin.
          apply in_map_iff in Hin as [c0 [<- Hc0]]. cbn [col_cells].
          rewrite (Hcells c0 Hc0). apply numeric_values_of_missing.
        - now rewrite (Hcells c Hin). }
      unfold Summarizer.outlier_pct, Summarizer.iqr_branch. rewrite Hv.
      destruct (is_bool_dtype _); [reflexivity|].
      destruct (_ || _); [reflexivity|]. now destruct (_ && _). }
    rewrite E1, E2 in Hx. destruct Hx as [<-|[<-|[]]]; vm_compute; reflexivity. }
  unfold Summarizer.float_quality_score. rewrite Hz. vm_compute. reflexivity.
Qed.

Lemma summarizer_empty_table_scores_100_witness :
  exists s,
    Summarizer.generate_json_summary Summarizer.every_row
      (mkFrame false 0 [mkColumn "amount" DFloat []]) "general" [] = Ok s /\
    (Summarizer.sum_quality_score s == 100)%Q.
Proof.
  apply summarizer_empty_table_scores_100.
  - repeat constructor; simpl; intuition discriminate.
  - reflexivity.
  - intros c [<-|[]]. reflexivity.
Defined.

(** ** Loader: results, rejected formats, wrapped failures *)

Lemma dict_set_forall {V} (P : string * V -> Prop) (d : pdict V) (k : string) (v : V) :
  Forall P d -> P (k, v) -> Forall P (dict_set d k v).
Proof.
  intros Hd Hv. induction Hd as [|[k' v'] d Hx Hd IH]; simpl.
  - now constructor.
  - destruct (String.eqb k k') eqn:E.
    + apply String.eqb_eq in E. subst k'. now constructor.
    + now constructor.
Qed.

Section LoaderResults.
Import Loader.

Variable env : environment.

Lemma validate_result (warnings : list string) (dtype_map : option (pdict string))
  (t : option frame) (is_dask : bool) (r : DataFrameResult) :
  validate env warnings dtype_map t is_dask = Returns r ->
  t = Some (dfr_df r) /\ dfr_warnings r = warnings /\ dfr_is_dask r = is_dask /\
  frame_len env (dfr_df r) = Returns (dfr_row_count r).
Proof.
  unfold validate. destruct t as [t|]; [|discriminate].
  destruct (Nat.eqb (List.length (columns t)) 0); [discriminate|].
  destruct (frame_len env t) as [n|e] eqn:El; [|discriminate].
  destruct (Nat.eqb n 0); [discriminate|].
  intros H. injection H as <-. cbn. auto.
Qed.

Lemma read_table_no_branch (file_size_mb : Q) (file_path : string)
  (file_type : pdict string) (dtype_map : option (pdict string)) (f : string) :
  format_of file_type = Some f ->
  ~ In f ["zip"; "csv"; "parquet"] ->
  Qltb 2000 file_size_mb = true \/ ~ In f ["excel"; "json"] ->
  read_table env file_size_mb file_path file_type dtype_map = Returns None.
Proof.
  intros Hf Hn Hbig. unfold read_table. rewrite Hf.
  assert (E1 : String.eqb f "csv" = false).
  { apply String.eqb_neq. intros ->. apply Hn. simpl. tauto. }
  assert (E2 : String.eqb f "parquet" = false).
  { apply String.eqb_neq. intros ->. apply Hn. simpl. tauto. }
  rewrite E1, E2. destruct (Qltb 2000 file_size_mb); [reflexivity|].
  destruct Hbig as [Hbig|Hbig]; [discriminate|].
  assert (E3 : String.eqb f "excel" = false).
  { apply String.eqb_neq. intros ->. apply Hbig. simpl. tauto. }
  assert (E4 : String.eqb f "json" = false).
  { apply String.eqb_neq. intros ->. apply Hbig. simpl. tauto. }
  now rewrite E3, E4.
Qed.

Lemma guarded_read_warnings (warnings : list string) (file_size_mb : Q)
  (file_path : string) (file_type : pdict string) (dtype_map : option (pdict string)) :
  exists new,
    snd (guarded_read env warnings file_size_mb file_path file_type dtype_map) =
      warnings ++ new /\ List.length new <= 1.
Proof.
  unfold guarded_read.
  destruct (read_table env file_size_mb file_path file_type dtype_map) as [t|e].
  - exists []. rewrite app_nil_r; split; [reflexivity | simpl; lia].
  - destruct (is_UnicodeDecodeError e).
    { destruct (pd_read_csv env file_path _); eexists; split; try reflexivity; simpl; lia. }
    destruct (is_MemoryError e).
    { destruct (dd_read_csv env file_path _); eexists; split; try reflexivity; simpl; lia. }
    destruct (is_Exception e);
      (exists []; rewrite app_nil_r; split; [reflexivity | simpl; lia]).
Qed.

Lemma sniff_columns_entries (sample : frame) (cols : list string)
  (optimized m : pdict string) :
  let entry kv := In (fst kv) (column_names sample) /\
                  In (snd kv) ["Int16"; "Int32"; "Int64"; "category"] in
  Forall entry optimized ->
  sniff_columns sample cols optimized = Returns m -> Forall entry m.
Proof.
  intros entry. revert optimized. induction cols as [|col cols IH]; intros optimized Hacc.
  - cbn. intros H. now injection H as <-.
  - cbn [sniff_columns]. unfold select.
    destruct (frame_get sample col) as [c|] eqn:Hget; [|discriminate].
    destruct (Nat.ltb 1 (count_label sample col)); [discriminate|].
    apply IH. apply find_column_name in Hget as [_ Hin].
    assert (Hname : In (col_name c) (column_names sample)) by now apply in_map.
    unfold sniff_column.
    destruct (is_numeric_dtype (col_dtype c)).
    + destruct (is_integer_dtype (col_dtype c)); [|exact Hacc].
      destruct (within _ _ _ _); [apply dict_set_forall; [exact Hacc|split; simpl; auto]|].
      destruct (within _ _ _ _); apply dict_set_forall; try exact Hacc; split; simpl; auto.
    + destruct (is_object_dtype (col_dtype c)); [|exact Hacc].
      destruct (_ && _); [|exact Hacc].
      apply dict_set_forall; [exact Hacc|split; simpl; auto 6].
Qed.

End LoaderResults.

(** X22.  Whatever [load] returns is a real table: the result has at
    least one row and one column, its column count is the number of
    columns of its table, its row count is the length of its table, and its
    warnings are the warnings of the loader at that point. *)
Theorem loader_result_is_nonempty
  (env : Loader.environment) (warnings : list string) (file_path : string)
  (file_type options : pdict string) (r : Loader.DataFrameResult) (warnings' : list string) :
  Loader.load env warnings file_path file_type options = (Loader.Returns r, warnings') ->
  0 < Loader.dfr_row_count r /\
  0 < Loader.dfr_col_count r /\
  Loader.dfr_col_count r = List.length (columns (Loader.dfr_df r)) /\
  Loader.frame_len env (Loader.dfr_df r) = Loader.Returns (Loader.dfr_row_count r) /\
  Loader.dfr_warnings r = warnings'.
Proof.
  intros H. destruct (load_success env _ _ _ _ _ _ H) as [H1 [H2 H3]].
  repeat (split; [assumption|]). revert H. unfold Loader.load.
  destruct (Loader.getsize env file_path) as [size|]; [|discriminate].
  destruct (Loader.open_zip env file_path file_type) as [[path ft]|]; [|discriminate].
  destruct (Loader.sniff_dtypes env path ft) as [m|e0].
  - destruct (Loader.guarded_read env warnings _ path ft (Some m)) as [[[t d]|] ws];
      [|discriminate].
    intros H. injection H as H <-. now apply validate_result in H.
  - destruct (Loader.is_Exception e0); [|discriminate].
    destruct (Loader.guarded_read env _ _ path ft None) as [[[t d]|] ws]; [|discriminate].
    intros H. injection H as H <-. now apply validate_result in H.
Qed.

Lemma loader_result_is_nonempty_witness :
  let r := Loader.mkDataFrameResult Loader.people 2 2 (256 / (1024 * 1024))%Q
             [("id", "Int16")] false [] in
  0 < Loader.dfr_row_count r /\
  0 < Loader.dfr_col_count r /\
  Loader.dfr_col_count r = List.length (columns (Loader.dfr_df r)) /\
  Loader.frame_len Loader.disk (Loader.dfr_df r) = Loader.Returns (Loader.dfr_row_count r) /\
  Loader.dfr_warnings r = [].
Proof.
  exact (loader_result_is_nonempty Loader.disk [] "people.csv" [("format", "csv")] []
           (Loader.mkDataFrameResult Loader.people 2 2 (256 / (1024 * 1024))%Q
              [("id", "Int16")] false [])
           [] eq_refl).
Defined.

(** X23.  A format for which [load] has no reader is a validation
    failure.  When the size of the file is known, the format is none of
    [zip], [csv], [parquet], and either the file is larger than 2000 MB or
    the format is neither [excel] nor [json], then [load] raises
    [ValidationError] (unless the sniffing let a non-[Exception] through).
    This is the case of [tsv], a format of the dataset records. *)
Theorem loader_rejects_unread_format
  (env : Loader.environment) (warnings : list string) (file_path : string)
  (file_type options : pdict string) (size : nat) (f : string) :
  Loader.getsize env file_path = Loader.Returns size ->
  Loader.format_of file_type = Some f ->
  ~ In f ["zip"; "csv"; "parquet"] ->
  Qltb 2000 (Qnat size / (1024 * 1024)) = true \/ ~ In f ["excel"; "json"] ->
  (forall e, Loader.sniff_dtypes env file_path file_type = Loader.Raises e ->
             Loader.is_Exception e = true) ->
  fst (Loader.load env warnings file_path file_type options) =
    Loader.Raises (Loader.ValidationError "Dataset is empty or format unrecognized.").
Proof.
  intros Hs Hf Hn Hbig Hsniff. unfold Loader.load. rewrite Hs.
  assert (Hz : Loader.format_is file_type "zip" = false).
  { unfold Loader.format_is. rewrite Hf. apply String.eqb_neq. intros ->.
    apply Hn. simpl. tauto. }
  unfold Loader.open_zip. rewrite Hz.
  destruct (Loader.sniff_dtypes env file_path file_type) as [m|e0] eqn:E.
  - unfold Loader.guarded_read.
    rewrite (read_table_no_branch env _ _ _ _ f Hf Hn Hbig). reflexivity.
  - rewrite (Hsniff e0 eq_refl). unfold Loader.guarded_read.
    rewrite (read_table_no_branch env _ _ _ _ f Hf Hn Hbig). reflexivity.
Qed.

Lemma loader_rejects_unread_format_witness :
  fst (Loader.load LoaderSamples.disk [] "table.tsv" (Tasks.file_type_from_dataset "tsv") []) =
    Loader.Raises (Loader.ValidationError "Dataset is empty or format unrecognized.").
Proof.
  apply (loader_rejects_unread_format LoaderSamples.disk [] "table.tsv"
           (Tasks.file_type_from_dataset "tsv") [] 40 "tsv").
  - reflexivity.
  - reflexivity.
  - simpl. intuition discriminate.
  - right. simpl. intuition discriminate.
  - intros e H. vm_compute in H. discriminate H.
Defined.

(** X24.  A failure of the main read is a load failure.  When the size
    is known, the format is not [zip], and the read in the [try] raises an
    [Exception] that is neither a [UnicodeDecodeError] nor a [MemoryError],
    [load] raises [DatasetLoadError] with the message of that exception
    after ["Corrupted file or load failure: "]. *)
Theorem loader_wraps_read_failure
  (env : Loader.environment) (warnings : list string) (file_path : string)
  (file_type options : pdict string) (size : nat) (e : Loader.exn) :
  Loader.getsize env file_path = Loader.Returns size ->
  Loader.format_is file_type "zip" = false ->
  (forall e0, Loader.sniff_dtypes env file_path file_type = Loader.Raises e0 ->
              Loader.is_Exception e0 = true) ->
  (forall dtype_map,
     Loader.read_table env (Qnat size / (1024 * 1024)) file_path file_type dtype_map =
       Loader.Raises e) ->
  Loader.is_Exception e = true ->
  Loader.is_UnicodeDecodeError e = false ->
  Loader.is_MemoryError e = false ->
  fst (Loader.load env warnings file_path file_type options) =
    Loader.Raises
      (Loader.DatasetLoadError
         ("Corrupted file or load failure: " ++ Loader.exn_message e)%string).
Proof.
  intros Hs Hz Hsniff Hread He Hu Hm. unfold Loader.load. rewrite Hs.
  unfold Loader.open_zip. rewrite Hz.
  destruct (Loader.sniff_dtypes env file_path file_type) as [m|e0] eqn:E.
  - now rewrite (guarded_read_wraps env _ _ _ _ _ e (Hread _) He Hu Hm).
  - rewrite (Hsniff e0 eq_refl).
    now rewrite (guarded_read_wraps env _ _ _ _ _ e (Hread _) He Hu Hm).
Qed.

Lemma loader_wraps_read_failure_witness :
  fst (Loader.load LoaderSamples.disk [] "garbled.csv" (Tasks.file_type_from_dataset "csv") [])
  = Loader.Raises
      (Loader.DatasetLoadError
         ("Corrupted file or load failure: " ++
          Loader.exn_message LoaderSamples.parser_error)%string).
Proof.
  apply (loader_wraps_read_failure LoaderSamples.disk [] "garbled.csv"
           (Tasks.file_type_from_dataset "csv") [] 64 LoaderSamples.parser_error).
  - reflexivity.
  - reflexivity.
  - intros e0 H. vm_compute in H. injection H as <-. reflexivity.
  - intros dtype_map. reflexivity.
  - reflexivity.
  - reflexivity.
  - reflexivity.
Defined.

(** X25.  The dtypes that [sniff_dtypes] suggests are entries for
    columns of the sample it read, each one of [Int16], [Int32], [Int64]
    and [category]; for a format other than [csv] and [tsv] it suggests
    nothing (and reads nothing). *)
Theorem sniff_dtypes_entries
  (env : Loader.environment) (file_path : string) (file_type m : pdict string) :
  Loader.sniff_dtypes env file_path file_type = Loader.Returns m ->
  Forall (fun kv => In (snd kv) ["Int16"; "Int32"; "Int64"; "category"]) m /\
  (forall sample,
     Loader.pd_read_csv env file_path
       (Loader.mkCsv (Loader.delimiter_of file_type) None
          (Some (Loader.encoding_of file_type)) (Some (100 * 100)) None) =
       Loader.Returns sample ->
     Forall (fun kv => In (fst kv) (column_names sample)) m) /\
  (Loader.format_is file_type "csv" = false ->
   Loader.format_is file_type "tsv" = false -> m = []).
Proof.
  unfold Loader.sniff_dtypes.
  destruct (Loader.format_is file_type "csv" || Loader.format_is file_type "tsv") eqn:Ef;
    cbn [negb].
  - destruct (Loader.pd_read_csv env file_path _) as [sample|e] eqn:Er; [|discriminate].
    intros H. pose proof (sniff_columns_entries sample _ [] m (Forall_nil _) H) as Hall.
    cbv zeta in Hall. split; [|split].
    + eapply Forall_impl; [|exact Hall]. intros kv Hkv. apply Hkv.
    + intros sample' Hs. injection Hs as <-.
      eapply Forall_impl; [|exact Hall]. intros kv Hkv. apply Hkv.
    + intros H1 H2. rewrite H1, H2 in Ef. discriminate.
  - intros H. injection H as <-. split; [constructor|]. split; [constructor|auto].
Qed.

Lemma sniff_dtypes_entries_witness :
  Forall (fun kv => In (snd kv) ["Int16"; "Int32"; "Int64"; "category"]) [("id", "Int16")] /\
  (forall sample,
     Loader.pd_read_csv Loader.disk "people.csv"
       (Loader.mkCsv (Loader.delimiter_of [("format", "csv")]) None
          (Some (Loader.encoding_of [("format", "csv")])) (Some (100 * 100)) None) =
       Loader.Returns sample ->
     Forall (fun kv => In (fst kv) (column_names sample)) [("id", "Int16")]) /\
  (Loader.format_is [("format", "csv")] "csv" = false ->
   Loader.format_is [("format", "csv")] "tsv" = false -> [("id", "Int16")] = []).
Proof.
  exact (sniff_dtypes_entries Loader.disk "people.csv" [("format", "csv")] [("id", "Int16")]
           eq_refl).
Defined.

(** X26.  [load] only ever appends to the warnings of the loader, and at
    most two: one when the sniffing fails, one when the read is retried
    with another encoding or engine. *)
Theorem loader_warnings_only_grow
  (env : Loader.environment) (warnings : list string) (file_path : string)
  (file_type options : pdict string) :
  exists new,
    snd (Loader.load env warnings file_path file_type options) = warnings ++ new /\
    List.length new <= 2.
Proof.
  unfold Loader.load.
  destruct (Loader.getsize env file_path) as [size|];
    [|exists []; rewrite app_nil_r; split; [reflexivity | simpl; lia]].
  destruct (Loader.open_zip env file_path file_type) as [[path ft]|];
    [|exists []; rewrite app_nil_r; split; [reflexivity | simpl; lia]].
  destruct (Loader.sniff_dtypes env path ft) as [m|e0].
  - destruct (guarded_read_warnings env warnings (Qnat size / (1024 * 1024)) path ft (Some m))
      as [new [Hn Hl]].
    destruct (Loader.guarded_read env warnings _ path ft (Some m)) as [[[t d]|] ws];
      cbn [snd] in *; exists new; split; auto; lia.
  - destruct (Loader.is_Exception e0); [|exists []; rewrite app_nil_r; split; [reflexivity | simpl; lia]].
    match goal with
    | |- context [Loader.guarded_read env ?w ?mb path ft None] =>
        destruct (guarded_read_warnings env w mb path ft None) as [new [Hn Hl]];
        destruct (Loader.guarded_read env w mb path ft None) as [[[t d]|] ws]
    end; cbn [snd] in *; eexists; (split; [rewrite Hn, <- app_assoc; reflexivity|]);
      rewrite length_app; simpl; lia.
Qed.

(** ** Encoder Suggester *)

Section EncoderSuggesterLogs.
Import EncoderSuggester.

Variable sample_df : frame.
Variable context : PipelineContext.

Local Abbreviation suggested cols :=
  (fun l : log_entry =>
     exists col s, In col cols /\ l = suggest_log (ctx_job_id context) col s /\
                   In s suggestions /\
                   skipped_role (dict_get (ctx_schema context) col) = false).

Lemma suggestion_known (role : option string) (c : column) (s : string) :
  suggestion role c = Some s -> In s suggestions.
Proof.
  unfold suggestion, suggestions.
  destruct (role_is role "datetime_col"); [intros H; injection H as <-; simpl; tauto|].
  destruct (role_is role "text_col"); [intros H; injection H as <-; simpl; tauto|].
  destruct (_ || _); [|discriminate].
  destruct (Nat.leb _ 10); [intros H; injection H as <-; simpl; tauto|].
  destruct (_ && _); intros H; injection H as <-; simpl; tauto.
Qed.

Lemma loop_logs (cols : list string) (logs logs' : list log_entry) :
  loop sample_df context cols logs = Ok logs' ->
  exists new, logs' = logs ++ new /\ List.length new <= List.length cols /\
              Forall (suggested cols) new.
Proof.
  revert logs. induction cols as [|col cols IH]; intros logs.
  - cbn. intros H. injection H as <-. exists []. rewrite app_nil_r. auto.
  - cbn [loop]. destruct (loop_body sample_df context logs col) as [logs1|] eqn:Eb;
      [|discriminate].
    intros H. destruct (IH logs1 H) as [new [-> [Hlen Hall]]].
    assert (Hwiden : Forall (suggested (col :: cols)) new).
    { eapply Forall_impl; [|exact Hall]. intros l [c [s [Hc Hr]]].
      exists c, s. split; [now right | exact Hr]. }
    unfold loop_body in Eb. destruct (select sample_df col) as [c|]; [|discriminate].
    destruct (skipped_role (dict_get (ctx_schema context) col)) eqn:Es.
    { injection Eb as <-. exists new. cbn [List.length]. auto. }
    destruct (suggestion (dict_get (ctx_schema context) col) c) as [s|] eqn:Eg.
    + injection Eb as <-. exists (suggest_log (ctx_job_id context) col s :: new).
      rewrite <- app_assoc. cbn [app List.length]. split; [reflexivity|]. split; [lia|].
      constructor; [|exact Hwiden]. exists col, s. split; [now left|].
      split; [reflexivity|]. split; [now apply suggestion_known in Eg | exact Es].
    + injection Eb as <-. exists new. cbn [List.length]. auto.
Qed.

(** What one label contributes to the log. *)
Local Abbreviation entries_of :=
  (fun col : string =>
     match select sample_df col with
     | Ok c =>
         if skipped_role (dict_get (ctx_schema context) col) then []
         else match suggestion (dict_get (ctx_schema context) col) c with
              | Some s => [suggest_log (ctx_job_id context) col s]
              | None => []
              end
     | Raise _ => []
     end).

Lemma loop_logs_by_label (cols : list string) (logs logs' : list log_entry) :
  loop sample_df context cols logs = Ok logs' ->
  logs' = logs ++ flat_map entries_of cols.
Proof.
  revert logs. induction cols as [|col cols IH]; intros logs.
  - cbn. intros H. injection H as <-. now rewrite app_nil_r.
  - cbn [loop flat_map]. unfold loop_body.
    destruct (select sample_df col) as [c|]; [|discriminate].
    destruct (skipped_role _); [apply IH|].
    destruct (suggestion _ c).
    + intros H. apply IH in H. now rewrite H, <- app_assoc.
    + apply IH.
Qed.

Lemma entries_of_keyed (col : string) :
  List.length (entries_of col) <= 1 /\
  Forall (fun l => log_column_name l = Some col) (entries_of col).
Proof.
  cbv beta. destruct (select sample_df col) as [c|]; [|split; [simpl; lia | constructor]].
  destruct (skipped_role _); [split; [simpl; lia | constructor]|].
  destruct (suggestion _ c); split; simpl; try lia; repeat constructor.
Qed.

Lemma loop_returns (cols : list string) (logs : list log_entry) :
  (forall col, In col cols -> exists c, select sample_df col = Ok c) ->
  exists logs', loop sample_df context cols logs = Ok logs'.
Proof.
  revert logs. induction cols as [|col cols IH]; intros logs H; [now exists logs|].
  cbn [loop]. unfold loop_body. destruct (H col (or_introl eq_refl)) as [c ->].
  destruct (skipped_role _); [apply IH; intros x Hx; apply H; now right|].
  destruct (suggestion _ c); apply IH; intros x Hx; apply H; now right.
Qed.

End EncoderSuggesterLogs.

(** X27.  On a table with pairwise distinct labels the Encoder Suggester
    returns, and it only suggests: the table is handed back as it came,
    with no warning and no modified column; every log entry is a
    [suggest_encoder] entry for a column of the table whose role is none
    of [id_col], [constant_col], [target_col], carrying one of the five
    suggestions; and no two entries name the same column, so that there is
    at most one log entry per column. *)
Theorem encoder_suggester_suggests_only (df : frame) (context : PipelineContext) :
  NoDup (column_names df) ->
  exists r,
    EncoderSuggester.run df context = Ok r /\
    res_df r = df /\ res_warnings r = [] /\ res_modified_columns r = [] /\
    List.length (res_logs r) <= List.length (columns df) /\
    Forall (fun l =>
              exists col s,
                In col (column_names df) /\
                l = EncoderSuggester.suggest_log (ctx_job_id context) col s /\
                In s EncoderSuggester.suggestions /\
                EncoderSuggester.skipped_role (dict_get (ctx_schema context) col) = false)
           (res_logs r) /\
    NoDup (map log_column_name (res_logs r)).
Proof.
  intros Hnd. unfold EncoderSuggester.run.
  assert (Hnames : column_names (EncoderSuggester.sample_frame df) = column_names df).
  { unfold EncoderSuggester.sample_frame. destruct (frame_is_dask df); [|reflexivity].
    apply frame_head_names. }
  destruct (loop_returns (EncoderSuggester.sample_frame df) context
              (column_names (EncoderSuggester.sample_frame df)) []) as [logs Hl].
  { intros col Hin. apply select_unique; [now rewrite Hnames | exact Hin]. }
  rewrite Hl. eexists. split; [reflexivity|]. cbn [res_df res_warnings res_modified_columns res_logs].
  pose proof (loop_logs_by_label _ _ _ _ _ Hl) as Hflat.
  destruct (loop_logs _ _ _ _ _ Hl) as [new [Hnew [Hlen Hall]]].
  rewrite app_nil_l in Hflat, Hnew. subst new.
  rewrite Hnames in *. unfold column_names in Hlen. rewrite length_map in Hlen.
  repeat (split; [reflexivity || assumption|]).
  rewrite Hflat. apply flat_map_keys_nodup; [|exact Hnd].
  apply entries_of_keyed.
Qed.

Lemma encoder_suggester_suggests_only_witness :
  exists r,
    EncoderSuggester.run SchemaAnalyzer.df_roles EncoderSuggester.roles_context = Ok r /\
    res_df r = SchemaAnalyzer.df_roles /\ res_warnings r = [] /\
    res_modified_columns r = [] /\
    List.length (res_logs r) <= List.length (columns SchemaAnalyzer.df_roles) /\
    Forall (fun l =>
              exists col s,
                In col (column_names SchemaAnalyzer.df_roles) /\
                l = EncoderSuggester.suggest_log
                      (ctx_job_id EncoderSuggester.roles_context) col s /\
                In s EncoderSuggester.suggestions /\
                EncoderSuggester.skipped_role
                  (dict_get (ctx_schema EncoderSuggester.roles_context) col) = false)
           (res_logs r) /\
    NoDup (map log_column_name (res_logs r)).
Proof.
  apply (encoder_suggester_suggests_only SchemaAnalyzer.df_roles
           EncoderSuggester.roles_context).
  repeat constructor; simpl; intuition discriminate.
Defined.

(** ** Preprocessing Orchestrator *)

Section PipelineInvariant.
Import PreprocessingOrchestrator.

(** What every step keeps of the table and of the context. *)
Local Abbreviation keeps df ctx df' ctx' :=
  (n_rows df' = n_rows df /\ frame_is_dask df' = frame_is_dask df /\
   ctx_dataset_id ctx' = ctx_dataset_id ctx /\ ctx_domain ctx' = ctx_domain ctx /\
   ctx_job_id ctx' = ctx_job_id ctx /\
   exists new, ctx_warnings ctx' = ctx_warnings ctx ++ new).

Local Abbreviation step_keeps :=
  (fun s : step =>
     forall df ctx result ctx',
       snd s df ctx = Ok (result, ctx') ->
       keeps df ctx (res_df result) ctx').

Lemma run_steps_keeps (l : list step) (st st' : pipeline_state) :
  Forall step_keeps l ->
  run_steps l st = Ok st' ->
  keeps (current_df st) (context st) (current_df st') (context st').
Proof.
  intros Hall. revert st. induction Hall as [|[name run] l Hs Hl IH]; intros st.
  - cbn. intros H. injection H as <-. repeat split. exists []. now rewrite app_nil_r.
  - cbn [run_steps]. destruct (run (current_df st) (context st)) as [[result ctx]|] eqn:Er;
      [|discriminate].
    intros H. destruct (IH _ H) as [I1 [I2 [I3 [I4 [I5 [new2 I6]]]]]].
    destruct (Hs _ _ _ _ Er) as [S1 [S2 [S3 [S4 [S5 [new1 S6]]]]]].
    cbn [absorb current_df context ctx_dataset_id ctx_domain ctx_job_id ctx_warnings] in *.
    repeat split; try congruence.
    exists (new1 ++ res_warnings result ++ new2).
    rewrite I6, S6, <- !app_assoc. reflexivity.
Qed.

Lemma for_columns_context (to_datetime : list value -> option (list cell))
  (repr_other : value -> string) (kc : pdict (pdict string)) (sample : frame)
  (cols : list string) (ctx ctx' : PipelineContext) (logs logs' : list log_entry) :
  SchemaAnalyzer.for_columns to_datetime repr_other kc sample cols (ctx, logs) =
    Ok (ctx', logs') ->
  ctx_dataset_id ctx' = ctx_dataset_id ctx /\ ctx_domain ctx' = ctx_domain ctx /\
  ctx_job_id ctx' = ctx_job_id ctx /\
  exists new, ctx_warnings ctx' = ctx_warnings ctx ++ new.
Proof.
  revert ctx logs. induction cols as [|col cols IH]; intros ctx logs.
  - cbn. intros H. injection H as <- _. repeat split. exists []. now rewrite app_nil_r.
  - cbn [SchemaAnalyzer.for_columns].
    destruct (SchemaAnalyzer.step_column _ _ _ _ (ctx, logs) col) as [[ctx1 logs1]|] eqn:Es;
      [|discriminate].
    intros H. destruct (IH _ _ H) as [I1 [I2 [I3 [new2 I4]]]].
    unfold SchemaAnalyzer.step_column in Es.
    destruct (SchemaAnalyzer.profile_role kc col).
    + injection Es as <- _. cbn in *. repeat split; try assumption. now exists new2.
    + destruct (select sample col) as [c|]; [|discriminate].
      destruct (SchemaAnalyzer.infer_role _ _ _ c) as [[role w]|]; [|discriminate].
      injection Es as <- _. destruct w as [m|]; cbn in *; repeat split; try assumption.
      * exists ([m] ++ new2). now rewrite I4, <- app_assoc.
      * now exists new2.
Qed.

Lemma missing_fold_rows (approx_median : list Q -> Q) (ctx : PipelineContext) (total : nat)
  (items : list (string * nat)) (st : MissingValueHandler.loop_state) :
  n_rows (MissingValueHandler.st_df
            (fold_left (MissingValueHandler.loop_body approx_median ctx total) items st)) =
  n_rows (MissingValueHandler.st_df st).
Proof.
  revert st. induction items as [|[col count] items IH]; intros st; [reflexivity|].
  cbn [fold_left]. rewrite IH. unfold MissingValueHandler.loop_body.
  destruct (Nat.eqb count 0); [reflexivity|].
  destruct (Qltb _ _); [reflexivity|].
  destruct (frame_get _ col); [|reflexivity].
  cbn [MissingValueHandler.st_df]. unfold frame_set. cbn [n_rows].
  now destruct (Qle_bool _ _).
Qed.

Lemma steps_keep (ext : externals) : Forall step_keeps (steps ext).
Proof.
  unfold steps. repeat apply Forall_cons; [| | | | | | |apply Forall_nil];
    intros df ctx result ctx'; cbn [snd].
  - intros H. injection H as <- <-. unfold ColumnNormalizer.run. cbn.
    repeat split. exists []. now rewrite app_nil_r.
  - unfold SchemaAnalyzer.run.
    destruct (SchemaAnalyzer.for_columns _ _ _ _ _ (ctx, [])) as [[ctx1 logs1]|] eqn:E;
      [|discriminate].
    intros H. injection H as <- <-. cbn [res_df].
    destruct (for_columns_context _ _ _ _ _ _ _ _ _ E) as [H1 [H2 [H3 H4]]].
    repeat split; assumption.
  - intros H. injection H as <- <-. unfold TypeFixer.run. cbn [res_df].
    destruct (fold_layout (parse_number ext) (repr_other ext) (fixer_to_datetime ext) ctx
                (column_names df) (TypeFixer.mkLoop df [] [] [])) as [_ [H1 H2]].
    cbn [TypeFixer.st_df] in H1, H2.
    repeat split; try assumption. exists []. now rewrite app_nil_r.
  - intros H. injection H as H. unfold MissingValueHandler.run in H.
    destruct (Nat.eqb (n_rows df) 0).
    + injection H as <- <-. cbn. repeat split. exists []. now rewrite app_nil_r.
    + injection H as <- <-.
      cbn [fst snd res_df ctx_dataset_id ctx_domain ctx_job_id ctx_warnings].
      rewrite missing_fold_rows, fold_engine. cbn [MissingValueHandler.st_df].
      repeat split.
      destruct (fold_warnings (approx_median ext) ctx (n_rows df)
                  (MissingValueHandler.null_counts df)
                  (MissingValueHandler.mkLoop df (ctx_warnings ctx) [] [])) as [ws Hws].
      exists ws. exact Hws.
  - intros H. injection H as <- <-.
    assert (E : res_df (DuplicateDetector.run (unhashable ext) df ctx) = df).
    { unfold DuplicateDetector.run. destruct (frame_is_dask df); [reflexivity|].
      destruct (DuplicateDetector.count_duplicates _ df); [|reflexivity].
      now destruct (Nat.ltb 0 _). }
    rewrite E. repeat split. exists []. now rewrite app_nil_r.
  - intros H. injection H as <- <-. unfold OutlierDetector.run. cbn [res_df].
    repeat split. exists []. now rewrite app_nil_r.
  - unfold EncoderSuggester.run.
    destruct (EncoderSuggester.loop _ _ _ _) as [logs|]; [|discriminate].
    intros H. injection H as <- <-. cbn [res_df].
    repeat split. exists []. now rewrite app_nil_r.
Qed.

End PipelineInvariant.

(** X28.  Whenever the pipeline returns on a table with pairwise distinct
    labels, the table it returns has as many rows as the one it was given
    and is on the same engine: no step drops or adds a row.  The dataset
    id, the domain and the job id of the context are untouched, and the
    warnings of the context are the ones it had, followed by new ones. *)
Theorem pipeline_keeps_rows_and_identity (ext : PreprocessingOrchestrator.externals)
  (df df' : frame) (ctx ctx' : PipelineContext) (logs : list log_entry) :
  NoDup (column_names df) ->
  PreprocessingOrchestrator.run_pipeline ext df ctx = Ok (df', logs, ctx') ->
  n_rows df' = n_rows df /\ frame_is_dask df' = frame_is_dask df /\
  ctx_dataset_id ctx' = ctx_dataset_id ctx /\ ctx_domain ctx' = ctx_domain ctx /\
  ctx_job_id ctx' = ctx_job_id ctx /\
  exists new, ctx_warnings ctx' = ctx_warnings ctx ++ new.
Proof.
  intros _ H. unfold PreprocessingOrchestrator.run_pipeline in H.
  destruct (PreprocessingOrchestrator.run_steps _ _) as [st|] eqn:E; [|discriminate].
  injection H as <- _ <-.
  exact (run_steps_keeps _ _ _ (steps_keep ext) E).
Qed.

Lemma pipeline_keeps_rows_and_identity_witness :
  exists df' logs ctx',
    PreprocessingOrchestrator.run_pipeline PreprocessingOrchestrator.plain_externals
      MissingValueHandler.df_gaps sample_context = Ok (df', logs, ctx') /\
    n_rows df' = n_rows MissingValueHandler.df_gaps /\
    frame_is_dask df' = frame_is_dask MissingValueHandler.df_gaps /\
    ctx_dataset_id ctx' = ctx_dataset_id sample_context /\
    ctx_domain ctx' = ctx_domain sample_context /\
    ctx_job_id ctx' = ctx_job_id sample_context /\
    exists new, ctx_warnings ctx' = ctx_warnings sample_context ++ new.
Proof.
  destruct (PreprocessingOrchestrator.run_pipeline PreprocessingOrchestrator.plain_externals
              MissingValueHandler.df_gaps sample_context) as [[[df' logs] ctx']|e] eqn:E.
  - exists df', logs, ctx'. split; [reflexivity|].
    apply (pipeline_keeps_rows_and_identity PreprocessingOrchestrator.plain_externals
             MissingValueHandler.df_gaps df' sample_context ctx' logs).
    + repeat constructor; simpl; intuition discriminate.
    + exact E.
  - vm_compute in E. discriminate E.
Defined.

(** X29.  On a table without rows that has at least one column, in a
    domain without known columns, the pipeline fails at its second step:
    the normalizer goes through, the Schema Analyzer divides by the length
    of the sample, and the pipeline raises the [RuntimeError] that names
    the step. *)
Theorem pipeline_empty_table_fails (ext : PreprocessingOrchestrator.externals)
  (df : frame) (ctx : PipelineContext) :
  NoDup (column_names df) ->
  columns df <> [] ->
  n_rows df = 0 ->
  (forall c, In c (columns df) -> col_cells c = []) ->
  DomainProfiles.get_domain_profile (ctx_domain ctx) = [] ->
  PreprocessingOrchestrator.run_pipeline ext df ctx =
  Raise "Pipeline step SchemaAnalyzer failed: division by zero".
Proof.
  intros Hnd Hcols Hn Hcells Hprofile.
  destruct (normalizer_distinct_labels df ctx Hnd) as [_ [Hdistinct _]].
  unfold ColumnNormalizer.run in Hdistinct. cbn [fst res_df] in Hdistinct.
  unfold PreprocessingOrchestrator.run_pipeline, PreprocessingOrchestrator.steps.
  cbn [PreprocessingOrchestrator.run_steps PreprocessingOrchestrator.current_df
       PreprocessingOrchestrator.context].
  unfold ColumnNormalizer.run.
  cbn [PreprocessingOrchestrator.absorb PreprocessingOrchestrator.run_steps
       PreprocessingOrchestrator.current_df PreprocessingOrchestrator.context res_df].
  rewrite schema_run_no_rows; [reflexivity | exact Hdistinct | exact Hn | |].
  - intros c Hc. cbn [ColumnNormalizer.rename_columns columns] in Hc.
    apply in_map_iff in Hc as [c0 [<- Hc0]]. cbn [col_cells]. now apply Hcells.
  - cbn [ctx_domain with_schema]. rewrite Hprofile.
    destruct (columns df) as [|c0 cols] eqn:E; [contradiction|].
    eexists. split.
    + cbn [ColumnNormalizer.rename_columns columns]. rewrite E. now left.
    + reflexivity.
Qed.

Lemma pipeline_empty_table_fails_witness :
  PreprocessingOrchestrator.run_pipeline PreprocessingOrchestrator.plain_externals
    (mkFrame false 0 [mkColumn "Amount (EUR)" DFloat []]) sample_context =
  Raise "Pipeline step SchemaAnalyzer failed: division by zero".
Proof.
  apply pipeline_empty_table_fails.
  - repeat constructor; simpl; intuition discriminate.
  - discriminate.
  - reflexivity.
  - intros c [<-|[]]. reflexivity.
  - reflexivity.
Defined.

(** ** File detector *)

Lemma encoding_or_default_nonempty (detected : option string) :
  FileDetector.encoding_or_default detected <> ""%string.
Proof.
  unfold FileDetector.encoding_or_default. destruct detected as [e|]; [|discriminate].
  destruct (String.eqb e "") eqn:E; [discriminate|]. now apply String.eqb_neq in E.
Qed.

(** X30.  Whatever the libraries answer, a result of the file detection is
    consistent: the format is one of seven names; the delimiter is the tab
    for [tsv], the comma for [csv] and absent otherwise; the file counts
    as compressed, and has a list of contained files, exactly when the
    format is [zip]; sheet names come only with [excel]; and the encoding
    is never empty. *)
Theorem detect_file_type_consistent (env : FileDetector.environment) (file_path : string)
  (r : FileDetector.FileTypeResult) :
  FileDetector.detect_file_type env file_path = Loader.Returns r ->
  In (FileDetector.ft_format r)
     ["zip"; "excel"; "parquet"; "json"; "tsv"; "csv"; "unknown"]%string /\
  FileDetector.ft_delimiter r =
    (if String.eqb (FileDetector.ft_format r) "tsv" then Some Tasks.tab
     else if String.eqb (FileDetector.ft_format r) "csv" then Some ","%string
     else None) /\
  FileDetector.ft_is_compressed r = String.eqb (FileDetector.ft_format r) "zip" /\
  (FileDetector.ft_contained_files r <> None <-> FileDetector.ft_format r = "zip"%string) /\
  (FileDetector.ft_sheet_names r <> None -> FileDetector.ft_format r = "excel"%string) /\
  FileDetector.ft_encoding r <> ""%string.
Proof.
  unfold FileDetector.detect_file_type.
  destruct (FileDetector.read_sample env file_path _) as [sample_bytes|e]; [|discriminate].
  pose proof (encoding_or_default_nonempty
                (FileDetector.detect_encoding env sample_bytes)) as Henc.
  set (encoding := FileDetector.encoding_or_default _) in *.
  set (mime_type := FileDetector.from_buffer env sample_bytes).
  assert (Hshape : forall format delimiter sheets compressed files,
            In format ["zip"; "excel"; "parquet"; "json"; "tsv"; "csv"; "unknown"]%string ->
            delimiter =
              (if String.eqb format "tsv" then Some Tasks.tab
               else if String.eqb format "csv" then Some ","%string else None) ->
            compressed = String.eqb format "zip" ->
            (files <> None <-> format = "zip"%string) ->
            (sheets <> None -> format = "excel"%string) ->
            Loader.Returns (FileDetector.mkFileTypeResult format encoding delimiter sheets
                              compressed mime_type files) = Loader.Returns r ->
            In (FileDetector.ft_format r)
               ["zip"; "excel"; "parquet"; "json"; "tsv"; "csv"; "unknown"]%string /\
            FileDetector.ft_delimiter r =
              (if String.eqb (FileDetector.ft_format r) "tsv" then Some Tasks.tab
               else if String.eqb (FileDetector.ft_format r) "csv" then Some ","%string
               else None) /\
            FileDetector.ft_is_compressed r = String.eqb (FileDetector.ft_format r) "zip" /\
            (FileDetector.ft_contained_files r <> None <->
             FileDetector.ft_format r = "zip"%string) /\
            (FileDetector.ft_sheet_names r <> None ->
             FileDetector.ft_format r = "excel"%string) /\
            FileDetector.ft_encoding r <> ""%string).
  { intros format delimiter sheets compressed files H1 H2 H3 H4 H5 H.
    injection H as <-. cbn. repeat split; try assumption; apply H4 || apply H5. }
  destruct (contains "zip" mime_type).
  { destruct (FileDetector.infolist env file_path) as [infos|e].
    - apply Hshape; [simpl; tauto | reflexivity | reflexivity | split; [reflexivity | discriminate]
                    | intros H; now contradiction H].
    - destruct (FileDetector.is_BadZipFile e); [|discriminate].
      apply Hshape; [simpl; tauto | reflexivity | reflexivity
                    | split; [reflexivity | discriminate] | intros H; now contradiction H]. }
  destruct (_ || _).
  { destruct (FileDetector.sheetnames env file_path) as [names|e].
    - apply Hshape; [simpl; tauto | reflexivity | reflexivity
                    | split; [intros H; now contradiction H | discriminate] | reflexivity].
    - destruct (Loader.is_Exception e); [|discriminate].
      apply Hshape; [simpl; tauto | reflexivity | reflexivity
                    | split; [intros H; now contradiction H | discriminate]
                    | intros H; now contradiction H]. }
  destruct (_ || _).
  { destruct (String.eqb _ "PAR1");
      (apply Hshape; [simpl; tauto | reflexivity | reflexivity
                     | split; [intros H; now contradiction H | discriminate]
                     | intros H; now contradiction H]). }
  destruct (contains "json" mime_type).
  { apply Hshape; [simpl; tauto | reflexivity | reflexivity
                  | split; [intros H; now contradiction H | discriminate]
                  | intros H; now contradiction H]. }
  destruct (_ || _).
  { destruct (FileDetector.decode env sample_bytes encoding) as [sample_text|e].
    - destruct (_ && _);
        (apply Hshape; [simpl; tauto | reflexivity | reflexivity
                       | split; [intros H; now contradiction H | discriminate]
                       | intros H; now contradiction H]).
    - destruct (Loader.is_UnicodeDecodeError e); [|discriminate].
      apply Hshape; [simpl; tauto | reflexivity | reflexivity
                    | split; [intros H; now contradiction H | discriminate]
                    | intros H; now contradiction H]. }
  apply Hshape; [simpl; tauto | reflexivity | reflexivity
                | split; [intros H; now contradiction H | discriminate]
                | intros H; now contradiction H].
Qed.

Lemma detect_file_type_consistent_witness :
  let r := FileDetector.mkFileTypeResult "zip" "ascii" None None true "application/zip"
             (Some []) in
  In (FileDetector.ft_format r)
     ["zip"; "excel"; "parquet"; "json"; "tsv"; "csv"; "unknown"]%string /\
  FileDetector.ft_delimiter r =
    (if String.eqb (FileDetector.ft_format r) "tsv" then Some Tasks.tab
     else if String.eqb (FileDetector.ft_format r) "csv" then Some ","%string
     else None) /\
  FileDetector.ft_is_compressed r = String.eqb (FileDetector.ft_format r) "zip" /\
  (FileDetector.ft_contained_files r <> None <-> FileDetector.ft_format r = "zip"%string) /\
  (FileDetector.ft_sheet_names r <> None -> FileDetector.ft_format r = "excel"%string) /\
  FileDetector.ft_encoding r <> ""%string.
Proof.
  exact (detect_file_type_consistent FileDetector.broken_upload "upload.bin"
           (FileDetector.mkFileTypeResult "zip" "ascii" None None true "application/zip"
              (Some []))
           eq_refl).
Defined.
